(** * Verification of the failover dispatcher and the response interpreter

    Shallow embedding of [generate_content_with_failover], [clean_json],
    [calculate_overall] and [process_response] of [app.EN.py] (the second
    source file carries the same four functions, character for character).

    Modelling conventions.
    - A Python [str] is a Rocq [string]; a character is a code point below
      256, so [\s], [\d], [str.lower] and [str.strip] are the restrictions of
      the Python ones to that alphabet.
    - A Python [float] is an IEEE-754 binary64 value, built on the
      [spec_float] operations of the standard library (precision 53,
      maximal exponent 1024), rounding to nearest even.
    - [json.loads] is a library function: the interpreter is parameterised
      by it.  A reference parser for the JSON subset used in the examples is
      provided separately.
    - The remote generative service is an oracle indexed by the position of
      the attempt and the credential used. *)

From Stdlib Require Import ZArith NArith QArith Qround Ascii String SpecFloat Lia Bool.
From stdpp Require Import base option list gmap strings.

Set Warnings "-register-all".

Local Open Scope Z_scope.

(** ** Python strings *)

Module PyStr.

Definition code (c : ascii) : N := N_of_ascii c.

Definition in_range (lo hi : N) (c : ascii) : bool :=
  ((lo <=? code c) && (code c <=? hi))%N.

(** [Py_UNICODE_ISSPACE] below 256: used by [\s] and by [str.strip]. *)
Definition isspace (c : ascii) : bool :=
  in_range 9 13 c || in_range 28 32 c
  || (code c =? 133)%N || (code c =? 160)%N.

(** [\d] below 256. *)
Definition isdigit (c : ascii) : bool := in_range 48 57 c.

(** [str.lower] on one character. *)
Definition lower_char (c : ascii) : ascii :=
  if in_range 65 90 c
     || (in_range 192 222 c && negb (code c =? 215)%N)
  then ascii_of_N (code c + 32)
  else c.

Fixpoint lower (s : string) : string :=
  match s with
  | EmptyString => EmptyString
  | String c s' => String (lower_char c) (lower s')
  end.

Fixpoint rev_onto (s acc : string) : string :=
  match s with
  | EmptyString => acc
  | String c s' => rev_onto s' (String c acc)
  end.

Definition rev (s : string) : string := rev_onto s EmptyString.

Fixpoint lstrip (s : string) : string :=
  match s with
  | EmptyString => EmptyString
  | String c s' => if isspace c then lstrip s' else s
  end.

(** [s.strip()] *)
Definition strip (s : string) : string := rev (lstrip (rev (lstrip s))).

(** The white space [float] skips around a number: the six ASCII blanks of
    C, and the blanks beyond ASCII. *)
Definition float_space (c : ascii) : bool :=
  in_range 9 13 c || (code c =? 32)%N || (code c =? 133)%N || (code c =? 160)%N.

Fixpoint float_lstrip (s : string) : string :=
  match s with
  | EmptyString => EmptyString
  | String c s' => if float_space c then float_lstrip s' else s
  end.

Definition float_strip (s : string) : string :=
  rev (float_lstrip (rev (float_lstrip s))).

(** [s.startswith(p)] *)
Fixpoint startswith (p s : string) : bool :=
  match p, s with
  | EmptyString, _ => true
  | String a p', String b s' => if Ascii.eqb a b then startswith p' s' else false
  | String _ _, EmptyString => false
  end.

(** [sub in s] *)
Fixpoint contains (sub s : string) : bool :=
  startswith sub s ||
  match s with
  | EmptyString => false
  | String _ s' => contains sub s'
  end.

(** [s.split(sep)[0]]: the text before the first occurrence of [sep],
    the whole of [s] when [sep] does not occur. *)
Fixpoint split_head (sep s : string) : string :=
  if startswith sep s then EmptyString
  else match s with
       | EmptyString => EmptyString
       | String c s' => String c (split_head sep s')
       end.

(** [s[-n:]] *)
Definition last_chars (n : nat) (s : string) : string :=
  let l := String.length s in
  String.substring (l - n) (Nat.min n l) s.

(** [not s] *)
Definition falsy (s : string) : bool :=
  match s with EmptyString => true | _ => false end.

(** Decimal rendering of a Python [int]. *)
Definition digit_char (d : Z) : ascii := ascii_of_N (48 + Z.to_N d).

Fixpoint dec_digits (fuel : nat) (n : Z) (acc : string) : string :=
  match fuel with
  | O => acc
  | S fuel' =>
      let acc' := String (digit_char (n mod 10)) acc in
      if n <? 10 then acc' else dec_digits fuel' (n / 10) acc'
  end.

Definition str_nonneg (n : Z) : string :=
  dec_digits (S (Z.to_nat (Z.log2 n))) n EmptyString.

Definition str_int (n : Z) : string :=
  if n <? 0 then String "-" (str_nonneg (- n)) else str_nonneg n.

End PyStr.

(** ** Regular expressions

    The fragment of Python's [re] the program uses: a sequence of
    single-character classes, each with an optional quantifier, and
    capturing groups that are not nested.  Matching is by backtracking in
    Python's priority order (a greedy quantifier tries the longest run
    first, a lazy one the shortest), so the groups returned are the ones
    [re.search] reports. *)

Module Regex.

Inductive quant :=
| One | Opt | OptLazy | Star | StarLazy | Plus | PlusLazy.

(** A class of characters. *)
Inductive cls :=
| Any
| NotNewline
| Space
| Digit
| Char (c : ascii)
| CharNoCase (c : ascii)
| Range (lo hi : ascii)
| Nothing
| Union (a b : cls)
| Not (a : cls).

Fixpoint in_class (k : cls) (x : ascii) : bool :=
  match k with
  | Any => true
  | NotNewline => negb (Ascii.eqb x "010")
  | Space => PyStr.isspace x
  | Digit => PyStr.isdigit x
  | Char c => Ascii.eqb c x
  | CharNoCase c => Ascii.eqb (PyStr.lower_char x) (PyStr.lower_char c)
  | Range lo hi => PyStr.in_range (PyStr.code lo) (PyStr.code hi) x
  | Nothing => false
  | Union a b => in_class a x || in_class b x
  | Not a => negb (in_class a x)
  end.

Inductive item :=
| Atom (k : cls) (q : quant)
| GroupOpen
| GroupClose.

Definition regex := list item.

(** *** Parsing a pattern string *)

Definition hex_val (c : ascii) : option N :=
  if PyStr.in_range 48 57 c then Some (PyStr.code c - 48)%N
  else if PyStr.in_range 65 70 c then Some (PyStr.code c - 55)%N
  else if PyStr.in_range 97 102 c then Some (PyStr.code c - 87)%N
  else None.

Definition is_alnum (c : ascii) : bool :=
  PyStr.in_range 48 57 c || PyStr.in_range 65 90 c || PyStr.in_range 97 122 c.

(** A literal character, under [re.IGNORECASE] or not. *)
Definition lit (ic : bool) (c : ascii) : cls :=
  if ic then CharNoCase c else Char c.

(** An escape sequence, the backslash already consumed: the class it
    denotes, the character when it denotes exactly one, and the rest. *)
Definition parse_escape (ic : bool) (s : string)
  : option (cls * option ascii * string) :=
  match s with
  | String "s" r => Some (Space, None, r)
  | String "S" r => Some (Not Space, None, r)
  | String "d" r => Some (Digit, None, r)
  | String "D" r => Some (Not Digit, None, r)
  | String "x" (String h1 (String h2 r)) =>
      match hex_val h1, hex_val h2 with
      | Some a, Some b =>
          let c := ascii_of_N (16 * a + b) in Some (lit ic c, Some c, r)
      | _, _ => None
      end
  | String c r => if is_alnum c then None else Some (lit ic c, Some c, r)
  | EmptyString => None
  end%char.

(** The inside of a bracket class, after the opening bracket.  A range
    is read only when case is not ignored. *)
Fixpoint parse_set (fuel : nat) (ic : bool) (s : string)
  : option (cls * string) :=
  match fuel with
  | O => None
  | S fuel' =>
      let more (p : cls) (r : string) :=
        match parse_set fuel' ic r with
        | Some (q, r') => Some (Union p q, r')
        | None => None
        end in
      match s with
      | EmptyString => None
      | String "]" r => Some (Nothing, r)
      | String c r =>
          let one :=
            if Ascii.eqb c "\" then parse_escape ic r
            else Some (lit ic c, Some c, r) in
          match one with
          | None => None
          | Some (p, lo, r1) =>
              match lo, r1 with
              | Some a, String "-" (String d r2) =>
                  if Ascii.eqb d "]" then more p r1
                  else if ic then None
                  else
                    let hi :=
                      if Ascii.eqb d "\" then parse_escape ic r2
                      else Some (lit ic d, Some d, r2) in
                    match hi with
                    | Some (_, Some b, r3) =>
                        more (Range a b) r3
                    | _ => None
                    end
              | _, _ => more p r1
              end
          end
      end
  end%char.

Definition parse_atom (ic dotall : bool) (s : string)
  : option (cls * string) :=
  match s with
  | EmptyString => None
  | String "\" r =>
      match parse_escape ic r with
      | Some (p, _, r') => Some (p, r')
      | None => None
      end
  | String "[" (String "^" r) =>
      match parse_set (String.length r) ic r with
      | Some (p, r') => Some (Not p, r')
      | None => None
      end
  | String "[" r => parse_set (String.length r) ic r
  | String "." r =>
      Some (if dotall then Any else NotNewline, r)
  | String c r =>
      if existsb (Ascii.eqb c) ["*"; "+"; "?"; "{"; "}"; "|"; "^"; "$"; "("; ")"]
      then None
      else Some (lit ic c, r)
  end%char.

Definition parse_quant (s : string) : quant * string :=
  match s with
  | String "*" (String "?" r) => (StarLazy, r)
  | String "+" (String "?" r) => (PlusLazy, r)
  | String "?" (String "?" r) => (OptLazy, r)
  | String "*" r => (Star, r)
  | String "+" r => (Plus, r)
  | String "?" r => (Opt, r)
  | _ => (One, s)
  end%char.

Fixpoint parse_items (fuel : nat) (ic dotall in_group : bool) (s : string)
  : option regex :=
  match fuel with
  | O => None
  | S fuel' =>
      match s with
      | EmptyString => if in_group then None else Some []
      | String "(" r =>
          match in_group, r with
          | true, _ => None
          | false, String "?" _ => None
          | false, _ => cons GroupOpen <$> parse_items fuel' ic dotall true r
          end
      | String ")" r =>
          if in_group
          then cons GroupClose <$> parse_items fuel' ic dotall false r
          else None
      | _ =>
          match parse_atom ic dotall s with
          | None => None
          | Some (p, r) =>
              let '(q, r') := parse_quant r in
              cons (Atom p q) <$> parse_items fuel' ic dotall in_group r'
          end
      end
  end%char.

(** [re.compile(pattern, flags)] with the flags [re.IGNORECASE] and
    [re.DOTALL]; [None] where [re] would reject the pattern or the
    pattern leaves the fragment. *)
Definition parse (ic dotall : bool) (pattern : string) : option regex :=
  parse_items (S (String.length pattern)) ic dotall false pattern.

(** *** Matching *)

Record mstate := { cur : option string; groups : list string }.

Definition consume (c : ascii) (st : mstate) : mstate :=
  match cur st with
  | Some acc => {| cur := Some (String c acc); groups := groups st |}
  | None => st
  end.

Definition open_group (st : mstate) : mstate :=
  {| cur := Some EmptyString; groups := groups st |}.

Definition close_group (st : mstate) : mstate :=
  match cur st with
  | Some acc => {| cur := None; groups := groups st ++ [PyStr.rev acc] |}
  | None => st
  end.

(** A matcher consumes a prefix of the subject and returns the captured
    groups with the unconsumed rest. *)
Definition matcher := string -> mstate -> option (list string * string).

Definition orelse {A} (x y : option A) : option A :=
  match x with Some _ => x | None => y end.

Definition one (p : ascii -> bool) (k : matcher) : matcher :=
  fun s st =>
    match s with
    | String c s' => if p c then k s' (consume c st) else None
    | EmptyString => None
    end.

Fixpoint star (p : ascii -> bool) (k : matcher) (s : string) (st : mstate)
  : option (list string * string) :=
  match s with
  | String c s' =>
      if p c then orelse (star p k s' (consume c st)) (k s st) else k s st
  | EmptyString => k s st
  end.

Fixpoint star_lazy (p : ascii -> bool) (k : matcher) (s : string) (st : mstate)
  : option (list string * string) :=
  orelse (k s st)
    match s with
    | String c s' => if p c then star_lazy p k s' (consume c st) else None
    | EmptyString => None
    end.

Fixpoint compile (r : regex) : matcher :=
  match r with
  | [] => fun s st => Some (groups st, s)
  | GroupOpen :: r' => fun s st => compile r' s (open_group st)
  | GroupClose :: r' => fun s st => compile r' s (close_group st)
  | Atom k One :: r' => one (in_class k) (compile r')
  | Atom k Opt :: r' =>
      fun s st => orelse (one (in_class k) (compile r') s st) (compile r' s st)
  | Atom k OptLazy :: r' =>
      fun s st => orelse (compile r' s st) (one (in_class k) (compile r') s st)
  | Atom k Star :: r' => star (in_class k) (compile r')
  | Atom k StarLazy :: r' => star_lazy (in_class k) (compile r')
  | Atom k Plus :: r' => one (in_class k) (star (in_class k) (compile r'))
  | Atom k PlusLazy :: r' => one (in_class k) (star_lazy (in_class k) (compile r'))
  end.

Definition match_here (r : regex) (s : string) : option (list string * string) :=
  compile r s {| cur := None; groups := [] |}.

(** [re.search]: the match at the leftmost position that has one.  The
    result is the list of captured groups, [group(1)] first. *)
Fixpoint search (r : regex) (s : string) : option (list string) :=
  match match_here r s with
  | Some (gs, _) => Some gs
  | None =>
      match s with
      | EmptyString => None
      | String _ s' => search r s'
      end
  end.

(** [match.group(1)] *)
Definition group1 (gs : list string) : string :=
  match gs with g :: _ => g | [] => EmptyString end.

(** [re.sub(r, '', s)]: every non-overlapping match, leftmost first, is
    deleted; an empty match deletes nothing and the scan moves on. *)
Fixpoint sub_delete (fuel : nat) (r : regex) (s : string) : string :=
  match fuel with
  | O => s
  | S fuel' =>
      match s with
      | EmptyString => EmptyString
      | String c s' =>
          match match_here r s with
          | Some (_, rest) =>
              if (String.length rest <? String.length s)%nat
              then sub_delete fuel' r rest
              else String c (sub_delete fuel' r s')
          | None => String c (sub_delete fuel' r s')
          end
      end
  end.

(** [re.search(pattern, s, flags)] and [re.sub(pattern, '', s)] on pattern
    strings. *)
Definition re_search (ic dotall : bool) (pattern s : string) : option (list string) :=
  match parse ic dotall pattern with
  | Some r => search r s
  | None => None
  end.

Definition re_sub_delete (pattern s : string) : string :=
  match parse false false pattern with
  | Some r => sub_delete (S (String.length s)) r s
  | None => s
  end.

End Regex.

(** ** Python floats: IEEE-754 binary64 *)

Module PyFloat.

Definition prec : Z := 53.
Definition emax : Z := 1024.

Definition float := spec_float.

Definition add : float -> float -> float := SFadd prec emax.
Definition sub : float -> float -> float := SFsub prec emax.
Definition div : float -> float -> float := SFdiv prec emax.
Definition ltb : float -> float -> bool := SFltb.
Definition eqb : float -> float -> bool := SFeqb.

(** The integer [z] rounded to the nearest float. *)
Definition of_Z (z : Z) : float := binary_normalize prec emax z 0 false.

(** [float(z)] for a Python [int]: [OverflowError] beyond the range. *)
Definition of_int (z : Z) : option float :=
  match of_Z z with
  | S754_infinity _ => None
  | f => Some f
  end.

(** The non-negative rational [n / d], correctly rounded, with sign [s]. *)
Definition of_ratio (s : bool) (n d : Z) : float :=
  match n, d with
  | Zpos pn, Zpos pd => div (S754_finite s pn 0) (S754_finite false pd 0)
  | _, _ => S754_zero s
  end.

(** [m * 10^x], correctly rounded: the value of a decimal literal.  Beyond
    the bounds the result is already decided (infinity above, zero below). *)
Definition of_decimal (s : bool) (m x : Z) : float :=
  if m =? 0 then S754_zero s
  else if 310 <? x then S754_infinity s
  else if x + Z.log2 m <? -1100 then S754_zero s
  else if 0 <=? x then of_ratio s (m * 10 ^ x) 1
  else of_ratio s m (10 ^ (- x)).

(** [int(f)]: truncation towards zero; [None] stands for the
    [OverflowError] on an infinity and the [ValueError] on a NaN. *)
Definition to_int (f : float) : option Z :=
  match f with
  | S754_zero _ => Some 0
  | S754_finite s m e => Some (cond_Zopp s (Z.shiftl (Zpos m) e))
  | S754_infinity _ | S754_nan => None
  end.

Definition zero : float := S754_zero false.
Definition quarter : float := Eval vm_compute in of_ratio false 1 4.
Definition half : float := Eval vm_compute in of_ratio false 1 2.
Definition three_quarters : float := Eval vm_compute in of_ratio false 3 4.
Definition one : float := Eval vm_compute in of_Z 1.

(** *** [float(s)] on a string *)

Definition digit_val (c : ascii) : Z := Z.of_N (PyStr.code c) - 48.

(** A run of digits in which single underscores may separate digits:
    the accumulated value, the number of digits read, the rest. *)
Fixpoint read_digits (s : string) (acc n : Z) : Z * Z * string :=
  match s with
  | String c s' =>
      if PyStr.isdigit c then read_digits s' (10 * acc + digit_val c) (n + 1)
      else if Ascii.eqb c "_" && (0 <? n) then
        match s' with
        | String c' _ =>
            if PyStr.isdigit c' then read_digits s' acc n else (acc, n, s)
        | EmptyString => (acc, n, s)
        end
      else (acc, n, s)
  | EmptyString => (acc, n, s)
  end.

Definition read_sign (s : string) : bool * string :=
  match s with
  | String "-" r => (true, r)
  | String "+" r => (false, r)
  | _ => (false, s)
  end%char.

Definition read_exponent (s : string) : option (Z * string) :=
  match s with
  | String c r =>
      if Ascii.eqb (PyStr.lower_char c) "e" then
        let '(neg, r1) := read_sign r in
        let '(v, n, r2) := read_digits r1 0 0 in
        if 0 <? n then Some (cond_Zopp neg v, r2) else None
      else Some (0, s)
  | EmptyString => Some (0, s)
  end.

Definition is_empty (s : string) : bool :=
  match s with EmptyString => true | _ => false end.

Definition str_eqb (a b : string) : bool := String.eqb a b.

(** [float(s)]; [None] stands for the [ValueError]. *)
Definition of_string (s : string) : option float :=
  let '(neg, body) := read_sign (PyStr.float_strip s) in
  let low := PyStr.lower body in
  if str_eqb low "inf" || str_eqb low "infinity" then Some (S754_infinity neg)
  else if str_eqb low "nan" then Some S754_nan
  else
    let '(ip, ni, r1) := read_digits body 0 0 in
    let '(m, nf, r2) :=
      match r1 with
      | String "." r =>
          let '(v, n, r') := read_digits r ip 0 in (v, n, r')
      | _ => (ip, 0, r1)
      end%char in
    if (ni + nf =? 0) then None
    else
      match read_exponent r2 with
      | Some (e, r3) =>
          if is_empty r3 then Some (of_decimal neg m (e - nf)) else None
      | None => None
      end.

(** *** [repr(f)]: the shortest decimal string that reads back as [f] *)

(** The exact value of a positive finite float as a fraction. *)
Definition fraction (m : positive) (e : Z) : Z * Z :=
  if 0 <=? e then (Zpos m * 2 ^ e, 1) else (Zpos m, 2 ^ (- e)).

(** [10^t <= n / d] *)
Definition ge_pow10 (n d t : Z) : bool :=
  if 0 <=? t then d * 10 ^ t <=? n else d <=? n * 10 ^ (- t).

Fixpoint find_exp (fuel : nat) (n d t : Z) : Z :=
  match fuel with
  | O => t
  | S fuel' => if ge_pow10 n d (t + 1) then find_exp fuel' n d (t + 1) else t
  end.

(** The [t] with [10^t <= n / d < 10^(t+1)]. *)
Definition dec_exponent (n d : Z) : Z :=
  find_exp 16 n d ((Z.log2 n - Z.log2 d - 1) * 30103 / 100000 - 2).

(** The two decimals [c * 10^k] of [nd] digits around [n / d], the one
    nearer to it first. *)
Definition candidates (n d t nd : Z) : list (Z * Z) :=
  let k := t - nd + 1 in
  let '(num, den) := if 0 <=? k then (n, d * 10 ^ k) else (n * 10 ^ (- k), d) in
  let lo := num / den in
  let r := num mod den in
  let down := (lo, k) in
  let up := (lo + 1, k) in
  match 2 * r ?= den with
  | Lt => [down; up]
  | Gt => [up; down]
  | Eq => if Z.even lo then [down; up] else [up; down]
  end.

Definition reads_back (f : float) (ck : Z * Z) : bool :=
  eqb (of_decimal false (fst ck) (snd ck)) f.

Fixpoint shortest (fuel : nat) (f : float) (n d t nd : Z) : Z * Z :=
  match fuel with
  | O => (0, 0)
  | S fuel' =>
      match List.filter (reads_back f) (candidates n d t nd) with
      | ck :: _ => ck
      | [] => shortest fuel' f n d t (nd + 1)
      end
  end.

Fixpoint strip_zeros (fuel : nat) (c k : Z) : Z * Z :=
  match fuel with
  | O => (c, k)
  | S fuel' =>
      if (c mod 10 =? 0) && negb (c =? 0) then strip_zeros fuel' (c / 10) (k + 1)
      else (c, k)
  end.

Fixpoint zeros (n : nat) : string :=
  match n with O => EmptyString | S n' => String "0" (zeros n') end.

Definition pad2 (s : string) : string :=
  match s with
  | String c EmptyString => String "0" s
  | _ => s
  end.

(** The digits and the position of the decimal point, laid out as
    [float.__repr__] does. *)
Definition layout (ds : string) (decpt : Z) : string :=
  let nd := Z.of_nat (String.length ds) in
  if (decpt <=? -4) || (16 <? decpt) then
    let mant :=
      match ds with
      | String c EmptyString => ds
      | String c r => String c (String "." r)
      | EmptyString => ds
      end in
    let ex := decpt - 1 in
    mant +:+ "e" +:+ (if ex <? 0 then "-" else "+")
         +:+ pad2 (PyStr.str_nonneg (Z.abs ex))
  else if decpt <=? 0 then
    "0." +:+ zeros (Z.to_nat (- decpt)) +:+ ds
  else if nd <=? decpt then
    ds +:+ zeros (Z.to_nat (decpt - nd)) +:+ ".0"
  else
    String.substring 0 (Z.to_nat decpt) ds +:+ "." +:+
    String.substring (Z.to_nat decpt) (Z.to_nat (nd - decpt)) ds.

Definition repr (f : float) : string :=
  match f with
  | S754_nan => "nan"
  | S754_infinity s => if s then "-inf" else "inf"
  | S754_zero s => if s then "-0.0" else "0.0"
  | S754_finite s m e =>
      let '(n, d) := fraction m e in
      let t := dec_exponent n d in
      let '(c0, k0) := shortest 17 (S754_finite false m e) n d t 1 in
      let '(c, k) := strip_zeros 20 c0 k0 in
      let ds := PyStr.str_nonneg c in
      (if s then "-" else EmptyString)
        +:+ layout ds (Z.of_nat (String.length ds) + k)
  end.

End PyFloat.

(** ** Python values

    The values the interpreter handles: what [json.loads] returns, and the
    strings captured by the regular expressions. *)

Inductive pyval :=
| VNone
| VBool (b : bool)
| VInt (z : Z)
| VFloat (f : PyFloat.float)
| VStr (s : string)
| VList (l : list pyval)
| VDict (kvs : list (string * pyval)).

Module PyVal.

(** [str.isprintable] on one character. *)
Definition isprintable (c : ascii) : bool :=
  PyStr.in_range 32 126 c
  || (PyStr.in_range 161 255 c && negb (PyStr.code c =? 173)%N).

Definition hex_digit (n : N) : ascii :=
  if (n <? 10)%N then ascii_of_N (48 + n) else ascii_of_N (87 + n).

Definition has_char (c : ascii) (s : string) : bool :=
  PyStr.contains (String c EmptyString) s.

Fixpoint escape (q : ascii) (s : string) : string :=
  match s with
  | EmptyString => EmptyString
  | String c s' =>
      let rest := escape q s' in
      if Ascii.eqb c "\" || Ascii.eqb c q then String "\" (String c rest)
      else if Ascii.eqb c "009" then String "\" (String "t" rest)
      else if Ascii.eqb c "010" then String "\" (String "n" rest)
      else if Ascii.eqb c "013" then String "\" (String "r" rest)
      else if isprintable c then String c rest
      else String "\" (String "x"
             (String (hex_digit (PyStr.code c / 16))
                (String (hex_digit (PyStr.code c mod 16)) rest)))
  end%char.

(** [repr(s)] for a string: single quotes unless only those occur in it. *)
Definition repr_str (s : string) : string :=
  let q := if has_char "'" s && negb (has_char "034" s) then "034"%char else "'"%char in
  String q (escape q s +:+ String q EmptyString).

(** [repr(v)] *)
Fixpoint repr (v : pyval) : string :=
  match v with
  | VNone => "None"
  | VBool b => if b then "True" else "False"
  | VInt z => PyStr.str_int z
  | VFloat f => PyFloat.repr f
  | VStr s => repr_str s
  | VList l =>
      "[" +:+
      (fix items (l : list pyval) : string :=
         match l with
         | [] => EmptyString
         | [x] => repr x
         | x :: l' => repr x +:+ ", " +:+ items l'
         end) l +:+ "]"
  | VDict kvs =>
      "{" +:+
      (fix items (l : list (string * pyval)) : string :=
         match l with
         | [] => EmptyString
         | [(k, x)] => repr_str k +:+ ": " +:+ repr x
         | (k, x) :: l' => repr_str k +:+ ": " +:+ repr x +:+ ", " +:+ items l'
         end) kvs +:+ "}"
  end.

(** [str(v)] *)
Definition str (v : pyval) : string :=
  match v with
  | VStr s => s
  | _ => repr v
  end.

(** [float(v)]; [None] stands for the [ValueError], [TypeError] or
    [OverflowError]. *)
Definition to_float (v : pyval) : option PyFloat.float :=
  match v with
  | VStr s => PyFloat.of_string s
  | VInt z => PyFloat.of_int z
  | VFloat f => Some f
  | VBool b => Some (if b then PyFloat.one else PyFloat.zero)
  | VNone | VList _ | VDict _ => None
  end.

(** [d.get(key, default)] on the items of a dictionary. *)
Fixpoint dict_get (kvs : list (string * pyval)) (key : string) (default : pyval)
  : pyval :=
  match kvs with
  | [] => default
  | (k, v) :: kvs' => if String.eqb k key then v else dict_get kvs' key default
  end.

End PyVal.

(** ** The response interpreter *)

Inductive pyexn := AttributeError.

Inductive outcome (A : Type) :=
| Returns (a : A)
| Raises (e : pyexn).
Arguments Returns {A} a.
Arguments Raises {A} e.

(** The dictionary [data] of [process_response]. *)
Record report := {
  errors : pyval;
  annotatedEssay : pyval;
  revisedScore : pyval;
  originalScore : gmap string string
}.

(** The sentinel of an unavailable score. *)
Definition dash : string := "-".

(** [clean_json] *)
Definition clean_json (text : string) : option string :=
  match Regex.re_search false false "```json\s*([\s\S]*?)\s*```" text with
  | Some m =>
      let content := Regex.group1 m in
      let content := Regex.re_sub_delete "[\x00-\x1F\x7F-\x9F]" content in
      Some (PyStr.strip content)
  | None => None
  end.

(** The inner loop of [calculate_overall]: the scores [float] accepts. *)
Definition valid_scores (scores : list pyval) : list PyFloat.float :=
  omap PyVal.to_float scores.

(** [sum(fs)]: the floats added from the left, starting at 0.  (From
    version 3.12 on CPython compensates the rounding errors of the partial
    sums; the two agree whenever the partial sums are exact, as they are on
    scores of the band scale.) *)
Definition py_sum (fs : list PyFloat.float) : PyFloat.float :=
  fold_left PyFloat.add fs PyFloat.zero.

(** [calculate_overall]; every exception of the body is caught and turned
    into the sentinel. *)
Definition calculate_overall (scores : list pyval) : string :=
  let valid := valid_scores scores in
  if (length valid <? 4)%nat then dash
  else
    let avg := PyFloat.div (py_sum valid) (PyFloat.of_Z (Z.of_nat (length valid))) in
    match PyFloat.to_int avg with
    | None => dash
    | Some whole =>
        match PyFloat.of_int whole with
        | None => dash
        | Some fwhole =>
            let decimal := PyFloat.sub avg fwhole in
            let final :=
              if PyFloat.ltb decimal PyFloat.quarter then VInt whole
              else if PyFloat.ltb decimal PyFloat.three_quarters
                   then VFloat (PyFloat.add fwhole PyFloat.half)
                   else VFloat (PyFloat.add fwhole PyFloat.one) in
            PyVal.str final
        end
    end.

(** The dictionary [patterns], in insertion order. *)
Definition patterns : list (string * string) :=
  [ ("task_achievement", "Task\s+Achievement\s*Score.*?(\d+\.?\d*)");
    ("cohesion_coherence", "Coherence\s*&\s*Cohesion\s*Score.*?(\d+\.?\d*)");
    ("lexical_resource", "Lexical\s+Resource\s*Score.*?(\d+\.?\d*)");
    ("grammatical_range", "Grammatical\s+Range.*?Score.*?(\d+\.?\d*)") ].

Definition initial_scores : gmap string string :=
  <["task_achievement" := dash]>
    (<["cohesion_coherence" := dash]>
       (<["lexical_resource" := dash]>
          (<["grammatical_range" := dash]>
             (<["overall" := dash]> ∅)))).

Definition initial_data : report :=
  {| errors := VList [];
     annotatedEssay := VNone;
     revisedScore := VNone;
     originalScore := initial_scores |}.

(** [if json_str:] *)
Definition truthy (json_str : option string) : bool :=
  match json_str with
  | Some s => negb (PyStr.falsy s)
  | None => false
  end.

Section Interpreter.

(** [json.loads]: the parsed value, or [None] for [JSONDecodeError]. *)
Variable json_loads : string -> option pyval.

(** Part A of [process_response]: the narrative and the three fields
    copied from the parsed record. *)
Definition parse_block (full_text : string) (json_str : option string)
  : outcome (string * report) :=
  match json_str with
  | Some js =>
      if PyStr.falsy js then Returns (full_text, initial_data)
      else
        let markdown_part := PyStr.strip (PyStr.split_head "```json" full_text) in
        match json_loads js with
        | Some (VDict kvs) =>
            Returns (markdown_part,
                     {| errors := PyVal.dict_get kvs "errors" (VList []);
                        annotatedEssay := PyVal.dict_get kvs "annotated_essay" VNone;
                        revisedScore := PyVal.dict_get kvs "revised_score" VNone;
                        originalScore := initial_scores |})
        | Some _ => Raises AttributeError
        | None => Returns (markdown_part, initial_data)
        end
  | None => Returns (full_text, initial_data)
  end.

(** The [try] block of the [else] branch of part B: the value found in
    the structured record, [None] when the block is skipped or raises. *)
Definition structured_score (json_str : option string) (key : string)
  : option pyval :=
  match json_str with
  | Some js =>
      if PyStr.falsy js then None
      else
        match json_loads js with
        | Some (VDict kvs) =>
            match PyVal.dict_get kvs "original_score" (VDict []) with
            | VDict sc => Some (PyVal.dict_get sc key (VStr dash))
            | _ => None
            end
        | _ => None
        end
  | None => None
  end.

(** One iteration of the loop of part B, on the pair of
    [data["originalScore"]] and [found_scores]. *)
Definition resolve (markdown_part : string) (json_str : option string)
    (st : gmap string string * list pyval) (kp : string * string)
  : gmap string string * list pyval :=
  let '(scores, found_scores) := st in
  let '(key, regex) := kp in
  match Regex.re_search true true regex markdown_part with
  | Some m =>
      let score := Regex.group1 m in
      (<[key := score]> scores, found_scores ++ [VStr score])
  | None =>
      match structured_score json_str key with
      | Some val =>
          (<[key := PyVal.str val]> scores,
           if String.eqb (PyVal.str val) dash then found_scores
           else found_scores ++ [val])
      | None => st
      end
  end.

(** [process_response] *)
Definition process_response (full_text : string) : outcome (string * report) :=
  let json_str := clean_json full_text in
  match parse_block full_text json_str with
  | Raises e => Raises e
  | Returns (markdown_part, data) =>
      let '(scores, found_scores) :=
        fold_left (resolve markdown_part json_str) patterns
                  (originalScore data, []) in
      let scores :=
        match found_scores with
        | [] => scores
        | _ => <["overall" := calculate_overall found_scores]> scores
        end in
      Returns (markdown_part,
               {| errors := errors data;
                  annotatedEssay := annotatedEssay data;
                  revisedScore := revisedScore data;
                  originalScore := scores |})
  end.

End Interpreter.

(** ** A reference JSON parser

    [json.loads] on the documents of the examples: objects, arrays,
    strings with the standard escapes, numbers, [true], [false], [null]
    and the three non-finite literals Python accepts.  A [\u] escape of a
    character beyond the modelled alphabet is outside the model and
    rejected. *)

Module Json.

Definition dq : ascii := "034"%char.

Definition is_ws (c : ascii) : bool :=
  existsb (Ascii.eqb c) [" "; "009"; "010"; "013"]%char.

Fixpoint skip_ws (s : string) : string :=
  match s with
  | String c s' => if is_ws c then skip_ws s' else s
  | EmptyString => s
  end.

Definition hex4 (a b c d : ascii) : option N :=
  match Regex.hex_val a, Regex.hex_val b, Regex.hex_val c, Regex.hex_val d with
  | Some x, Some y, Some z, Some w => Some (((x * 16 + y) * 16 + z) * 16 + w)%N
  | _, _, _, _ => None
  end.

(** [py_scanstring] in strict mode, after the opening quote. *)
Fixpoint scan_string (s : string) : option (string * string) :=
  match s with
  | EmptyString => None
  | String c r =>
      if Ascii.eqb c dq then Some (EmptyString, r)
      else if Ascii.eqb c "\" then
        match r with
        | String e r1 =>
            let simple (x : ascii) :=
              match scan_string r1 with
              | Some (t, r2) => Some (String x t, r2)
              | None => None
              end in
            if Ascii.eqb e dq then simple dq
            else if Ascii.eqb e "\" then simple "\"
            else if Ascii.eqb e "/" then simple "/"
            else if Ascii.eqb e "b" then simple "008"
            else if Ascii.eqb e "f" then simple "012"
            else if Ascii.eqb e "n" then simple "010"
            else if Ascii.eqb e "r" then simple "013"
            else if Ascii.eqb e "t" then simple "009"
            else if Ascii.eqb e "u" then
              match r1 with
              | String h1 (String h2 (String h3 (String h4 r2))) =>
                  match hex4 h1 h2 h3 h4 with
                  | Some n =>
                      if (n <? 256)%N then
                        match scan_string r2 with
                        | Some (t, r3) => Some (String (ascii_of_N n) t, r3)
                        | None => None
                        end
                      else None
                  | None => None
                  end
              | _ => None
              end
            else None
        | EmptyString => None
        end
      else if (PyStr.code c <? 32)%N then None
      else
        match scan_string r with
        | Some (t, r') => Some (String c t, r')
        | None => None
        end
  end%char.

Fixpoint plain_digits (s : string) (acc n : Z) : Z * Z * string :=
  match s with
  | String c s' =>
      if PyStr.isdigit c
      then plain_digits s' (10 * acc + PyFloat.digit_val c) (n + 1)
      else (acc, n, s)
  | EmptyString => (acc, n, s)
  end.

(** [NUMBER_RE]: an integer part without leading zeros, an optional
    fraction, an optional exponent; an [int] when only the first is
    present, a [float] otherwise. *)
Definition scan_number (s : string) : option (pyval * string) :=
  let '(neg, r0) :=
    match s with
    | String "-"%char r => (true, r)
    | _ => (false, s)
    end in
  let int_part :=
    match r0 with
    | String "0"%char r => Some (0, r)
    | _ => let '(v, n, r) := plain_digits r0 0 0 in
           if 0 <? n then Some (v, r) else None
    end in
  match int_part with
  | None => None
  | Some (ip, r1) =>
      let '(m, nf, r2) :=
        match r1 with
        | String "."%char r =>
            let '(v, n, r') := plain_digits r ip 0 in
            if 0 <? n then (v, n, r') else (ip, 0, r1)
        | _ => (ip, 0, r1)
        end in
      let '(ex, has_exp, r3) :=
        match r2 with
        | String c r =>
            if Ascii.eqb c "e"%char || Ascii.eqb c "E"%char then
              let '(eneg, ra) :=
                match r with
                | String "-"%char r' => (true, r')
                | String "+"%char r' => (false, r')
                | _ => (false, r)
                end in
              let '(v, n, rb) := plain_digits ra 0 0 in
              if 0 <? n then (cond_Zopp eneg v, true, rb) else (0, false, r2)
            else (0, false, r2)
        | EmptyString => (0, false, r2)
        end in
      if (0 <? nf) || has_exp
      then Some (VFloat (PyFloat.of_decimal neg m (ex - nf)), r3)
      else Some (VInt (cond_Zopp neg ip), r3)
  end.

(** The pairs of an object as [dict] keeps them: a repeated key keeps
    its first position and takes the last value. *)
Fixpoint dict_set (kvs : list (string * pyval)) (k : string) (v : pyval)
  : list (string * pyval) :=
  match kvs with
  | [] => [(k, v)]
  | (k', v') :: kvs' =>
      if String.eqb k' k then (k', v) :: kvs' else (k', v') :: dict_set kvs' k v
  end.

Definition literal (word : string) (v : pyval) (s : string)
  : option (pyval * string) :=
  if PyStr.startswith word s
  then Some (v, String.substring (String.length word)
                  (String.length s - String.length word) s)
  else None.

(** [scan_once] *)
Fixpoint value (fuel : nat) (s : string) : option (pyval * string) :=
  match fuel with
  | O => None
  | S fuel' =>
      match s with
      | EmptyString => None
      | String c r =>
          if Ascii.eqb c dq then
            match scan_string r with
            | Some (t, r') => Some (VStr t, r')
            | None => None
            end
          else if Ascii.eqb c "{" then
            match skip_ws r with
            | String "}" r' => Some (VDict [], r')
            | r' => members fuel' r' []
            end
          else if Ascii.eqb c "[" then
            match skip_ws r with
            | String "]" r' => Some (VList [], r')
            | r' => elements fuel' r' []
            end
          else if Ascii.eqb c "n" then literal "null" VNone s
          else if Ascii.eqb c "t" then literal "true" (VBool true) s
          else if Ascii.eqb c "f" then literal "false" (VBool false) s
          else if Ascii.eqb c "N" then literal "NaN" (VFloat S754_nan) s
          else if Ascii.eqb c "I"
               then literal "Infinity" (VFloat (S754_infinity false)) s
          else
            match scan_number s with
            | Some x => Some x
            | None => literal "-Infinity" (VFloat (S754_infinity true)) s
            end
      end
  end%char
with elements (fuel : nat) (s : string) (acc : list pyval)
  : option (pyval * string) :=
  match fuel with
  | O => None
  | S fuel' =>
      match value fuel' s with
      | Some (v, r) =>
          match skip_ws r with
          | String "]" r' => Some (VList (acc ++ [v]), r')
          | String "," r' => elements fuel' (skip_ws r') (acc ++ [v])
          | _ => None
          end
      | None => None
      end
  end%char
with members (fuel : nat) (s : string) (acc : list (string * pyval))
  : option (pyval * string) :=
  match fuel with
  | O => None
  | S fuel' =>
      match s with
      | String c r =>
          if Ascii.eqb c dq then
            match scan_string r with
            | Some (k, r1) =>
                match skip_ws r1 with
                | String ":" r2 =>
                    match value fuel' (skip_ws r2) with
                    | Some (v, r3) =>
                        match skip_ws r3 with
                        | String "}" r' => Some (VDict (dict_set acc k v), r')
                        | String "," r' =>
                            members fuel' (skip_ws r') (dict_set acc k v)
                        | _ => None
                        end
                    | None => None
                    end
                | _ => None
                end
            | None => None
            end
          else None
      | EmptyString => None
      end
  end%char.

(** [json.loads]: one value, surrounded by optional whitespace. *)
Definition loads (s : string) : option pyval :=
  match value (S (String.length s)) (skip_ws s) with
  | Some (v, r) =>
      match skip_ws r with
      | EmptyString => Some v
      | _ => None
      end
  | None => None
  end.

(** Example documents are written with single quotes standing for the
    double quotes of JSON. *)
Fixpoint quoted (s : string) : string :=
  match s with
  | EmptyString => EmptyString
  | String c s' => String (if Ascii.eqb c "'" then dq else c) (quoted s')
  end.

End Json.

(** ** The failover dispatcher *)

(** What the function does to the outside, in the order it does it. *)
Inductive event :=
| Configure (api_key : string)
| ListModels
| Toast (sel_model : string)
| DebugInfo (sel_model masked_key : string) (key_number : nat) (thinking : bool)
| GenerateContent (model_name : string) (n_parts : nat) (thinking_config : bool)
| ErrorBox (n_keys : nat) (last_error : string).

(** The state the function runs in: list objects live in a store and are
    named by their location, [ALL_KEYS] is the location the module-level
    variable is bound to, [tape] is the sequence of numbers the random
    generator will produce. *)
Abbreviation loc := nat (only parsing).

Record world := {
  heap : gmap loc (list string);
  ALL_KEYS : loc;
  tape : list nat;
  trace : list event
}.

(** An entry of [genai.list_models()]. *)
Record model_info := {
  name : string;
  supported_generation_methods : list string
}.

Definition model_priority : list string :=
  [ "gemini-3-flash-preview";
    "gemini-2.5-flash";
    "gemini-2.5-flash-lite";
    "gemini-2.0-flash";
    "gemini-1.5-pro";
    "gemini-1.5-flash" ].

(** [[m.name for m in models if 'generateContent' in
    m.supported_generation_methods]] *)
Definition generation_models (models : list model_info) : list string :=
  map name
    (List.filter
       (fun m => existsb (String.eqb "generateContent")
                   (supported_generation_methods m))
       models).

(** The search for the best model and its fallback. *)
Definition select_model (available_models : list string) : string :=
  match List.find (fun target => existsb (PyStr.contains target) available_models)
                  model_priority with
  | Some target => if PyStr.falsy target then "gemini-1.5-flash" else target
  | None => "gemini-1.5-flash"
  end.

(** The test of the [except] clause. *)
Definition retryable (last_error : string) : bool :=
  PyStr.contains "429" last_error
  || PyStr.contains "quota" (PyStr.lower last_error)
  || PyStr.contains "limit" (PyStr.lower last_error).

(** *** [random.shuffle] *)

Definition draw (tape : list nat) : nat * list nat :=
  match tape with
  | [] => (O, [])
  | r :: tape' => (r, tape')
  end.

(** [x[i], x[j] = x[j], x[i]] *)
Definition swap (i j : nat) (x : list string) : list string :=
  match x !! i, x !! j with
  | Some a, Some b => <[j := a]> (<[i := b]> x)
  | _, _ => x
  end.

(** The loop [for i in reversed(range(1, len(x)))] from index [i] down,
    drawing [j = randbelow(i + 1)]. *)
Fixpoint shuffle_from (i : nat) (tape : list nat) (x : list string)
  : list string * list nat :=
  match i with
  | O => (x, tape)
  | S i' =>
      let '(r, tape') := draw tape in
      shuffle_from i' tape' (swap i (r mod S i)%nat x)
  end.

Definition shuffle (tape : list nat) (x : list string) : list string * list nat :=
  shuffle_from (length x - 1) tape x.

(** [list(src)]: a new list object with the elements of the one at [src]. *)
Definition list_copy (src : loc) (w : world) : loc * world :=
  let fresh_loc := fresh (dom (heap w)) in
  (fresh_loc,
   {| heap := <[fresh_loc := default [] (heap w !! src)]> (heap w);
      ALL_KEYS := ALL_KEYS w; tape := tape w; trace := trace w |}).

(** [random.shuffle(x)]: the list object at [x] is permuted in place. *)
Definition random_shuffle (x : loc) (w : world) : world :=
  let '(l, tape') := shuffle (tape w) (default [] (heap w !! x)) in
  {| heap := <[x := l]> (heap w);
     ALL_KEYS := ALL_KEYS w; tape := tape'; trace := trace w |}.

Definition emit (evs : list event) (w : world) : world :=
  {| heap := heap w; ALL_KEYS := ALL_KEYS w; tape := tape w;
     trace := trace w ++ evs |}.

Section Dispatcher.

Context {Response Image : Type}.

(** The remote service, as seen at the [index]-th attempt with the
    credential [api_key]: each call either raises an exception, given by
    the text [str(e)], or returns. *)
Variable list_models : nat -> string -> string + list model_info.
Variable generate_content :
  nat -> string -> string -> string -> option Image -> bool -> string + Response.

Variable prompt : string.
Variable image : option Image.

(** The body of the [try] block: the events it produces, and either the
    text of the exception caught or the pair returned. *)
Definition attempt (index : nat) (current_key : string)
  : list event * (string + Response * string) :=
  let ev0 := [Configure current_key; ListModels] in
  match list_models index current_key with
  | inl e => (ev0, inl e)
  | inr models =>
      let available_models := generation_models models in
      let sel_model := select_model available_models in
      let masked_key := "****" +:+ PyStr.last_chars 4 current_key in
      let thinking := PyStr.contains "thinking" (PyStr.lower sel_model) in
      let n_parts := match image with Some _ => 2%nat | None => 1%nat end in
      let ev1 :=
        ev0 ++ [Toast sel_model;
                DebugInfo sel_model masked_key (index + 1) thinking;
                GenerateContent sel_model n_parts thinking] in
      match generate_content index current_key sel_model prompt image thinking with
      | inl e => (ev1, inl e)
      | inr response => (ev1, inr (response, sel_model))
      end
  end.

(** The [for] loop over [enumerate(keys_to_try)], from position [index]. *)
Fixpoint failover_loop (index : nat) (keys : list string) (last_error : string)
  : list event * (string + Response * string) :=
  match keys with
  | [] => ([], inl last_error)
  | current_key :: rest =>
      let '(evs, r) := attempt index current_key in
      match r with
      | inr ok => (evs, inr ok)
      | inl e =>
          if retryable e then
            let '(evs', r') := failover_loop (S index) rest e in
            (evs ++ evs', r')
          else (evs, inl e)
      end
  end.

(** [generate_content_with_failover] *)
Definition generate_content_with_failover (w : world)
  : (option Response * option string) * world :=
  let '(keys_to_try, w1) := list_copy (ALL_KEYS w) w in
  let w2 := random_shuffle keys_to_try w1 in
  let keys := default [] (heap w2 !! keys_to_try) in
  match failover_loop 0 keys EmptyString with
  | (evs, inr (response, sel_model)) =>
      ((Some response, Some sel_model), emit evs w2)
  | (evs, inl last_error) =>
      ((None, None), emit (evs ++ [ErrorBox (length keys) last_error]) w2)
  end.

End Dispatcher.


(** ** Vocabulary of the properties *)

(** The credentials a run has tried, in order: one per [genai.configure]. *)
Definition attempted (tr : list event) : list string :=
  omap (fun ev => match ev with Configure k => Some k | _ => None end) tr.

(** The counts cited by the failure messages of a run. *)
Definition error_counts (tr : list event) : list nat :=
  omap (fun ev => match ev with ErrorBox n _ => Some n | _ => None end) tr.

(** The count the failure message of a run cites, when there is one. *)
Definition reported_count (tr : list event) : option nat :=
  last (error_counts tr).

(** What a run has added to the trace. *)
Definition events_since (w w' : world) : list event :=
  drop (length (trace w)) (trace w').

(** The order in which a run started in [w] goes through the credentials:
    the shuffled copy of the configured list. *)
Definition traversal (w : world) : list string :=
  (shuffle (tape w) (default [] (heap w !! ALL_KEYS w))).1.

(** [word] occurs in [s]; [word] occurs in [s] up to the case of letters. *)
Definition occurs (word s : string) : Prop :=
  exists pre post, s = pre +:+ word +:+ post.

Definition occurs_nocase (word s : string) : Prop :=
  exists pre mid post, s = pre +:+ mid +:+ post /\ PyStr.lower mid = word.

(** The text is a quota-style error. *)
Definition quota_style (e : string) : Prop :=
  occurs "429" e \/ occurs_nocase "quota" e \/ occurs_nocase "limit" e.

(** The priority entry [target] is a substring of an identifier reported
    usable for the credential. *)
Definition usable (available_models : list string) (target : string) : Prop :=
  exists m_name, In m_name available_models /\ occurs target m_name.

(** An attempt that fails with a quota-style error, for an attempt function
    giving the events and the result at a position. *)
Definition fails_retryable {R : Type}
    (attempt : nat -> string -> list event * (string + R))
    (index : nat) (key : string) : Prop :=
  exists e, (attempt index key).2 = inl e /\ retryable e = true.

(** The world after the copy of the configured list and its shuffle. *)
Definition shuffled_world (w : world) (keys : list string) : world :=
  let x := fresh (dom (heap w)) in
  {| heap := <[x := traversal w]> (<[x := keys]> (heap w));
     ALL_KEYS := ALL_KEYS w;
     tape := (shuffle (tape w) keys).2;
     trace := trace w |}.

(** ** Example runs of the dispatcher *)

Module Demo.

(** Three configured keys; the tape makes the shuffle visit them in the
    order third, first, second. *)
Definition keys : list string := ["key-aaaa1"; "key-bbbb2"; "key-cccc3"].

Definition w : world :=
  {| heap := {[ 7%nat := keys ]};
     ALL_KEYS := 7%nat;
     tape := [1; 0]%nat;
     trace := [] |}.

(** Every key sees one generation model and one embedding model. *)
Definition models (index : nat) (api_key : string) : string + list model_info :=
  inr [ {| name := "models/embedding-001";
           supported_generation_methods := ["embedContent"] |};
        {| name := "models/gemini-2.5-flash";
           supported_generation_methods := ["generateContent"; "countTokens"] |} ].

Definition quota_text : string :=
  "429 You exceeded your current quota, please check your plan.".

Definition fatal_text : string := "500 Internal error encountered.".

(** Every generation call runs out of quota. *)
Definition all_quota (index : nat) (api_key sel_model prompt : string)
    (image : option unit) (thinking : bool) : string + string :=
  inl quota_text.

(** The second attempt is answered, the others run out of quota. *)
Definition second_answers (index : nat) (api_key sel_model prompt : string)
    (image : option unit) (thinking : bool) : string + string :=
  if (index =? 1)%nat then inr "the report" else inl quota_text.

(** The first attempt meets a server error. *)
Definition first_breaks (index : nat) (api_key sel_model prompt : string)
    (image : option unit) (thinking : bool) : string + string :=
  if (index =? 0)%nat then inl fatal_text else inr "the report".

End Demo.

(** ** The band rule

    Scores on the band scale are the half points from 0 to 9; [band k] is
    the float of [k] half points.  [band_rule] is the rounding the overall
    score is specified by, on the exact average. *)

Definition band (k : nat) : PyFloat.float :=
  PyFloat.of_ratio false (Z.of_nat k) 2.

Definition on_band_scale (k : nat) : Prop := (k <= 18)%nat.

(** The exact average of four scores given in half points. *)
Definition average4 (k1 k2 k3 k4 : nat) : Q :=
  (Z.of_nat (k1 + k2 + k3 + k4) # 2) / 4.

Definition band_rule (avg : Q) : string :=
  let whole := Qfloor avg in
  let fractional := (avg - inject_Z whole)%Q in
  if Qlt_le_dec fractional (1 # 4) then PyStr.str_int whole
  else if Qlt_le_dec fractional (3 # 4) then PyStr.str_int whole +:+ ".5"
  else PyStr.str_int (whole + 1) +:+ ".0".


(** Structural equality of floats. *)
Definition same_float (x y : PyFloat.float) : bool :=
  match x, y with
  | S754_zero s, S754_zero s' => Bool.eqb s s'
  | S754_infinity s, S754_infinity s' => Bool.eqb s s'
  | S754_nan, S754_nan => true
  | S754_finite s m e, S754_finite s' m' e' =>
      Bool.eqb s s' && Pos.eqb m m' && Z.eqb e e'
  | _, _ => false
  end.

(** The part of [calculate_overall] after the count test, as a function of
    the sum and the number of the valid scores. *)
Definition round_average (total : PyFloat.float) (count : nat) : string :=
  let avg := PyFloat.div total (PyFloat.of_Z (Z.of_nat count)) in
  match PyFloat.to_int avg with
  | None => dash
  | Some whole =>
      match PyFloat.of_int whole with
      | None => dash
      | Some fwhole =>
          let decimal := PyFloat.sub avg fwhole in
          let final :=
            if PyFloat.ltb decimal PyFloat.quarter then VInt whole
            else if PyFloat.ltb decimal PyFloat.three_quarters
                 then VFloat (PyFloat.add fwhole PyFloat.half)
                 else VFloat (PyFloat.add fwhole PyFloat.one) in
          PyVal.str final
      end
  end.

(** ** Vocabulary of the interpreter's properties *)

Section Layers.

Variable json_loads : string -> option pyval.

(** The narrative of a text: the text itself, or what precedes the opening
    marker when [clean_json] finds a non-empty block. *)
Definition narrative (full_text : string) : string :=
  if truthy (clean_json full_text)
  then PyStr.strip (PyStr.split_head "```json" full_text)
  else full_text.

(** The sub-score of one criterion by the two layers: the text recorded
    for it, and what it contributes to the scores the overall is computed
    from. *)
Definition score_text (markdown_part : string) (json_str : option string)
    (kp : string * string) : string :=
  match Regex.re_search true true kp.2 markdown_part with
  | Some m => Regex.group1 m
  | None =>
      match structured_score json_loads json_str kp.1 with
      | Some val => PyVal.str val
      | None => dash
      end
  end.

Definition score_found (markdown_part : string) (json_str : option string)
    (kp : string * string) : list pyval :=
  match Regex.re_search true true kp.2 markdown_part with
  | Some m => [VStr (Regex.group1 m)]
  | None =>
      match structured_score json_loads json_str kp.1 with
      | Some val => if String.eqb (PyVal.str val) dash then [] else [val]
      | None => []
      end
  end.

End Layers.

(** A parsed record in which the overall figure stated inside
    [original_score] is [v]. *)
Definition with_overall (v : pyval) (score : pyval) : pyval :=
  match score with
  | VDict sc => VDict (Json.dict_set sc "overall" v)
  | _ => score
  end.

Definition set_stated_overall (v : pyval) (parsed : pyval) : pyval :=
  match parsed with
  | VDict kvs =>
      VDict (map (fun kx : string * pyval =>
                    if String.eqb kx.1 "original_score"
                    then (kx.1, with_overall v kx.2)
                    else kx) kvs)
  | _ => parsed
  end.

(** Reading the result of [process_response]. *)
Definition score_of (key : string) (r : outcome (string * report)) : option string :=
  match r with
  | Returns (_, data) => originalScore data !! key
  | Raises _ => None
  end.

(** ** Example responses *)

Module Sample.

Definition nl : string := String "010"%char EmptyString.

(** A response made of the narrative [intro] and a block that states the
    four sub-scores [ta], [cc], [lr], [gra] and an overall of its own. *)
Definition report_after (intro ta cc lr gra : string) : string :=
  intro +:+ nl +:+ nl +:+
  "```json" +:+ nl +:+
  Json.quoted
    ("{'original_score': {'task_achievement': " +:+ ta +:+
     ", 'cohesion_coherence': " +:+ cc +:+
     ", 'lexical_resource': " +:+ lr +:+
     ", 'grammatical_range': " +:+ gra +:+
     ", 'overall': 9.0}, 'errors': [{'category': 'Grammar', 'type': 'Article'}]" +:+
     ", 'annotated_essay': 'The chart <del>show</del> shows', " +:+
     "'revised_score': {'task_achievement': 7.0}}") +:+ nl +:+
  "```" +:+ nl.

(** The same with a narrative that has no labeled Score line. *)
Definition report (ta cc lr gra : string) : string :=
  report_after
    ("## Examiner report" +:+ nl +:+
     "The overview is clear but the data are not compared.")
    ta cc lr gra.

(** The same with a narrative that gives the first sub-score itself. *)
Definition report_with_line (ta cc lr gra : string) : string :=
  report_after "**Task Achievement Score:** 5.5" ta cc lr gra.

(** A response with no block: one labeled Score line, in capitals. *)
Definition labeled_line : string := "TASK ACHIEVEMENT score: **7**".

(** A response with no block and no labeled line. *)
Definition plain : string := "The essay is too short to be graded.".

(** A response in which the narrative gives the first sub-score, the block
    gives the first two, states a third that is not a number and omits the
    fourth. *)
Definition mixed : string :=
  "### Task   achievement SCORE (strict): 6.5 out of 9" +:+ nl +:+
  "```json" +:+ nl +:+
  Json.quoted
    ("{'original_score': {'task_achievement': 5.0, 'cohesion_coherence': 7, " +:+
     "'lexical_resource': 'n/a', 'overall': 8.5}}") +:+ nl +:+
  "```".

End Sample.

(** ** The pattern of the fenced block *)

Definition fence_pattern : string := "```json\s*([\s\S]*?)\s*```".

(** The pattern after its seven literal characters. *)
Definition fence_tail : Regex.regex :=
  match Regex.parse false false fence_pattern with
  | Some r => drop 7 r
  | None => []
  end.

Definition literal_items (s : string) : Regex.regex :=
  map (fun c => Regex.Atom (Regex.Char c) Regex.One) (list_ascii_of_string s).

(** ** Vocabulary of the properties of the search *)

(** A class that does not tell a letter from its lower case, and the test
    of it over the alphabet. *)
Definition ignores_case (p : ascii -> bool) : Prop :=
  forall c, p (PyStr.lower_char c) = p c.

Definition ignores_case_b (p : ascii -> bool) : bool :=
  forallb (fun n => Bool.eqb (p (PyStr.lower_char (ascii_of_nat n)))
                             (p (ascii_of_nat n)))
          (seq 0 256).

Definition item_ignores_case_b (it : Regex.item) : bool :=
  match it with
  | Regex.Atom k _ => ignores_case_b (Regex.in_class k)
  | _ => true
  end.

(** The state and the result of a match on the lower-cased subject. *)
Definition lower_state (st : Regex.mstate) : Regex.mstate :=
  {| Regex.cur := PyStr.lower <$> Regex.cur st;
     Regex.groups := map PyStr.lower (Regex.groups st) |}.

Definition lower_result (x : option (list string * string))
  : option (list string * string) :=
  (fun gr : list string * string => (map PyStr.lower gr.1, PyStr.lower gr.2)) <$> x.

(** A matcher that does on the lower-cased subject what it does on the
    subject. *)
Definition respects_case (k : Regex.matcher) : Prop :=
  forall s st, k (PyStr.lower s) (lower_state st) = lower_result (k s st).

(** Every character of [s] is in the class [p]. *)
Fixpoint every (p : ascii -> bool) (s : string) : bool :=
  match s with
  | EmptyString => true
  | String c s' => p c && every p s'
  end.

(** A decimal number as the patterns capture it: digits, then possibly a
    point, then possibly more digits. *)
Definition numeral (g : string) : Prop :=
  exists d1 d2,
    d1 <> EmptyString /\ every PyStr.isdigit d1 = true
    /\ every PyStr.isdigit d2 = true
    /\ (g = d1 +:+ d2 \/ g = d1 +:+ "." +:+ d2).

(** The group that ends each of the four patterns (digits, an optional
    point, optional digits), and what precedes it in a pattern. *)
Definition number_group : Regex.regex :=
  [ Regex.GroupOpen;
    Regex.Atom Regex.Digit Regex.Plus;
    Regex.Atom (Regex.CharNoCase ".") Regex.Opt;
    Regex.Atom Regex.Digit Regex.Star;
    Regex.GroupClose ].

Definition is_atom (it : Regex.item) : bool :=
  match it with
  | Regex.Atom _ _ => true
  | _ => false
  end.

Definition label_part (regex : string) : Regex.regex :=
  match Regex.parse true true regex with
  | Some r => take (length r - 5) r
  | None => []
  end.

(** The state after the characters of [run] have been consumed. *)
Definition push (run : string) (st : Regex.mstate) : Regex.mstate :=
  match Regex.cur st with
  | Some acc => {| Regex.cur := Some (PyStr.rev_onto run acc);
                   Regex.groups := Regex.groups st |}
  | None => st
  end.

(** * The rest of the program

    The functions of [app.EN.py] around the dispatcher and the interpreter:
    the two report exports [create_pdf] and [create_docx], the font set-up
    [register_fonts], and the parts of the page script that call them.
    Further vocabulary for the properties of the dispatcher and of the
    interpreter comes first. *)

(** ** Further vocabulary of the dispatcher *)

(** The event asks for, or reports, the thinking mode. *)
Definition thinking_on (ev : event) : bool :=
  match ev with
  | DebugInfo _ _ _ thinking => thinking
  | GenerateContent _ _ thinking_config => thinking_config
  | _ => false
  end.

(** The calls to the generation end point of a run, by the model asked. *)
Definition generations (tr : list event) : list string :=
  omap (fun ev => match ev with GenerateContent m _ _ => Some m | _ => None end) tr.


(** ** Further vocabulary of the interpreter *)

(** The text holds an opening marker and, somewhere after it, a closing
    one. *)
Definition fenced (text : string) : Prop :=
  exists pre mid post, text = pre +:+ "```json" +:+ mid +:+ "```" +:+ post.

(** The characters [clean_json] deletes from the block. *)
Definition control (c : ascii) : bool :=
  PyStr.in_range 0 31 c || PyStr.in_range 127 159 c.

(** The five keys of [data["originalScore"]]. *)
Definition score_keys : gset string :=
  {[ "task_achievement"; "cohesion_coherence"; "lexical_resource";
     "grammatical_range"; "overall" ]}.


(** ** More of Python

    The exceptions of the export functions and of the page script, the
    operations on values they use, [str.replace] and [html.escape]. *)

Module Exn.

Inductive t :=
| AttributeError
| KeyError (key : string)
| TypeError
| ValueError.

End Exn.

(** A computation that returns or raises. *)
Inductive result (A : Type) :=
| Done (a : A)
| Raised (e : Exn.t).
Arguments Done {A} a.
Arguments Raised {A} e.

Definition bind {A B : Type} (x : result A) (f : A -> result B) : result B :=
  match x with
  | Done a => f a
  | Raised e => Raised e
  end.

Declare Scope result_scope.
Delimit Scope result_scope with result.
Notation "'let*' x ':=' e 'in' k" := (bind e (fun x => k))
  (at level 10, x name, e at level 100, k at level 200) : result_scope.
Local Open Scope result_scope.

(** A loop body run on each element in turn, stopped by the first
    exception. *)
Fixpoint for_each {A B : Type} (f : A -> result (list B)) (l : list A)
  : result (list B) :=
  match l with
  | [] => Done []
  | x :: l' =>
      let* ys := f x in
      let* rest := for_each f l' in
      Done (ys ++ rest)
  end.

Module Py.

(** [bool(v)] *)
Definition truth (v : pyval) : bool :=
  match v with
  | VNone => false
  | VBool b => b
  | VInt z => negb (z =? 0)
  | VFloat f => match f with S754_zero _ => false | _ => true end
  | VStr s => negb (PyStr.falsy s)
  | VList l => match l with [] => false | _ => true end
  | VDict kvs => match kvs with [] => false | _ => true end
  end.

(** The elements a [for] loop over [v] goes through: the items of a list,
    the characters of a string, the keys of a dictionary; the other values
    are not iterable. *)
Definition iter (v : pyval) : result (list pyval) :=
  match v with
  | VList l => Done l
  | VStr s => Done (map (fun c => VStr (String c EmptyString)) (list_ascii_of_string s))
  | VDict kvs => Done (map (fun kv : string * pyval => VStr kv.1) kvs)
  | VNone | VBool _ | VInt _ | VFloat _ => Raised Exn.TypeError
  end.

(** [v.get(key, default)]: only a dictionary has the method. *)
Definition get (v : pyval) (key : string) (default : pyval) : result pyval :=
  match v with
  | VDict kvs => Done (PyVal.dict_get kvs key default)
  | _ => Raised Exn.AttributeError
  end.

Fixpoint find (kvs : list (string * pyval)) (key : string) : option pyval :=
  match kvs with
  | [] => None
  | (k, v) :: kvs' => if String.eqb k key then Some v else find kvs' key
  end.

(** [v[key]] for a string [key]: a missing key of a dictionary raises
    [KeyError]; no other value can be indexed by a string. *)
Definition getitem (v : pyval) (key : string) : result pyval :=
  match v with
  | VDict kvs =>
      match find kvs key with
      | Some x => Done x
      | None => Raised (Exn.KeyError key)
      end
  | _ => Raised Exn.TypeError
  end.

(** [v or ""] *)
Definition or_empty (v : pyval) : pyval :=
  if truth v then v else VStr EmptyString.

(** The scan of [str.replace] for an [old] that is not empty: [skip]
    counts the characters of the occurrence being replaced that are still
    to be passed over. *)
Fixpoint replace_from (skip : nat) (old new s : string) : string :=
  match s with
  | EmptyString => EmptyString
  | String c s' =>
      match skip with
      | S k => replace_from k old new s'
      | O =>
          if PyStr.startswith old s
          then new +:+ replace_from (String.length old - 1) old new s'
          else String c (replace_from 0 old new s')
      end
  end.

(** [new] before each character and at the end. *)
Fixpoint interleave (new s : string) : string :=
  match s with
  | EmptyString => new
  | String c s' => new +:+ String c (interleave new s')
  end.

(** [s.replace(old, new)]: the occurrences of [old] that do not overlap,
    leftmost first. *)
Definition replace (old new s : string) : string :=
  if PyStr.falsy old then interleave new s else replace_from 0 old new s.

Definition dq : string := String "034" EmptyString.

(** [html.escape(s)], with [quote=True] as by default. *)
Definition html_escape (s : string) : string :=
  let s := replace "&" "&amp;" s in
  let s := replace "<" "&lt;" s in
  let s := replace ">" "&gt;" s in
  let s := replace dq "&quot;" s in
  replace "'" "&#x27;" s.

(** [html.escape(v)]: the function calls [v.replace]. *)
Definition escape (v : pyval) : result string :=
  match v with
  | VStr s => Done (html_escape s)
  | _ => Raised Exn.AttributeError
  end.

(** [re.sub(r'<[^>]+>', '', v)] *)
Definition strip_tags (v : pyval) : result string :=
  match v with
  | VStr s => Done (Regex.re_sub_delete "<[^>]+>" s)
  | _ => Raised Exn.TypeError
  end.

Definition nl : string := String "010" EmptyString.

End Py.

(** ** The font set-up

    [register_fonts] works on the files of the working directory and on
    the font registry of the PDF library, and fetches what is missing over
    HTTP.  The file system is a finite map from file names to contents, on
    which removing and writing succeed; the registry is the list of the
    fonts registered, each with the file it was read from. *)

Inductive notice :=
| DownloadFailed (filename : string) (status_code : Z)
| FontError (e : string).

Record machine := {
  files : gmap string string;
  fonts : list (string * string);
  mappings : list (string * Z * Z * string);
  fetched : list string;
  printed : list notice
}.

Definition font_reg : string := "Roboto-Regular.ttf".
Definition font_bold : string := "Roboto-Bold.ttf".

(** The dictionary [urls], in insertion order. *)
Definition urls : list (string * string) :=
  [ (font_reg, "https://github.com/googlefonts/roboto/raw/main/src/hinted/Roboto-Regular.ttf");
    (font_bold, "https://github.com/googlefonts/roboto/raw/main/src/hinted/Roboto-Bold.ttf") ].

(** [os.path.exists], [os.path.getsize], [os.remove], and the [open] and
    [write] of a download. *)
Definition exists_ (m : machine) (filename : string) : bool :=
  match files m !! filename with Some _ => true | None => false end.

Definition getsize (m : machine) (filename : string) : Z :=
  match files m !! filename with
  | Some content => Z.of_nat (String.length content)
  | None => 0
  end.

Definition remove (filename : string) (m : machine) : machine :=
  {| files := delete filename (files m); fonts := fonts m;
     mappings := mappings m; fetched := fetched m; printed := printed m |}.

Definition write_file (filename content : string) (m : machine) : machine :=
  {| files := <[filename := content]> (files m); fonts := fonts m;
     mappings := mappings m; fetched := fetched m; printed := printed m |}.

Definition note_fetch (url : string) (m : machine) : machine :=
  {| files := files m; fonts := fonts m; mappings := mappings m;
     fetched := fetched m ++ [url]; printed := printed m |}.

Definition print (n : notice) (m : machine) : machine :=
  {| files := files m; fonts := fonts m; mappings := mappings m;
     fetched := fetched m; printed := printed m ++ [n] |}.

Definition add_font (font_name filename : string) (m : machine) : machine :=
  {| files := files m; fonts := fonts m ++ [(font_name, filename)];
     mappings := mappings m; fetched := fetched m; printed := printed m |}.

Definition addMapping (family : string) (bold italic : Z) (font_name : string)
    (m : machine) : machine :=
  {| files := files m; fonts := fonts m;
     mappings := mappings m ++ [(family, bold, italic, font_name)];
     fetched := fetched m; printed := printed m |}.

Section Fonts.

(** [requests.get(url, ...)], as seen by the request that follows [n]
    earlier ones: it raises an exception, given by its text, or returns a
    status code and a body. *)
Variable requests_get : nat -> string -> string + Z * string.

(** [TTFont(name, filename)] on the content of the file: the text of the
    exception it raises on a file that is not a font it can read. *)
Variable ttfont : string -> option string.

(** One turn of the loop over [urls]: the exception raised, if any, and
    the machine it leaves. *)
Definition fetch_font (entry : string * string) (m : machine)
  : option string * machine :=
  let '(filename, url) := entry in
  let m :=
    if exists_ m filename && (getsize m filename <? 1000)
    then remove filename m else m in
  if negb (exists_ m filename) then
    match requests_get (length (fetched m)) url with
    | inl e => (Some e, note_fetch url m)
    | inr (status_code, content) =>
        let m := note_fetch url m in
        if status_code =? 200 then (None, write_file filename content m)
        else (None, print (DownloadFailed filename status_code) m)
    end
  else (None, m).

Fixpoint fetch_fonts (entries : list (string * string)) (m : machine)
  : option string * machine :=
  match entries with
  | [] => (None, m)
  | entry :: rest =>
      match fetch_font entry m with
      | (Some e, m') => (Some e, m')
      | (None, m') => fetch_fonts rest m'
      end
  end.

(** [pdfmetrics.registerFont(TTFont(font_name, filename))] *)
Definition registerFont (font_name filename : string) (m : machine)
  : option string * machine :=
  match ttfont (default EmptyString (files m !! filename)) with
  | Some e => (Some e, m)
  | None => (None, add_font font_name filename m)
  end.

(** [register_fonts] *)
Definition register_fonts (m : machine) : bool * machine :=
  match fetch_fonts urls m with
  | (Some e, m) => (false, print (FontError e) m)
  | (None, m) =>
      if exists_ m font_reg && exists_ m font_bold then
        match registerFont "Roboto" font_reg m with
        | (Some e, m) => (false, print (FontError e) m)
        | (None, m) =>
            match registerFont "Roboto-Bold" font_bold m with
            | (Some e, m) => (false, print (FontError e) m)
            | (None, m) =>
                (true, addMapping "Roboto" 1 0 "Roboto-Bold"
                         (addMapping "Roboto" 0 0 "Roboto" m))
            end
        end
      else (false, m)
  end.

End Fonts.

(** ** The PDF export

    What [create_pdf] hands to the PDF library: the styles as it has set
    them and the list [elements], the story of the document. *)

(** A paragraph style of the sample style sheet, with the font the
    function gives it; [fontSize] is [None] where the function leaves the
    size of the sheet. *)
Record para_style := {
  style_name : string;
  fontName : string;
  fontSize : option Z
}.

(** The commands of a [TableStyle]. *)
Inductive table_command :=
| BACKGROUND (start stop : Z * Z) (color : string)
| TEXTCOLOR (start stop : Z * Z) (color : string)
| ALIGN (start stop : Z * Z) (alignment : string)
| GRID (start stop : Z * Z) (width : Z) (color : string)
| FONTNAME (start stop : Z * Z) (font : string).

Inductive flowable :=
| Paragraph (text : string) (style : para_style)
| Spacer (width height : Z)
| Table (cells : list (list string)) (colWidths : list Z) (style : list table_command)
| PageBreak.

(** [scores.get(key, '-')] on the score record, and the five cells of a
    score row. *)
Definition score_cell (scores : gmap string string) (key : string) : string :=
  default dash (scores !! key).

Definition score_row (scores : gmap string string) : list string :=
  [ score_cell scores "task_achievement";
    score_cell scores "cohesion_coherence";
    score_cell scores "lexical_resource";
    score_cell scores "grammatical_range";
    score_cell scores "overall" ].

(** [scores and isinstance(scores, dict) and scores.get('overall', '-') != '-'] *)
Definition has_scores (scores : gmap string string) : bool :=
  negb (bool_decide (scores = ∅))
  && negb (String.eqb (score_cell scores "overall") dash).

(** The five cells of the row of the revised scores. *)
Definition revised_row (rev_scores : pyval) : result (list string) :=
  let* ta := Py.get rev_scores "task_achievement" (VStr dash) in
  let* cc := Py.get rev_scores "cohesion_coherence" (VStr dash) in
  let* lr := Py.get rev_scores "lexical_resource" (VStr dash) in
  let* gra := Py.get rev_scores "grammatical_range" (VStr dash) in
  let* overall := Py.get rev_scores "overall" (VStr dash) in
  Done [PyVal.str ta; PyVal.str cc; PyVal.str lr; PyVal.str gra; PyVal.str overall].

Definition pdf_table_style (background font_name : string) : list table_command :=
  [ BACKGROUND (0, 0) (-1, 0) background;
    TEXTCOLOR (0, 0) (-1, 0) "whitesmoke";
    ALIGN (0, 0) (-1, -1) "CENTER";
    GRID (0, 0) (-1, -1) 1 "black";
    FONTNAME (0, 0) (-1, -1) font_name ].

Definition pdf_table (row : list string) (background font_name : string) : flowable :=
  Table [ ["TA"; "CC"; "LR"; "GRA"; "OVERALL"]; row ] [60; 60; 60; 60; 80]
        (pdf_table_style background font_name).

(** [html.escape(s).replace('\n', '<br/>')] *)
Definition pdf_text (s : string) : string :=
  Py.replace Py.nl "<br/>" (Py.html_escape s).

(** The body of the loop over the errors. *)
Definition pdf_error (normal_style : para_style) (err : pyval) : result (list flowable) :=
  let* category := Py.get err "category" (VStr EmptyString) in
  let cat := Py.html_escape (PyVal.str category) in
  let* type := Py.get err "type" (VStr EmptyString) in
  let typ := Py.html_escape (PyVal.str type) in
  let* original := Py.get err "original" (VStr EmptyString) in
  let orig := Py.html_escape (PyVal.str original) in
  let* correction := Py.get err "correction" (VStr EmptyString) in
  let fix_ := Py.html_escape (PyVal.str correction) in
  let text := "<b>[" +:+ cat +:+ "] " +:+ typ +:+ "</b><br/>Original: <strike>"
              +:+ orig +:+ "</strike> -> Fix: <b>" +:+ fix_ +:+ "</b>" in
  Done [Paragraph text normal_style; Spacer 1 6].

Record pdf := {
  pagesize : string;
  story : list flowable
}.

Section Pdf.

Variable requests_get : nat -> string -> string + Z * string.
Variable ttfont : string -> option string.

(** [create_pdf] *)
Definition create_pdf (data : report) (topic original_essay analysis_text : string)
    (m : machine) : result pdf * machine :=
  let '(has_font, m) := register_fonts requests_get ttfont m in
  let font_name := if has_font then "Roboto" else "Helvetica" in
  let font_bold := if has_font then "Roboto-Bold" else "Helvetica-Bold" in
  let title_style :=
    {| style_name := "Title"; fontName := font_name; fontSize := Some 18 |} in
  let h1_style :=
    {| style_name := "Heading1"; fontName := font_bold; fontSize := None |} in
  let h2_style :=
    {| style_name := "Heading2"; fontName := font_bold; fontSize := None |} in
  let normal_style :=
    {| style_name := "Normal"; fontName := font_name; fontSize := Some 13 |} in
  let scores := originalScore data in
  let elements :=
    [ Paragraph "IELTS WRITING ASSESSMENT REPORT" title_style;
      Spacer 1 12;
      Paragraph "1. BAND SCORE" h1_style;
      (if has_scores scores
       then pdf_table (score_row scores) "darkred" font_name
       else Paragraph "Original score data not found." normal_style);
      Spacer 1 12;
      Paragraph "2. DETAILED ANALYSIS" h1_style;
      (if PyStr.falsy analysis_text
       then Paragraph "No detailed analysis available." normal_style
       else Paragraph
              (Py.replace "###" EmptyString
                 (Py.replace "**" EmptyString (pdf_text analysis_text)))
              normal_style);
      Spacer 1 12;
      Paragraph "3. ERROR LOG" h1_style ] in
  (let* error_log :=
     if Py.truth (errors data)
     then let* errs := Py.iter (errors data) in for_each (pdf_error normal_style) errs
     else Done [] in
   let elements :=
     elements ++ error_log ++
     [ PageBreak;
       Paragraph "APPENDIX" h1_style;
       Paragraph "<b>A. Task Prompt:</b>" h2_style;
       Paragraph (pdf_text topic) normal_style;
       Spacer 1 10;
       Paragraph "<b>B. Original Essay:</b>" h2_style;
       Paragraph (pdf_text original_essay) normal_style;
       Spacer 1 10;
       Paragraph "<b>C. Annotated Version:</b>" h2_style ] in
   let* clean_annotated := Py.strip_tags (Py.or_empty (annotatedEssay data)) in
   let elements :=
     elements ++
     [ Paragraph (pdf_text clean_annotated) normal_style;
       Spacer 1 10;
       Paragraph "<b>D. PROJECTED BAND SCORE (AFTER REVISION):</b>" h2_style ] in
   let rev_scores := revisedScore data in
   let* projected :=
     if Py.truth rev_scores then
       let* row := revised_row rev_scores in
       let t2 := pdf_table row "darkgreen" font_name in
       let* note := Py.get rev_scores "logic_re_evaluation" VNone in
       if Py.truth note then
         let* note := Py.getitem rev_scores "logic_re_evaluation" in
         let* safe_note := Py.escape note in
         Done [ t2; Spacer 1 6;
                Paragraph ("<i>Examiner's Note: " +:+ safe_note +:+ "</i>")
                          normal_style ]
       else Done [t2]
     else Done [] in
   Done {| pagesize := "A4"; story := elements ++ projected |},
   m).

End Pdf.

(** ** The Word export

    What [create_docx] adds to the document, call by call.  A text that the
    function builds around an arrow or from several values is kept as its
    parts. *)

(** A run of text with the character format the function gives it. *)
Record run := {
  run_text : string;
  bold : bool;
  italic : bool;
  rgb : option (Z * Z * Z)
}.

Definition plain_run (text : string) : run :=
  {| run_text := text; bold := false; italic := false; rgb := None |}.

Inductive block :=
| Heading (text : string) (level : Z) (centered : bool)
| DateLine (date : string)
| TextParagraph (text : string)
| ErrorEntry (paragraph_style : string) (label : run)
             (original correction : string) (reason : run)
| NoteParagraph (note : run)
| ScoreTable (table_style : string) (header values : list run)
| DocPageBreak.

Definition score_headers : list string :=
  ["Task Achievement"; "Coherence"; "Lexical Resource"; "Grammar"; "OVERALL"].

(** A table of two rows and five columns: the headers in bold, in the
    colour given if any, and the values. *)
Definition docx_table (header_rgb : option (Z * Z * Z)) (row : list string) : block :=
  ScoreTable "Table Grid"
    (map (fun h => {| run_text := h; bold := true; italic := false;
                      rgb := header_rgb |}) score_headers)
    (map plain_run row).

(** The body of the loop over the errors. *)
Definition docx_error (err : pyval) : result (list block) :=
  let* category := Py.getitem err "category" in
  let* type := Py.getitem err "type" in
  let label :=
    {| run_text := "[" +:+ PyVal.str category +:+ " - " +:+ PyVal.str type +:+ "]: ";
       bold := true; italic := false; rgb := Some (200, 0, 0) |} in
  let* original := Py.getitem err "original" in
  let* correction := Py.getitem err "correction" in
  let* explanation := Py.getitem err "explanation" in
  Done [ ErrorEntry "List Bullet" label (PyVal.str original) (PyVal.str correction)
           (plain_run (Py.nl +:+ "   Reason: " +:+ PyVal.str explanation)) ].

(** [create_docx]; [today] is the date [time.strftime] gives. *)
Definition create_docx (today : string) (data : report)
    (topic original_essay analysis_text : string) : result (list block) :=
  let scores := originalScore data in
  let doc :=
    [ Heading "IELTS WRITING TASK 1 - ASSESSMENT REPORT" 0 true;
      DateLine today;
      Heading "1. BAND SCORE" 1 false;
      (if has_scores scores
       then docx_table None (score_row scores)
       else TextParagraph "Score details could not be extracted automatically.");
      Heading "2. EXAMINER'S DETAILED ANALYSIS" 1 false ]
    ++ (if PyStr.falsy analysis_text then []
        else [ TextParagraph
                 (Py.replace "#### " EmptyString
                    (Py.replace "### " EmptyString
                       (Py.replace "**" EmptyString analysis_text))) ])
    ++ [ Heading "3. DETAILED ERROR LOG" 1 false ] in
  let* error_log :=
    if Py.truth (errors data)
    then let* errs := Py.iter (errors data) in for_each docx_error errs
    else Done [TextParagraph "No specific errors detected."] in
  let doc :=
    doc ++ error_log ++
    [ DocPageBreak;
      Heading "APPENDIX" 1 false;
      Heading "A. Task Prompt:" 2 false;
      TextParagraph topic;
      Heading "B. Original Essay:" 2 false;
      TextParagraph original_essay;
      Heading "C. Annotated Version:" 2 false ] in
  let* clean_annotated := Py.strip_tags (Py.or_empty (annotatedEssay data)) in
  let doc :=
    doc ++
    [ TextParagraph clean_annotated;
      Heading "D. PROJECTED BAND SCORE (AFTER REVISION)" 2 false ] in
  let rev_scores := revisedScore data in
  let* projected :=
    if Py.truth rev_scores then
      let* row := revised_row rev_scores in
      let table := docx_table (Some (0, 100, 0)) row in
      let* note := Py.get rev_scores "logic_re_evaluation" VNone in
      if Py.truth note then
        let* note := Py.getitem rev_scores "logic_re_evaluation" in
        Done [ table;
               NoteParagraph
                 {| run_text := Py.nl +:+ "Examiner's Note: " +:+ PyVal.str note;
                    bold := false; italic := true; rgb := Some (0, 128, 0) |} ]
      else Done [table]
    else Done [] in
  Done (doc ++ projected).

(** ** Vocabulary of the properties of the exports *)

(** Each character of [s] replaced by the text [f] gives for it. *)
Fixpoint expand (f : ascii -> string) (s : string) : string :=
  match s with
  | EmptyString => EmptyString
  | String c s' => f c +:+ expand f s'
  end.

(** The entity [html.escape] writes for a character, the character itself
    when it has none. *)
Definition entity (c : ascii) : string :=
  if Ascii.eqb c "&" then "&amp;"
  else if Ascii.eqb c "<" then "&lt;"
  else if Ascii.eqb c ">" then "&gt;"
  else if Ascii.eqb c "034" then "&quot;"
  else if Ascii.eqb c "'" then "&#x27;"
  else String c EmptyString.

(** The tags the PDF export writes itself. *)
Definition pdf_tags : list string :=
  ["<br/>"; "<b>"; "</b>"; "<strike>"; "</strike>"; "<i>"; "</i>"].

(** A text in which every opening angle bracket begins one of these
    tags. *)
Inductive markup : string -> Prop :=
| markup_end : markup EmptyString
| markup_char (c : ascii) (s : string) :
    c <> "<"%char -> markup s -> markup (String c s)
| markup_tag (t s : string) :
    In t pdf_tags -> markup s -> markup (t +:+ s).

Definition not_lt (c : ascii) : bool := negb (Ascii.eqb c "<").

(** The same as a test, on a text of less than [fuel] tokens. *)
Fixpoint markup_b (fuel : nat) (s : string) : bool :=
  match fuel with
  | O => false
  | S fuel' =>
      match s with
      | EmptyString => true
      | String c s' =>
          if not_lt c then markup_b fuel' s'
          else existsb (fun t => PyStr.startswith t s
                                 && markup_b fuel'
                                      (String.substring (String.length t)
                                         (String.length s - String.length t) s))
                       pdf_tags
      end
  end.

(** The paragraphs of a story, by their text. *)
Definition paragraphs (story : list flowable) : list string :=
  omap (fun fl => match fl with Paragraph text _ => Some text | _ => None end) story.

(** The fonts a story names: those of the styles of its paragraphs and of
    the commands of its tables. *)
Definition fonts_named (story : list flowable) : list string :=
  flat_map (fun fl =>
              match fl with
              | Paragraph _ style => [fontName style]
              | Table _ _ style =>
                  omap (fun cmd => match cmd with
                                   | FONTNAME _ _ font => Some font
                                   | _ => None
                                   end) style
              | _ => []
              end) story.




(** ** Vocabulary of the properties of the font set-up *)

Definition url_reg : string :=
  "https://github.com/googlefonts/roboto/raw/main/src/hinted/Roboto-Regular.ttf".
Definition url_bold : string :=
  "https://github.com/googlefonts/roboto/raw/main/src/hinted/Roboto-Bold.ttf".

(** What the download that follows [n] earlier requests leaves in the
    place of a file: the body of the answer when its status is 200, no
    file otherwise. *)
Definition downloaded (requests_get : nat -> string -> string + Z * string)
    (n : nat) (url : string) : option string :=
  match requests_get n url with
  | inr (status_code, content) => if status_code =? 200 then Some content else None
  | inl _ => None
  end.

(** The two font files are there and [TTFont] reads both. *)
Definition fonts_readable (ttfont : string -> option string) (m : machine) : bool :=
  match files m !! font_reg, files m !! font_bold with
  | Some c1, Some c2 =>
      match ttfont c1, ttfont c2 with
      | None, None => true
      | _, _ => false
      end
  | _, _ => false
  end.

(** ** Example runs of the font set-up *)

Module FontDemo.

(** A server that answers every request with a body of 1200 bytes, and a
    reader that takes any file of 1000 bytes or more for a font. *)
Definition body : string := PyFloat.zeros 1200.

Definition server (n : nat) (url : string) : string + Z * string :=
  inr (200, body).

Definition reads (content : string) : option string :=
  if (String.length content <? 1000)%nat then Some "not a font" else None.

(** A working directory without the fonts, and one with both. *)
Definition fresh : machine :=
  {| files := ∅; fonts := []; mappings := []; fetched := []; printed := [] |}.

Definition cached : machine :=
  {| files := {[ font_reg := body; font_bold := body ]};
     fonts := []; mappings := []; fetched := []; printed := [] |}.

End FontDemo.

(** A flowable whose text, if it is a paragraph, has the tags of the
    export only. *)
Definition safe_flowable (fl : flowable) : Prop :=
  match fl with
  | Paragraph text _ => markup text
  | _ => True
  end.

(** A flowable that names, as font, [font_name] or [font_bold] only. *)
Definition uses_fonts (font_name font_bold : string) (fl : flowable) : Prop :=
  Forall (fun font => font = font_name \/ font = font_bold) (fonts_named [fl]).

(** The fixed parts of the story of [create_pdf], for the fonts and the
    texts given. *)
Definition pdf_front (font_name font_bold : string) (scores : gmap string string)
    (analysis_text : string) : list flowable :=
  let normal_style :=
    {| style_name := "Normal"; fontName := font_name; fontSize := Some 13 |} in
  let h1_style :=
    {| style_name := "Heading1"; fontName := font_bold; fontSize := None |} in
  [ Paragraph "IELTS WRITING ASSESSMENT REPORT"
      {| style_name := "Title"; fontName := font_name; fontSize := Some 18 |};
    Spacer 1 12;
    Paragraph "1. BAND SCORE" h1_style;
    (if has_scores scores
     then pdf_table (score_row scores) "darkred" font_name
     else Paragraph "Original score data not found." normal_style);
    Spacer 1 12;
    Paragraph "2. DETAILED ANALYSIS" h1_style;
    (if PyStr.falsy analysis_text
     then Paragraph "No detailed analysis available." normal_style
     else Paragraph
            (Py.replace "###" EmptyString
               (Py.replace "**" EmptyString (pdf_text analysis_text)))
            normal_style);
    Spacer 1 12;
    Paragraph "3. ERROR LOG" h1_style ].

Definition pdf_appendix (font_name font_bold : string)
    (topic original_essay clean_annotated : string) : list flowable :=
  let normal_style :=
    {| style_name := "Normal"; fontName := font_name; fontSize := Some 13 |} in
  let h1_style :=
    {| style_name := "Heading1"; fontName := font_bold; fontSize := None |} in
  let h2_style :=
    {| style_name := "Heading2"; fontName := font_bold; fontSize := None |} in
  [ PageBreak;
    Paragraph "APPENDIX" h1_style;
    Paragraph "<b>A. Task Prompt:</b>" h2_style;
    Paragraph (pdf_text topic) normal_style;
    Spacer 1 10;
    Paragraph "<b>B. Original Essay:</b>" h2_style;
    Paragraph (pdf_text original_essay) normal_style;
    Spacer 1 10;
    Paragraph "<b>C. Annotated Version:</b>" h2_style;
    Paragraph (pdf_text clean_annotated) normal_style;
    Spacer 1 10;
    Paragraph "<b>D. PROJECTED BAND SCORE (AFTER REVISION):</b>" h2_style ].

(** The part of the story for the revised scores. *)
Definition pdf_projected (font_name : string) (rev_scores : pyval)
  : result (list flowable) :=
  let normal_style :=
    {| style_name := "Normal"; fontName := font_name; fontSize := Some 13 |} in
  if Py.truth rev_scores then
    let* row := revised_row rev_scores in
    let t2 := pdf_table row "darkgreen" font_name in
    let* note := Py.get rev_scores "logic_re_evaluation" VNone in
    if Py.truth note then
      let* note := Py.getitem rev_scores "logic_re_evaluation" in
      let* safe_note := Py.escape note in
      Done [ t2; Spacer 1 6;
             Paragraph ("<i>Examiner's Note: " +:+ safe_note +:+ "</i>")
                       normal_style ]
    else Done [t2]
  else Done [].

(** The part of the story for the error list. *)
Definition pdf_error_log (font_name : string) (errs : pyval) : result (list flowable) :=
  let normal_style :=
    {| style_name := "Normal"; fontName := font_name; fontSize := Some 13 |} in
  if Py.truth errs
  then let* errs := Py.iter errs in for_each (pdf_error normal_style) errs
  else Done [].

(** The text after the first closing angle bracket of [s], and the text
    after a tag at the start of [s]: an opening bracket, one character at
    least that is not a closing bracket, and the first closing bracket
    that follows. *)
Fixpoint after_gt (s : string) : option string :=
  match s with
  | EmptyString => None
  | String c s' => if Ascii.eqb c ">" then Some s' else after_gt s'
  end.

Definition after_tag (s : string) : option string :=
  match s with
  | String c (String c' s') =>
      if Ascii.eqb c "<" && negb (Ascii.eqb c' ">") then after_gt s' else None
  | _ => None
  end.

Definition tag_pattern : string := "<[^>]+>".



(** ** Example exports *)

Module ExportDemo.

(** The record [process_response] makes of the example response: one
    error, which has a category and a type only, an annotated text with
    two tags, and a revised score. *)
Definition data : report :=
  match process_response Json.loads (Sample.report "6.0" "6.0" "6.0" "7.0") with
  | Returns (_, data) => data
  | Raises _ => initial_data
  end.

Definition topic : string := "The chart <b>below</b> shows sales & costs.".
Definition essay : string := "Sales rose" +:+ Py.nl +:+ "while costs fell.".
Definition analysis : string := "### Task Achievement" +:+ Py.nl +:+ "**Band 6**".

End ExportDemo.

(** The parts of the document of [create_docx]. *)
Definition docx_front (today : string) (scores : gmap string string)
    (analysis_text : string) : list block :=
  [ Heading "IELTS WRITING TASK 1 - ASSESSMENT REPORT" 0 true;
    DateLine today;
    Heading "1. BAND SCORE" 1 false;
    (if has_scores scores
     then docx_table None (score_row scores)
     else TextParagraph "Score details could not be extracted automatically.");
    Heading "2. EXAMINER'S DETAILED ANALYSIS" 1 false ]
  ++ (if PyStr.falsy analysis_text then []
      else [ TextParagraph
               (Py.replace "#### " EmptyString
                  (Py.replace "### " EmptyString
                     (Py.replace "**" EmptyString analysis_text))) ])
  ++ [ Heading "3. DETAILED ERROR LOG" 1 false ].

Definition docx_error_log (errs : pyval) : result (list block) :=
  if Py.truth errs
  then let* errs := Py.iter errs in for_each docx_error errs
  else Done [TextParagraph "No specific errors detected."].

Definition docx_appendix (topic original_essay : string) : list block :=
  [ DocPageBreak;
    Heading "APPENDIX" 1 false;
    Heading "A. Task Prompt:" 2 false;
    TextParagraph topic;
    Heading "B. Original Essay:" 2 false;
    TextParagraph original_essay ].

Definition docx_projected (rev_scores : pyval) : result (list block) :=
  if Py.truth rev_scores then
    let* row := revised_row rev_scores in
    let table := docx_table (Some (0, 100, 0)) row in
    let* note := Py.get rev_scores "logic_re_evaluation" VNone in
    if Py.truth note then
      let* note := Py.getitem rev_scores "logic_re_evaluation" in
      Done [ table;
             NoteParagraph
               {| run_text := Py.nl +:+ "Examiner's Note: " +:+ PyVal.str note;
                  bold := false; italic := true; rgb := Some (0, 128, 0) |} ]
    else Done [table]
  else Done [].

(** The pattern of a tag, parsed. *)
Definition tag_items : Regex.regex :=
  [ Regex.Atom (Regex.Char "<") Regex.One;
    Regex.Atom (Regex.Not (Regex.Union (Regex.Char ">") Regex.Nothing)) Regex.Plus;
    Regex.Atom (Regex.Char ">") Regex.One ].

(** No tag begins at any position of [s]. *)
Fixpoint no_tag (s : string) : bool :=
  match after_tag s with
  | Some _ => false
  | None =>
      match s with
      | EmptyString => true
      | String _ s' => no_tag s'
      end
  end.

Definition not_gt (c : ascii) : bool := negb (Ascii.eqb c ">").
(** * Properties *)

(** ** Strings *)

Lemma app_cons (c : ascii) (s t : string) : String c s +:+ t = String c (s +:+ t).
Proof. reflexivity. Qed.

Lemma app_empty_l (s : string) : EmptyString +:+ s = s.
Proof. reflexivity. Qed.

Lemma startswith_spec (p s : string) :
  PyStr.startswith p s = true <-> exists post, s = p +:+ post.
Proof.
  revert s. induction p as [|a p IH]; intros s; simpl.
  - split; [intros _; exists s; reflexivity | reflexivity].
  - destruct s as [|b s].
    + split; [discriminate | intros [post H]; discriminate].
    + destruct (Ascii.eqb_spec a b) as [->|Hne].
      * rewrite IH. split; intros [post H]; exists post.
        -- rewrite app_cons. now f_equal.
        -- rewrite app_cons in H. now inversion H.
      * split; [discriminate|]. intros [post H]. rewrite app_cons in H.
        inversion H. congruence.
Qed.

Lemma contains_spec (sub s : string) :
  PyStr.contains sub s = true <-> exists pre post, s = pre +:+ sub +:+ post.
Proof.
  induction s as [|c s IH].
  - simpl. rewrite orb_false_r, startswith_spec. split.
    + intros [post H]. exists EmptyString, post. exact H.
    + intros [[|a pre] [post H]]; [exists post; exact H | discriminate].
  - cbn [PyStr.contains]. rewrite orb_true_iff, startswith_spec, IH. split.
    + intros [[post H]|[pre [post H]]].
      * exists EmptyString, post. exact H.
      * exists (String c pre), post. rewrite app_cons. now f_equal.
    + intros [[|a pre] [post H]].
      * left. exists post. exact H.
      * right. exists pre, post. rewrite app_cons in H. now inversion H.
Qed.

Lemma lower_app (s t : string) : PyStr.lower (s +:+ t) = PyStr.lower s +:+ PyStr.lower t.
Proof.
  induction s as [|c s IH]; [reflexivity|].
  rewrite app_cons. simpl. rewrite IH. reflexivity.
Qed.

Lemma lower_length (s : string) : String.length (PyStr.lower s) = String.length s.
Proof. induction s; simpl; congruence. Qed.

(** A string whose lower-casing splits is itself split the same way. *)
Lemma lower_split (s u v : string) :
  PyStr.lower s = u +:+ v ->
  exists s1 s2, s = s1 +:+ s2 /\ PyStr.lower s1 = u /\ PyStr.lower s2 = v.
Proof.
  revert s. induction u as [|a u IH]; intros s H.
  - exists EmptyString, s. auto.
  - destruct s as [|c s]; [discriminate|].
    rewrite app_cons in H. simpl in H. inversion H as [[Hc Hs]].
    destruct (IH _ Hs) as (s1 & s2 & -> & <- & <-).
    exists (String c s1), s2. auto.
Qed.

Lemma occurs_nocase_spec (word s : string) :
  PyStr.contains word (PyStr.lower s) = true <-> occurs_nocase word s.
Proof.
  rewrite contains_spec. split.
  - intros (u & v & H).
    destruct (lower_split _ _ _ H) as (s1 & s2 & -> & <- & H2).
    destruct (lower_split _ _ _ H2) as (s3 & s4 & -> & <- & <-).
    exists s1, s3, s4. auto.
  - intros (pre & mid & post & -> & <-).
    exists (PyStr.lower pre), (PyStr.lower post).
    now rewrite !lower_app.
Qed.

Lemma retryable_spec (e : string) : retryable e = true <-> quota_style e.
Proof.
  unfold retryable, quota_style.
  rewrite !orb_true_iff, <- !occurs_nocase_spec, contains_spec.
  unfold occurs. tauto.
Qed.

(** ** Model selection *)

Lemma find_first {A} (f : A -> bool) (l : list A) (x : A) :
  List.find f l = Some x ->
  exists pre post, l = pre ++ x :: post /\ f x = true
                   /\ forall y, In y pre -> f y = false.
Proof.
  induction l as [|a l IH]; simpl; [discriminate|].
  destruct (f a) eqn:Ha.
  - intros [= ->]. exists [], l. repeat split; auto. intros y [].
  - intros H. destruct (IH H) as (pre & post & -> & Hx & Hpre).
    exists (a :: pre), post. repeat split; auto.
    intros y [<-|Hy]; auto.
Qed.

Lemma find_none {A} (f : A -> bool) (l : list A) :
  List.find f l = None -> forall y, In y l -> f y = false.
Proof.
  induction l as [|a l IH]; simpl; [intros _ y []|].
  destruct (f a) eqn:Ha; [discriminate|].
  intros H y [<-|Hy]; auto.
Qed.

Lemma usable_spec (available_models : list string) (target : string) :
  existsb (PyStr.contains target) available_models = true
  <-> usable available_models target.
Proof.
  unfold usable. rewrite existsb_exists.
  split; intros (m & Hin & H); exists m; split; auto; now apply contains_spec.
Qed.

Lemma priority_nonempty (target : string) :
  In target model_priority -> PyStr.falsy target = false.
Proof.
  unfold model_priority. simpl.
  intros H. repeat (destruct H as [<-|H]; [reflexivity|]). destruct H.
Qed.

Lemma select_model_first (available_models : list string) :
  (exists pre post,
      model_priority = pre ++ select_model available_models :: post
      /\ usable available_models (select_model available_models)
      /\ forall target, In target pre -> ~ usable available_models target)
  \/ (select_model available_models = "gemini-1.5-flash"
      /\ forall target, In target model_priority -> ~ usable available_models target).
Proof.
  unfold select_model.
  destruct (List.find _ model_priority) as [t|] eqn:Hf.
  - left. destruct (find_first _ _ _ Hf) as (pre & post & Heq & Ht & Hpre).
    assert (Hin : In t model_priority) by (rewrite Heq; apply in_elt).
    rewrite (priority_nonempty _ Hin).
    exists pre, post. split; [exact Heq|]. split; [now apply usable_spec|].
    intros target Hin' Hu. apply usable_spec in Hu.
    rewrite (Hpre _ Hin') in Hu. discriminate.
  - right. split; [reflexivity|].
    intros target Hin Hu. apply usable_spec in Hu.
    rewrite (find_none _ _ Hf _ Hin) in Hu. discriminate.
Qed.

Lemma select_model_in (available_models : list string) :
  In (select_model available_models) model_priority.
Proof.
  destruct (select_model_first available_models) as [(pre & post & Heq & _)|[-> _]].
  - rewrite Heq. apply in_elt.
  - unfold model_priority. simpl. tauto.
Qed.

(** ** The dispatcher *)

Section DispatcherProperties.

Context {Response Image : Type}.
Variable list_models : nat -> string -> string + list model_info.
Variable generate_content :
  nat -> string -> string -> string -> option Image -> bool -> string + Response.
Variable prompt : string.
Variable image : option Image.

Local Abbreviation attempt := (attempt list_models generate_content prompt image).
Local Abbreviation failover_loop :=
  (failover_loop list_models generate_content prompt image).
Local Abbreviation run :=
  (generate_content_with_failover list_models generate_content prompt image).

Lemma attempted_app (tr1 tr2 : list event) :
  attempted (tr1 ++ tr2) = attempted tr1 ++ attempted tr2.
Proof. apply omap_app. Qed.

Lemma error_counts_app (tr1 tr2 : list event) :
  error_counts (tr1 ++ tr2) = error_counts tr1 ++ error_counts tr2.
Proof. apply omap_app. Qed.

Lemma attempt_attempted (index : nat) (key : string) :
  attempted (attempt index key).1 = [key].
Proof.
  unfold attempt.
  destruct (list_models index key); [reflexivity|].
  destruct (generate_content _ _ _ _ _ _); reflexivity.
Qed.

Lemma attempt_error_counts (index : nat) (key : string) :
  error_counts (attempt index key).1 = [].
Proof.
  unfold attempt.
  destruct (list_models index key); [reflexivity|].
  destruct (generate_content _ _ _ _ _ _); reflexivity.
Qed.

(** The model an attempt returns is an entry of the priority list. *)
Lemma attempt_model (index : nat) (key : string) (response : Response) (m : string) :
  (attempt index key).2 = inr (response, m) -> In m model_priority.
Proof.
  unfold attempt. destruct (list_models index key); [discriminate|].
  destruct (generate_content _ _ _ _ _ _); [discriminate|].
  intros [= _ <-]. apply select_model_in.
Qed.

Lemma loop_cons (index : nat) (k : string) (keys : list string) (last_error : string) :
  failover_loop index (k :: keys) last_error =
  let '(evs, r) := attempt index k in
  match r with
  | inr ok => (evs, inr ok)
  | inl e =>
      if retryable e then
        let '(evs', r') := failover_loop (S index) keys e in (evs ++ evs', r')
      else (evs, inl e)
  end.
Proof. reflexivity. Qed.

(** The loop goes through a prefix of retryable failures. *)
Lemma loop_skip (pre : list string) :
  forall (index : nat) (last_error : string) (post : list string),
    (forall i key, pre !! i = Some key -> fails_retryable attempt (index + i) key) ->
    exists evs e,
      attempted evs = pre /\ error_counts evs = []
      /\ (pre = [] /\ e = last_error
          \/ exists key, last pre = Some key
               /\ (attempt (index + (length pre - 1)) key).2 = inl e)
      /\ failover_loop index (pre ++ post) last_error =
         let '(evs', r) := failover_loop (index + length pre) post e in
         (evs ++ evs', r).
Proof.
  induction pre as [|k pre IH]; intros index last_error post Hpre.
  - exists [], last_error. simpl. rewrite Nat.add_0_r.
    repeat split; auto. now destruct (failover_loop index post last_error).
  - destruct (Hpre O k eq_refl) as (e & He & Hr). rewrite Nat.add_0_r in He.
    destruct (IH (S index) e post) as (evs & e' & Ha & Hc & Hl & Hloop).
    { intros i key Hi. specialize (Hpre (S i) key Hi).
      now rewrite Nat.add_succ_r in Hpre. }
    exists ((attempt index k).1 ++ evs), e'.
    split; [rewrite attempted_app, attempt_attempted, Ha; reflexivity|].
    split; [rewrite error_counts_app, attempt_error_counts, Hc; reflexivity|].
    split.
    + right. destruct Hl as [[-> ->]|(key & Hk & Hk')].
      * exists k. split; [reflexivity|]. simpl. now rewrite Nat.add_0_r.
      * exists key. destruct pre as [|k0 pre]; [discriminate|].
        split; [exact Hk|].
        simpl length in *. rewrite <- Hk'. f_equal. f_equal. lia.
    + simpl app. rewrite loop_cons.
      destruct (attempt index k) as [evs0 r] eqn:Hat. simpl in He. subst r.
      rewrite Hr, Hloop. cbn [length fst].
      replace (index + S (length pre))%nat with (S index + length pre)%nat by lia.
      destruct (failover_loop (S index + length pre) post e') as [evs' r'].
      now rewrite app_assoc.
Qed.


(** ** The shuffle *)

Lemma swap_perm (i j : nat) (x : list string) : swap i j x ≡ₚ x.
Proof.
  unfold swap.
  destruct (x !! i) as [a|] eqn:Hi; [|reflexivity].
  destruct (x !! j) as [b|] eqn:Hj; [|reflexivity].
  pose proof (lookup_lt_Some _ _ _ Hi) as Hli.
  pose proof (lookup_lt_Some _ _ _ Hj) as Hlj.
  apply Permutation_inj. split; [now rewrite !length_insert|].
  exists (fun n => if decide (n = i) then j else if decide (n = j) then i else n).
  split.
  - intros n m. repeat case_decide; congruence.
  - intros n. repeat case_decide; subst.
    + destruct (decide (i = j)) as [->|Hne].
      * rewrite list_lookup_insert_eq by now rewrite length_insert. congruence.
      * rewrite list_lookup_insert_ne by congruence.
        now rewrite list_lookup_insert_eq, Hj.
    + rewrite list_lookup_insert_eq by now rewrite length_insert. now rewrite Hi.
    + now rewrite !list_lookup_insert_ne by congruence.
Qed.

Lemma shuffle_from_perm (i : nat) :
  forall (tape : list nat) (x : list string), (shuffle_from i tape x).1 ≡ₚ x.
Proof.
  induction i as [|i IH]; intros tape x; [reflexivity|].
  cbn [shuffle_from]. destruct (draw tape) as [r tape'].
  rewrite IH. apply swap_perm.
Qed.

Lemma shuffle_perm (tape : list nat) (x : list string) : (shuffle tape x).1 ≡ₚ x.
Proof. apply shuffle_from_perm. Qed.

Lemma shuffle_length (tape : list nat) (x : list string) :
  length (shuffle tape x).1 = length x.
Proof. apply Permutation_length, shuffle_perm. Qed.

(** ** A run of the dispatcher *)

Lemma run_unfold (w : world) (keys : list string) :
  heap w !! ALL_KEYS w = Some keys ->
  run w =
  match failover_loop 0 (traversal w) EmptyString with
  | (evs, inr (response, sel_model)) =>
      ((Some response, Some sel_model), emit evs (shuffled_world w keys))
  | (evs, inl last_error) =>
      ((None, None),
       emit (evs ++ [ErrorBox (length keys) last_error]) (shuffled_world w keys))
  end.
Proof.
  intros Hk.
  unfold generate_content_with_failover, list_copy, random_shuffle, traversal,
    shuffled_world, traversal.
  cbn [heap tape ALL_KEYS trace]. rewrite Hk. cbn [default from_option id].
  rewrite lookup_insert_eq. cbn [default from_option id].
  destruct (shuffle (tape w) keys) as [l tape'] eqn:Hs.
  cbn [heap tape ALL_KEYS trace fst snd]. rewrite lookup_insert_eq. cbn [default from_option id].
  replace (length keys) with (length l)
    by (rewrite <- (shuffle_length (tape w) keys), Hs; reflexivity).
  destruct (failover_loop 0 l EmptyString) as [evs [e|[response m]]]; reflexivity.
Qed.

Lemma events_since_emit (w w2 : world) (evs : list event) :
  trace w2 = trace w -> events_since w (emit evs w2) = evs.
Proof.
  intros H. unfold events_since, emit. cbn [trace]. rewrite H.
  apply drop_app_length.
Qed.

(** What the loop returns is what the last attempt it made returned. *)
Lemma loop_result (keys : list string) :
  forall (index : nat) (last_error : string) evs r,
    failover_loop index keys last_error = (evs, r) ->
    error_counts evs = []
    /\ (exists n, attempted evs = take n keys)
    /\ match r with
       | inr ok =>
           exists i key, attempted evs !! i = Some key
                         /\ (attempt (index + i) key).2 = inr ok
       | inl e =>
           (attempted evs = [] /\ e = last_error)
           \/ exists i key, attempted evs !! i = Some key
                            /\ S i = length (attempted evs)
                            /\ (attempt (index + i) key).2 = inl e
       end.
Proof.
  induction keys as [|k keys IH]; intros index last_error evs r.
  - intros [= <- <-]. split; [reflexivity|]. split; [now exists O|]. now left.
  - rewrite loop_cons.
    pose proof (attempt_attempted index k) as Hk.
    pose proof (attempt_error_counts index k) as Hc.
    destruct (attempt index k) as [evs0 [e|ok]] eqn:Hat; cbn [fst] in Hk, Hc.
    + destruct (retryable e) eqn:Hr.
      * destruct (failover_loop (S index) keys e) as [evs' r'] eqn:Hl.
        intros [= <- <-]. destruct (IH _ _ _ _ Hl) as (Hc' & [n Hn] & Hres).
        split; [now rewrite error_counts_app, Hc, Hc'|].
        rewrite attempted_app, Hk. split; [exists (S n); simpl; now rewrite Hn|].
        destruct r' as [e'|ok].
        -- right. destruct Hres as [[Hnil ->]|(i & key & Hi & Hlen & Hres)].
           ++ exists O, k. rewrite Hnil. repeat split.
              now rewrite Nat.add_0_r, Hat.
           ++ exists (S i), key. repeat split; [exact Hi|simpl; lia|].
              now rewrite Nat.add_succ_r.
        -- destruct Hres as (i & key & Hi & Hres).
           exists (S i), key. split; [exact Hi|]. now rewrite Nat.add_succ_r.
      * intros [= <- <-]. split; [exact Hc|]. rewrite Hk.
        split; [now exists 1%nat|]. right. exists O, k. repeat split.
        now rewrite Nat.add_0_r, Hat.
    + intros [= <- <-]. split; [exact Hc|]. rewrite Hk.
      split; [now exists 1%nat|]. exists O, k. split; [reflexivity|].
      now rewrite Nat.add_0_r, Hat.
Qed.

(** The loop stops at the first attempt that succeeds. *)
Lemma loop_success (pre post : list string) (key : string)
    (index : nat) (last_error : string) (ok : Response * string) :
  (forall i key', pre !! i = Some key' -> fails_retryable attempt (index + i) key') ->
  (attempt (index + length pre) key).2 = inr ok ->
  exists evs,
    failover_loop index (pre ++ key :: post) last_error = (evs, inr ok)
    /\ attempted evs = pre ++ [key] /\ error_counts evs = [].
Proof.
  intros Hpre Hok.
  destruct (loop_skip pre index last_error (key :: post) Hpre)
    as (evs & e & Ha & Hc & _ & ->).
  rewrite loop_cons.
  pose proof (attempt_attempted (index + length pre) key) as Hk.
  pose proof (attempt_error_counts (index + length pre) key) as Hc'.
  destruct (attempt (index + length pre) key) as [evs0 r]. cbn [fst snd] in *. subst r.
  exists (evs ++ evs0). split; [reflexivity|].
  now rewrite attempted_app, error_counts_app, Ha, Hc, Hk, Hc'.
Qed.

(** The loop stops at the first error that is not quota-style. *)
Lemma loop_fatal (pre post : list string) (key : string)
    (index : nat) (last_error e : string) :
  (forall i key', pre !! i = Some key' -> fails_retryable attempt (index + i) key') ->
  (attempt (index + length pre) key).2 = inl e ->
  retryable e = false ->
  exists evs,
    failover_loop index (pre ++ key :: post) last_error = (evs, inl e)
    /\ attempted evs = pre ++ [key] /\ error_counts evs = [].
Proof.
  intros Hpre He Hr.
  destruct (loop_skip pre index last_error (key :: post) Hpre)
    as (evs & e0 & Ha & Hc & _ & ->).
  rewrite loop_cons.
  pose proof (attempt_attempted (index + length pre) key) as Hk.
  pose proof (attempt_error_counts (index + length pre) key) as Hc'.
  destruct (attempt (index + length pre) key) as [evs0 r]. cbn [fst snd] in *. subst r.
  rewrite Hr.
  exists (evs ++ evs0). split; [reflexivity|].
  now rewrite attempted_app, error_counts_app, Ha, Hc, Hk, Hc'.
Qed.

(** When every credential fails with a quota-style error the loop tries
    them all. *)
Lemma loop_exhausted (keys : list string) (index : nat) (last_error : string) :
  (forall i key, keys !! i = Some key -> fails_retryable attempt (index + i) key) ->
  exists evs e,
    failover_loop index keys last_error = (evs, inl e)
    /\ attempted evs = keys /\ error_counts evs = [].
Proof.
  intros Hall.
  destruct (loop_skip keys index last_error [] Hall) as (evs & e & Ha & Hc & _ & H).
  rewrite app_nil_r in H. cbn in H. rewrite app_nil_r in H.
  exists evs, e. auto.
Qed.

(** A position of a list splits it. *)
Lemma split_at (l : list string) (k : nat) (x : string) :
  l !! k = Some x ->
  l = take k l ++ x :: drop (S k) l /\ length (take k l) = k
  /\ take (S k) l = take k l ++ [x].
Proof.
  intros H. split; [now rewrite (take_drop_middle l k x H)|].
  split; [|now apply take_S_r].
  rewrite length_take. apply lookup_lt_Some in H. lia.
Qed.

Lemma reported_snoc (evs : list event) (n : nat) (e : string) :
  reported_count (evs ++ [ErrorBox n e]) = Some n.
Proof.
  unfold reported_count. rewrite error_counts_app. cbn. apply last_snoc.
Qed.

Lemma run_events (w : world) (keys : list string) :
  heap w !! ALL_KEYS w = Some keys ->
  forall evs r,
    failover_loop 0 (traversal w) EmptyString = (evs, r) ->
    (run w).1 = match r with
                | inr (response, sel_model) => (Some response, Some sel_model)
                | inl _ => (None, None)
                end
    /\ events_since w (run w).2 =
       match r with
       | inr _ => evs
       | inl last_error => evs ++ [ErrorBox (length keys) last_error]
       end.
Proof.
  intros Hk evs r Hl. rewrite (run_unfold w keys Hk), Hl.
  destruct r as [e|[response m]]; cbn [fst snd];
    (split; [reflexivity|]); now apply events_since_emit.
Qed.

(** C1: whatever the configured credentials and the order the shuffle puts
    them in, (1) when every attempt fails with a quota-style error the
    dispatcher tries all N credentials, returns the failure value, and the
    failure it reports cites N; (2) when the attempt at position [k] of the
    traversal succeeds and all earlier ones fail with quota-style errors, the
    dispatcher returns that response with the model selected for that
    credential, having tried exactly the first [k + 1] credentials and
    reported no failure. *)
Theorem C1_failover_attempts (w : world) (keys : list string) :
  heap w !! ALL_KEYS w = Some keys ->
  let order := traversal w in
  let ret := (run w).1 in
  let tr := events_since w (run w).2 in
  ((forall i key, order !! i = Some key -> fails_retryable attempt i key) ->
   ret = (None, None)
   /\ attempted tr = order
   /\ length (attempted tr) = length keys
   /\ reported_count tr = Some (length keys))
  /\
  (forall k key response sel_model,
      order !! k = Some key ->
      (attempt k key).2 = inr (response, sel_model) ->
      (forall i key', (i < k)%nat -> order !! i = Some key' ->
                      fails_retryable attempt i key') ->
      ret = (Some response, Some sel_model)
      /\ (exists models, list_models k key = inr models
                         /\ sel_model = select_model (generation_models models))
      /\ attempted tr = take (S k) order
      /\ length (attempted tr) = S k
      /\ reported_count tr = None).
Proof.
  intros Hk order ret tr. split.
  - intros Hall.
    destruct (loop_exhausted order 0 EmptyString Hall) as (evs & e & Hl & Ha & Hc).
    destruct (run_events w keys Hk _ _ Hl) as [Hret Hev].
    assert (Hlen : length order = length keys).
    { unfold order, traversal. rewrite Hk. apply shuffle_length. }
    subst ret tr. rewrite Hret, Hev, attempted_app, Ha. cbn. rewrite app_nil_r.
    repeat split; [exact Hlen | apply reported_snoc].
  - intros k key response sel_model Hpos Hok Hpre.
    destruct (split_at order k key Hpos) as (Hsplit & Hlen & Htake).
    destruct (loop_success (take k order) (drop (S k) order) key 0 EmptyString
                (response, sel_model)) as (evs & Hl & Ha & Hc).
    { intros i key' Hi. apply Hpre.
      - apply lookup_lt_Some in Hi. lia.
      - rewrite lookup_take_Some in Hi. tauto. }
    { now rewrite Hlen. }
    rewrite <- Hsplit in Hl.
    destruct (run_events w keys Hk _ _ Hl) as [Hret Hev].
    subst ret tr. rewrite Hret, Hev, Ha, Htake.
    split; [reflexivity|]. split.
    + revert Hok. unfold attempt.
      destruct (list_models k key) as [e|models]; [discriminate|].
      destruct (generate_content _ _ _ _ _ _); [discriminate|].
      intros [= _ <-]. now exists models.
    + split; [reflexivity|]. split.
      * rewrite length_app, Hlen. simpl. lia.
      * unfold reported_count. now rewrite Hc.
Qed.

(** C2 (amended): an error is retryable exactly when its text contains
    "429", or contains "quota" or "limit" up to the case of letters; on
    any other error, met at position [k] of the traversal after quota-style
    failures only, the dispatcher stops: it has tried exactly the first
    [k + 1] credentials, it returns the failure value, and the message it
    shows cites the number of configured keys together with the text of
    that error. *)
Theorem C2_fail_fast (w : world) (keys : list string) :
  heap w !! ALL_KEYS w = Some keys ->
  let order := traversal w in
  let ret := (run w).1 in
  let tr := events_since w (run w).2 in
  (forall e, retryable e = true <-> quota_style e)
  /\
  (forall k key e,
      order !! k = Some key ->
      (attempt k key).2 = inl e ->
      ~ quota_style e ->
      (forall i key', (i < k)%nat -> order !! i = Some key' ->
                      fails_retryable attempt i key') ->
      ret = (None, None)
      /\ attempted tr = take (S k) order
      /\ length (attempted tr) = S k
      /\ last tr = Some (ErrorBox (length keys) e)
      /\ reported_count tr = Some (length keys)).
Proof.
  intros Hk order ret tr. split; [apply retryable_spec|].
  intros k key e Hpos He Hnq Hpre.
  assert (Hr : retryable e = false).
  { destruct (retryable e) eqn:Hr; [|reflexivity].
    exfalso. now apply Hnq, retryable_spec. }
  destruct (split_at order k key Hpos) as (Hsplit & Hlen & Htake).
  destruct (loop_fatal (take k order) (drop (S k) order) key 0 EmptyString e)
    as (evs & Hl & Ha & Hc); [| now rewrite Hlen | exact Hr |].
  { intros i key' Hi. apply Hpre.
    - apply lookup_lt_Some in Hi. lia.
    - rewrite lookup_take_Some in Hi. tauto. }
  rewrite <- Hsplit in Hl.
  destruct (run_events w keys Hk _ _ Hl) as [Hret Hev].
  subst ret tr. rewrite Hret, Hev, attempted_app, Ha, Htake. cbn.
  rewrite app_nil_r.
  repeat split.
  - rewrite length_app, Hlen. simpl. lia.
  - apply last_snoc.
  - apply reported_snoc.
Qed.

(** C8: the model of an attempt is chosen by [select_model] among the
    identifiers the credential reports usable: the first entry of the
    priority list that is a substring of one of them, "gemini-1.5-flash"
    when no entry is; hence the identifier a successful run returns is an
    entry of the priority list or that fallback. *)
Theorem C8_model_selection :
  (forall available_models,
      (exists pre post,
          model_priority = pre ++ select_model available_models :: post
          /\ usable available_models (select_model available_models)
          /\ forall target, In target pre -> ~ usable available_models target)
      \/ (select_model available_models = "gemini-1.5-flash"
          /\ forall target, In target model_priority ->
                            ~ usable available_models target))
  /\
  (forall index key response sel_model,
      (attempt index key).2 = inr (response, sel_model) ->
      exists models, list_models index key = inr models
                     /\ sel_model = select_model (generation_models models))
  /\
  (forall w response sel_model,
      (run w).1 = (Some response, Some sel_model) ->
      In sel_model model_priority \/ sel_model = "gemini-1.5-flash").
Proof.
  split; [apply select_model_first|]. split.
  - intros index key response sel_model. unfold attempt.
    destruct (list_models index key) as [e|models]; [discriminate|].
    destruct (generate_content _ _ _ _ _ _); [discriminate|].
    intros [= _ <-]. now exists models.
  - intros w response sel_model. unfold generate_content_with_failover.
    destruct (list_copy (ALL_KEYS w) w) as [x w1].
    destruct (failover_loop 0 _ EmptyString) as [evs [e|[r m]]] eqn:Hl;
      cbn [fst]; [discriminate|].
    intros [= _ <-]. left.
    destruct (loop_result _ _ _ _ _ Hl) as (_ & _ & i & key & _ & Hok).
    exact (attempt_model _ _ _ _ Hok).
Qed.

(** C9: a run leaves the configured collection as it was: the module-level
    variable names the same list object, that object holds the same keys in
    the same order, and so does every list object that existed before; the
    shuffle acts on a fresh copy, whose order is a permutation of the
    configured keys and of which the credentials tried are a prefix. *)
Theorem C9_keys_untouched (w : world) (keys : list string) :
  heap w !! ALL_KEYS w = Some keys ->
  let w' := (run w).2 in
  ALL_KEYS w' = ALL_KEYS w
  /\ heap w' !! ALL_KEYS w' = Some keys
  /\ (forall x l, heap w !! x = Some l -> heap w' !! x = Some l)
  /\ traversal w ≡ₚ keys
  /\ exists n, attempted (events_since w w') = take n (traversal w).
Proof.
  intros Hk w'.
  assert (Hfresh : forall x l, heap w !! x = Some l -> fresh (dom (heap w)) <> x).
  { intros x l Hx Heq. apply (is_fresh (dom (heap w))). rewrite Heq.
    apply elem_of_dom. now exists l. }
  assert (Hheap : forall x l, heap w !! x = Some l -> heap w' !! x = Some l).
  { intros x l Hx. subst w'. rewrite (run_unfold w keys Hk).
    destruct (failover_loop 0 (traversal w) EmptyString) as [evs [e|[r m]]];
      cbn [snd emit heap shuffled_world];
      rewrite !lookup_insert_ne by (now apply (Hfresh x l)); exact Hx. }
  assert (Hall : ALL_KEYS w' = ALL_KEYS w).
  { subst w'. rewrite (run_unfold w keys Hk).
    now destruct (failover_loop 0 (traversal w) EmptyString) as [evs [e|[r m]]]. }
  split; [exact Hall|]. split; [rewrite Hall; now apply Hheap|].
  split; [exact Hheap|]. split.
  - unfold traversal. rewrite Hk. apply shuffle_perm.
  - destruct (failover_loop 0 (traversal w) EmptyString) as [evs r] eqn:Hl.
    destruct (loop_result _ _ _ _ _ Hl) as (_ & [n Hn] & _).
    destruct (run_events w keys Hk _ _ Hl) as [_ Hev].
    subst w'. rewrite Hev. exists n.
    destruct r as [e|ok]; [|exact Hn].
    rewrite attempted_app, Hn. cbn. apply app_nil_r.
Qed.

(** C10: when no credential tried yields a generation, the value returned
    is the pair (None, None) and nothing else; the count and the error text
    go to one message, the last thing the run does, which cites the number
    of configured keys whatever the number of credentials tried, and the
    text of the last exception caught (the empty text when none was). *)
Theorem C10_failure_value (w : world) (keys : list string) :
  heap w !! ALL_KEYS w = Some keys ->
  let ret := (run w).1 in
  let tr := events_since w (run w).2 in
  (forall i key, attempted tr !! i = Some key ->
                 exists e, (attempt i key).2 = inl e) ->
  ret = (None, None)
  /\ exists evs last_error,
      tr = evs ++ [ErrorBox (length keys) last_error]
      /\ error_counts evs = []
      /\ reported_count tr = Some (length keys)
      /\ (exists n, attempted tr = take n (traversal w))
      /\ ((attempted tr = [] /\ last_error = EmptyString)
          \/ exists i key, attempted tr !! i = Some key
                           /\ S i = length (attempted tr)
                           /\ (attempt i key).2 = inl last_error).
Proof.
  intros Hk ret tr Hfail.
  destruct (failover_loop 0 (traversal w) EmptyString) as [evs r] eqn:Hl.
  destruct (loop_result _ _ _ _ _ Hl) as (Hc & [n Hn] & Hres).
  destruct (run_events w keys Hk _ _ Hl) as [Hret Hev].
  subst ret tr. destruct r as [e|ok].
  - rewrite Hret, Hev. split; [reflexivity|]. exists evs, e.
    assert (Ha : attempted (evs ++ [ErrorBox (length keys) e]) = attempted evs).
    { rewrite attempted_app. cbn. apply app_nil_r. }
    rewrite Ha.
    split; [reflexivity|]. split; [exact Hc|]. split; [apply reported_snoc|].
    split; [now exists n|]. exact Hres.
  - exfalso. destruct Hres as (i & key & Hi & Hok).
    rewrite Hev in Hfail. destruct (Hfail i key Hi) as [e He].
    simpl in Hok. congruence.
Qed.

End DispatcherProperties.

(** ** The dispatcher on the example runs *)

Lemma example_traversal :
  traversal Demo.w = ["key-cccc3"; "key-aaaa1"; "key-bbbb2"].
Proof. vm_compute. reflexivity. Defined.

Lemma example_bound : heap Demo.w !! ALL_KEYS Demo.w = Some Demo.keys.
Proof. vm_compute. reflexivity. Defined.

Lemma C1_failover_attempts_witness :
  (let run := generate_content_with_failover Demo.models Demo.all_quota
                "prompt" None in
   (run Demo.w).1 = (None, None)
   /\ attempted (events_since Demo.w (run Demo.w).2) = traversal Demo.w
   /\ length (attempted (events_since Demo.w (run Demo.w).2)) = 3%nat
   /\ reported_count (events_since Demo.w (run Demo.w).2) = Some 3%nat)
  /\
  (let run := generate_content_with_failover Demo.models Demo.second_answers
                "prompt" None in
   (run Demo.w).1 = (Some "the report", Some "gemini-2.5-flash")
   /\ (exists models, Demo.models 1 "key-aaaa1" = inr models
                      /\ "gemini-2.5-flash" = select_model (generation_models models))
   /\ attempted (events_since Demo.w (run Demo.w).2)
      = take 2 (traversal Demo.w)
   /\ length (attempted (events_since Demo.w (run Demo.w).2)) = 2%nat
   /\ reported_count (events_since Demo.w (run Demo.w).2) = None).
Proof.
  split.
  - refine (proj1 (C1_failover_attempts Demo.models Demo.all_quota
                     "prompt" None Demo.w Demo.keys example_bound) _).
    intros i key _. exists Demo.quota_text. split; vm_compute; reflexivity.
  - refine (proj2 (C1_failover_attempts Demo.models Demo.second_answers
                     "prompt" None Demo.w Demo.keys example_bound)
              1%nat "key-aaaa1" "the report" "gemini-2.5-flash" _ _ _).
    + vm_compute. reflexivity.
    + vm_compute. reflexivity.
    + intros i key Hi _. exists Demo.quota_text.
      destruct i as [|i]; [split; vm_compute; reflexivity | lia].
Defined.

Lemma fatal_text_not_quota : ~ quota_style Demo.fatal_text.
Proof.
  intros H. apply retryable_spec in H. vm_compute in H. discriminate H.
Defined.

Lemma C2_fail_fast_witness :
  let run := generate_content_with_failover Demo.models Demo.first_breaks
               "prompt" None in
  (forall e, retryable e = true <-> quota_style e)
  /\ (run Demo.w).1 = (None, None)
  /\ attempted (events_since Demo.w (run Demo.w).2)
     = take 1 (traversal Demo.w)
  /\ length (attempted (events_since Demo.w (run Demo.w).2)) = 1%nat
  /\ last (events_since Demo.w (run Demo.w).2)
     = Some (ErrorBox 3 Demo.fatal_text)
  /\ reported_count (events_since Demo.w (run Demo.w).2) = Some 3%nat.
Proof.
  pose proof (C2_fail_fast Demo.models Demo.first_breaks "prompt" None
                Demo.w Demo.keys example_bound) as [Hclass Hstop].
  split; [exact Hclass|].
  refine (Hstop 0%nat "key-cccc3" Demo.fatal_text _ _ fatal_text_not_quota _).
  - vm_compute. reflexivity.
  - vm_compute. reflexivity.
  - intros i key Hi. lia.
Defined.

(** C2 as stated fails: on the example run whose first attempt meets a
    server error, one credential has been tried and the failure cites 3. *)
Lemma C2_count_is_not_position :
  ~ (forall (w : world) (keys : list string) (k : nat) (key e : string),
        heap w !! ALL_KEYS w = Some keys ->
        traversal w !! k = Some key ->
        (attempt Demo.models Demo.first_breaks "prompt" None k key).2 = inl e ->
        ~ quota_style e ->
        (forall i key', (i < k)%nat -> traversal w !! i = Some key' ->
            fails_retryable
              (attempt Demo.models Demo.first_breaks "prompt" None) i key') ->
        reported_count
          (events_since w
             (generate_content_with_failover Demo.models Demo.first_breaks
                "prompt" None w).2)
        = Some (S k)).
Proof.
  intros H.
  specialize (H Demo.w Demo.keys 0%nat "key-cccc3" Demo.fatal_text
                example_bound).
  assert (Hc : reported_count
                 (events_since Demo.w
                    (generate_content_with_failover Demo.models
                       Demo.first_breaks "prompt" None Demo.w).2)
               = Some 3%nat) by (vm_compute; reflexivity).
  rewrite Hc in H.
  assert (Hbad : Some 3%nat = Some 1%nat).
  { apply H.
    - vm_compute. reflexivity.
    - vm_compute. reflexivity.
    - exact fatal_text_not_quota.
    - intros i key Hi. lia. }
  discriminate Hbad.
Qed.

Lemma C8_model_selection_witness :
  (exists models, Demo.models 1 "key-aaaa1" = inr models
                  /\ "gemini-2.5-flash" = select_model (generation_models models))
  /\ (In "gemini-2.5-flash" model_priority
      \/ "gemini-2.5-flash" = "gemini-1.5-flash").
Proof.
  pose proof (C8_model_selection Demo.models Demo.second_answers
                "prompt" None) as (_ & Hattempt & Hrun).
  split.
  - apply (Hattempt 1%nat "key-aaaa1" "the report" "gemini-2.5-flash").
    vm_compute. reflexivity.
  - apply (Hrun Demo.w "the report" "gemini-2.5-flash").
    vm_compute. reflexivity.
Defined.

Lemma C9_keys_untouched_witness :
  let w' := (generate_content_with_failover Demo.models Demo.second_answers
               "prompt" None Demo.w).2 in
  ALL_KEYS w' = ALL_KEYS Demo.w
  /\ heap w' !! ALL_KEYS w' = Some Demo.keys
  /\ (forall x l, heap Demo.w !! x = Some l -> heap w' !! x = Some l)
  /\ traversal Demo.w ≡ₚ Demo.keys
  /\ exists n, attempted (events_since Demo.w w') = take n (traversal Demo.w).
Proof.
  exact (C9_keys_untouched Demo.models Demo.second_answers "prompt" None
           Demo.w Demo.keys example_bound).
Defined.

Lemma C10_failure_value_witness :
  let run := generate_content_with_failover Demo.models Demo.first_breaks
               "prompt" None in
  (run Demo.w).1 = (None, None)
  /\ exists evs last_error,
      events_since Demo.w (run Demo.w).2 = evs ++ [ErrorBox 3 last_error]
      /\ error_counts evs = []
      /\ reported_count (events_since Demo.w (run Demo.w).2) = Some 3%nat
      /\ (exists n, attempted (events_since Demo.w (run Demo.w).2)
                    = take n (traversal Demo.w))
      /\ ((attempted (events_since Demo.w (run Demo.w).2) = []
           /\ last_error = EmptyString)
          \/ exists i key,
              attempted (events_since Demo.w (run Demo.w).2) !! i = Some key
              /\ S i = length (attempted (events_since Demo.w (run Demo.w).2))
              /\ (attempt Demo.models Demo.first_breaks "prompt" None i key).2
                 = inl last_error).
Proof.
  refine (C10_failure_value Demo.models Demo.first_breaks "prompt" None
            Demo.w Demo.keys example_bound _).
  intros i key Hi.
  assert (Ha : attempted
                 (events_since Demo.w
                    (generate_content_with_failover Demo.models
                       Demo.first_breaks "prompt" None Demo.w).2)
               = ["key-cccc3"]) by (vm_compute; reflexivity).
  rewrite Ha in Hi. destruct i as [|i]; [|destruct i; discriminate Hi].
  injection Hi as <-. exists Demo.fatal_text. vm_compute. reflexivity.
Defined.

(** ** The overall score *)

Lemma same_float_eq (x y : PyFloat.float) : same_float x y = true -> x = y.
Proof.
  destruct x as [s|s| |s m e], y as [s'|s'| |s' m' e']; simpl; try discriminate.
  - intros H. apply Bool.eqb_prop in H. now subst.
  - intros H. apply Bool.eqb_prop in H. now subst.
  - reflexivity.
  - rewrite !andb_true_iff. intros [[H1 H2] H3].
    apply Bool.eqb_prop in H1. apply Pos.eqb_eq in H2. apply Z.eqb_eq in H3.
    now subst.
Qed.

Lemma below (n : nat) (f : nat -> bool) :
  forallb f (seq 0 n) = true -> forall k, (k < n)%nat -> f k = true.
Proof.
  intros H k Hk. rewrite forallb_forall in H. apply H, in_seq. lia.
Qed.

Lemma calculate_overall_eq (scores : list pyval) :
  calculate_overall scores =
  let valid := valid_scores scores in
  if (length valid <? 4)%nat then dash
  else round_average (py_sum valid) (length valid).
Proof. reflexivity. Qed.

(** Adding band scores is exact. *)
Lemma add_band (a b : nat) :
  (a <= 54)%nat -> (b <= 18)%nat ->
  PyFloat.add (band a) (band b) = band (a + b).
Proof.
  intros Ha Hb. apply same_float_eq.
  assert (H : forallb (fun a => forallb (fun b =>
                same_float (PyFloat.add (band a) (band b)) (band (a + b)))
                (seq 0 19)) (seq 0 55) = true) by (vm_compute; reflexivity).
  apply (below 19 _ (below 55 _ H a ltac:(lia)) b). lia.
Qed.

Lemma sum_band (k1 k2 k3 k4 : nat) :
  on_band_scale k1 -> on_band_scale k2 -> on_band_scale k3 -> on_band_scale k4 ->
  py_sum [band k1; band k2; band k3; band k4] = band (k1 + k2 + k3 + k4).
Proof.
  unfold on_band_scale, py_sum. intros H1 H2 H3 H4. cbn [fold_left].
  change PyFloat.zero with (band 0).
  rewrite !add_band by lia. reflexivity.
Qed.

(** On the sum of four band scores the rounding is the band rule on the
    exact average. *)
Lemma round_band (total : nat) :
  (total <= 72)%nat ->
  round_average (band total) 4 = band_rule ((Z.of_nat total # 2) / 4).
Proof.
  intros Ht. apply String.eqb_eq.
  assert (H : forallb (fun t => String.eqb (round_average (band t) 4)
                                  (band_rule ((Z.of_nat t # 2) / 4)))
                (seq 0 73) = true) by (vm_compute; reflexivity).
  apply (below 73 _ H). lia.
Qed.





(** ** The search for the fenced block *)

Lemma fence_parsed :
  Regex.parse false false fence_pattern
  = Some (literal_items "```json" ++ fence_tail).
Proof. vm_compute. reflexivity. Qed.

(** A pattern that begins with literal characters matches only where the
    subject begins with them. *)
Lemma literal_prefix (lits : string) (r : Regex.regex) :
  forall s st x,
    Regex.compile (literal_items lits ++ r) s st = Some x ->
    PyStr.startswith lits s = true.
Proof.
  induction lits as [|c lits IH]; intros s st x; [reflexivity|].
  cbn [literal_items list_ascii_of_string map app Regex.compile Regex.in_class].
  unfold Regex.one. destruct s as [|a s]; [discriminate|].
  cbn [PyStr.startswith]. destruct (Ascii.eqb c a); [|discriminate].
  apply IH.
Qed.

Lemma search_found (r : Regex.regex) (lits : string) (s : string) (gs : list string) :
  Regex.search (literal_items lits ++ r) s = Some gs ->
  PyStr.contains lits s = true.
Proof.
  induction s as [|a s IH]; cbn [Regex.search PyStr.contains]; unfold Regex.match_here.
  - destruct (Regex.compile _ _ _) as [[gs' rest]|] eqn:Hm; [|discriminate].
    intros _. now rewrite (literal_prefix _ _ _ _ _ Hm).
  - destruct (Regex.compile _ _ _) as [[gs' rest]|] eqn:Hm.
    + intros _. now rewrite (literal_prefix _ _ _ _ _ Hm).
    + intros H. rewrite (IH H). apply orb_true_r.
Qed.

(** A text without the opening marker has no fenced block. *)
Lemma no_opener_no_block (text : string) :
  PyStr.contains "```json" text = false -> clean_json text = None.
Proof.
  intros Hno. unfold clean_json, Regex.re_search.
  change "```json\s*([\s\S]*?)\s*```" with fence_pattern.
  rewrite fence_parsed.
  destruct (Regex.search _ text) as [gs|] eqn:Hs; [|reflexivity].
  apply search_found in Hs. congruence.
Qed.

(** The patterns of the four criteria are patterns of the fragment: a
    search that finds nothing is a search that has no match. *)
Lemma patterns_parse :
  forallb (fun kp : string * string =>
             match Regex.parse true true kp.2 with
             | Some _ => true
             | None => false
             end) patterns = true.
Proof. vm_compute. reflexivity. Qed.

(** ** The search ignores case *)

Lemma ignores_case_spec (p : ascii -> bool) :
  ignores_case_b p = true -> ignores_case p.
Proof.
  unfold ignores_case_b, ignores_case. intros H c.
  rewrite forallb_forall in H.
  specialize (H (nat_of_ascii c)). rewrite ascii_nat_embedding in H.
  apply Bool.eqb_prop, H, in_seq.
  pose proof (nat_ascii_bounded c). lia.
Qed.

Lemma lower_rev_onto (s acc : string) :
  PyStr.lower (PyStr.rev_onto s acc) = PyStr.rev_onto (PyStr.lower s) (PyStr.lower acc).
Proof.
  revert acc. induction s as [|c s IH]; intros acc; [reflexivity|].
  cbn [PyStr.rev_onto PyStr.lower]. now rewrite IH.
Qed.

Lemma consume_lower (c : ascii) (st : Regex.mstate) :
  Regex.consume (PyStr.lower_char c) (lower_state st)
  = lower_state (Regex.consume c st).
Proof. destruct st as [[acc|] gs]; reflexivity. Qed.

Lemma orelse_lower (x y : option (list string * string)) :
  lower_result (Regex.orelse x y) = Regex.orelse (lower_result x) (lower_result y).
Proof. now destruct x. Qed.

Lemma one_respects (p : ascii -> bool) (k : Regex.matcher) :
  ignores_case p -> respects_case k -> respects_case (Regex.one p k).
Proof.
  intros Hp Hk s st. destruct s as [|c s]; [reflexivity|].
  cbn [PyStr.lower Regex.one]. rewrite Hp.
  destruct (p c); [|reflexivity]. now rewrite consume_lower, Hk.
Qed.

Lemma star_respects (p : ascii -> bool) (k : Regex.matcher) :
  ignores_case p -> respects_case k -> respects_case (Regex.star p k).
Proof.
  intros Hp Hk s. induction s as [|c s IH]; intros st.
  - exact (Hk EmptyString st).
  - cbn [PyStr.lower Regex.star]. rewrite Hp.
    change (k (String (PyStr.lower_char c) (PyStr.lower s)))
      with (k (PyStr.lower (String c s))).
    destruct (p c); [|exact (Hk (String c s) st)].
    now rewrite orelse_lower, consume_lower, IH, Hk.
Qed.

Lemma star_lazy_respects (p : ascii -> bool) (k : Regex.matcher) :
  ignores_case p -> respects_case k -> respects_case (Regex.star_lazy p k).
Proof.
  intros Hp Hk s. induction s as [|c s IH]; intros st.
  - cbn [PyStr.lower Regex.star_lazy]. rewrite orelse_lower.
    now rewrite <- (Hk EmptyString st).
  - cbn [PyStr.lower Regex.star_lazy]. rewrite Hp, orelse_lower.
    change (k (String (PyStr.lower_char c) (PyStr.lower s)))
      with (k (PyStr.lower (String c s))).
    rewrite Hk. f_equal.
    destruct (p c); [|reflexivity]. now rewrite consume_lower, IH.
Qed.

Lemma compile_respects (r : Regex.regex) :
  forallb item_ignores_case_b r = true -> respects_case (Regex.compile r).
Proof.
  induction r as [|it r IH]; cbn [forallb]; [intros _ s st; reflexivity|].
  rewrite andb_true_iff. intros [Hit Hr]. specialize (IH Hr).
  destruct it as [k q| |].
  - apply ignores_case_spec in Hit. set (p := Regex.in_class k) in *.
    destruct q; cbn [Regex.compile]; fold p.
    + now apply one_respects.
    + intros s st. now rewrite orelse_lower, (one_respects p _ Hit IH), IH.
    + intros s st. now rewrite orelse_lower, (one_respects p _ Hit IH), IH.
    + now apply star_respects.
    + now apply star_lazy_respects.
    + apply one_respects; [exact Hit|]. now apply star_respects.
    + apply one_respects; [exact Hit|]. now apply star_lazy_respects.
  - intros s st. cbn [Regex.compile]. rewrite <- IH. reflexivity.
  - intros s st. cbn [Regex.compile]. rewrite <- IH. f_equal.
    destruct st as [[acc|] gs]; [|reflexivity].
    unfold Regex.close_group, lower_state. cbn [Regex.cur Regex.groups fmap option_fmap option_map].
    f_equal. rewrite map_app. cbn [map]. f_equal. f_equal.
    unfold PyStr.rev. now rewrite lower_rev_onto.
Qed.

Lemma search_lower (r : Regex.regex) (s : string) :
  respects_case (Regex.compile r) ->
  Regex.search r (PyStr.lower s) = map PyStr.lower <$> Regex.search r s.
Proof.
  intros Hr. induction s as [|c s IH].
  - cbn [PyStr.lower Regex.search]. unfold Regex.match_here.
    change {| Regex.cur := None; Regex.groups := [] |}
      with (lower_state {| Regex.cur := None; Regex.groups := [] |}).
    change EmptyString with (PyStr.lower EmptyString) at 1. rewrite Hr.
    now destruct (Regex.compile r _ _) as [[gs rest]|].
  - cbn [PyStr.lower Regex.search]. unfold Regex.match_here.
    change {| Regex.cur := None; Regex.groups := [] |}
      with (lower_state {| Regex.cur := None; Regex.groups := [] |}).
    change (String (PyStr.lower_char c) (PyStr.lower s))
      with (PyStr.lower (String c s)).
    rewrite Hr.
    destruct (Regex.compile r _ _) as [[gs rest]|]; [reflexivity|exact IH].
Qed.

Lemma patterns_ignore_case :
  forallb (fun kp : string * string =>
             match Regex.parse true true kp.2 with
             | Some r => forallb item_ignores_case_b r
             | None => false
             end) patterns = true.
Proof. vm_compute. reflexivity. Qed.

(** The search for a labeled Score line does not depend on the case of the
    letters of the text. *)
Lemma search_ignores_case (key regex : string) (s : string) :
  In (key, regex) patterns ->
  Regex.re_search true true regex (PyStr.lower s)
  = map PyStr.lower <$> Regex.re_search true true regex s.
Proof.
  intros Hin. pose proof patterns_ignore_case as H.
  rewrite forallb_forall in H. specialize (H (key, regex) Hin). cbn [snd] in H.
  unfold Regex.re_search.
  destruct (Regex.parse true true regex) as [r|]; [|discriminate].
  apply search_lower, compile_respects, H.
Qed.

(** ** What the search captures *)

Lemma append_assoc (a b c : string) : (a +:+ b) +:+ c = a +:+ (b +:+ c).
Proof. induction a as [|x a IH]; [reflexivity|]. rewrite !app_cons. now rewrite IH. Qed.

Lemma append_empty_r (a : string) : a +:+ EmptyString = a.
Proof. induction a as [|x a IH]; [reflexivity|]. rewrite app_cons. now rewrite IH. Qed.

Lemma rev_onto_app (a b : string) :
  PyStr.rev_onto a b = PyStr.rev a +:+ b.
Proof.
  unfold PyStr.rev. revert b. induction a as [|x a IH]; intros b; [reflexivity|].
  cbn [PyStr.rev_onto]. rewrite (IH (String x b)), (IH (String x EmptyString)).
  now rewrite append_assoc.
Qed.

Lemma rev_app (a b : string) : PyStr.rev (a +:+ b) = PyStr.rev b +:+ PyStr.rev a.
Proof.
  induction a as [|x a IH].
  - now rewrite app_empty_l, append_empty_r.
  - rewrite app_cons. unfold PyStr.rev at 1 3. cbn [PyStr.rev_onto].
    rewrite !rev_onto_app, IH. now rewrite append_assoc.
Qed.

Lemma rev_rev (a : string) : PyStr.rev (PyStr.rev a) = a.
Proof.
  induction a as [|x a IH]; [reflexivity|].
  unfold PyStr.rev at 2. cbn [PyStr.rev_onto]. rewrite rev_onto_app, rev_app, IH.
  reflexivity.
Qed.

Lemma rev_rev_onto (run acc : string) :
  PyStr.rev (PyStr.rev_onto run acc) = PyStr.rev acc +:+ run.
Proof. now rewrite rev_onto_app, rev_app, rev_rev. Qed.

Lemma push_cons (c : ascii) (run : string) (st : Regex.mstate) :
  push (String c run) st = push run (Regex.consume c st).
Proof. destruct st as [[acc|] gs]; reflexivity. Qed.

Lemma push_empty (st : Regex.mstate) : push EmptyString st = st.
Proof. destruct st as [[acc|] gs]; reflexivity. Qed.

(** A greedy run, taken apart. *)
Lemma star_inv (p : ascii -> bool) (k : Regex.matcher) (s : string) :
  forall st x,
    Regex.star p k s st = Some x ->
    exists run s', every p run = true /\ k s' (push run st) = Some x.
Proof.
  induction s as [|c s IH]; intros st x; cbn [Regex.star].
  - intros H. exists EmptyString, EmptyString. now rewrite push_empty.
  - destruct (p c) eqn:Hc.
    + destruct (Regex.star p k s (Regex.consume c st)) as [y|] eqn:Hs; cbn [Regex.orelse].
      * intros [= <-]. destruct (IH _ _ Hs) as (run & s' & Hrun & Hk).
        exists (String c run), s'. cbn [every]. now rewrite Hc, Hrun, push_cons.
      * intros H. exists EmptyString, (String c s). now rewrite push_empty.
    + intros H. exists EmptyString, (String c s). now rewrite push_empty.
Qed.

Lemma star_lazy_inv (p : ascii -> bool) (k : Regex.matcher) (s : string) :
  forall st x,
    Regex.star_lazy p k s st = Some x ->
    exists run s', every p run = true /\ k s' (push run st) = Some x.
Proof.
  induction s as [|c s IH]; intros st x; cbn [Regex.star_lazy].
  - destruct (k EmptyString st) as [y|] eqn:Hk; cbn [Regex.orelse]; [|discriminate].
    intros [= <-]. exists EmptyString, EmptyString. now rewrite push_empty.
  - destruct (k (String c s) st) as [y|] eqn:Hk; cbn [Regex.orelse].
    + intros [= <-]. exists EmptyString, (String c s). now rewrite push_empty.
    + destruct (p c) eqn:Hc; [|discriminate].
      intros Hs. destruct (IH _ _ Hs) as (run & s' & Hrun & Hk').
      exists (String c run), s'. cbn [every]. now rewrite Hc, Hrun, push_cons.
Qed.

Lemma one_inv (p : ascii -> bool) (k : Regex.matcher) (s : string) st x :
  Regex.one p k s st = Some x ->
  exists c s', p c = true /\ k s' (Regex.consume c st) = Some x.
Proof.
  destruct s as [|c s]; cbn [Regex.one]; [discriminate|].
  destruct (p c) eqn:Hc; [|discriminate]. intros H. now exists c, s.
Qed.

Lemma push_idle (run : string) (st : Regex.mstate) :
  Regex.cur st = None -> push run st = st.
Proof. unfold push. now intros ->. Qed.

Lemma consume_idle (c : ascii) (st : Regex.mstate) :
  Regex.cur st = None -> Regex.consume c st = st.
Proof. unfold Regex.consume. now intros ->. Qed.

(** Outside a group the items before the group leave the state as it is. *)
Lemma compile_label (label : Regex.regex) (r : Regex.regex) :
  forallb is_atom label = true ->
  forall s st x,
    Regex.cur st = None ->
    Regex.compile (label ++ r) s st = Some x ->
    exists s', Regex.compile r s' st = Some x.
Proof.
  induction label as [|it label IH]; cbn [forallb app]; [intros _ s st x _ H; now exists s|].
  rewrite andb_true_iff. intros [Hit Hl] s st x Hst.
  destruct it as [cl q| |]; try discriminate. specialize (IH Hl).
  set (p := Regex.in_class cl).
  assert (Hone : forall k s0,
             (forall s1, k s1 st = Some x -> exists s', Regex.compile r s' st = Some x) ->
             Regex.one p k s0 st = Some x -> exists s', Regex.compile r s' st = Some x).
  { intros k s0 Hk H. destruct (one_inv _ _ _ _ _ H) as (c & s1 & _ & H1).
    rewrite (consume_idle c st Hst) in H1. eauto. }
  assert (Hstar : forall s0, Regex.star p (Regex.compile (label ++ r)) s0 st = Some x ->
                             exists s', Regex.compile r s' st = Some x).
  { intros s0 H. destruct (star_inv _ _ _ _ _ H) as (run & s1 & _ & H1).
    rewrite (push_idle run st Hst) in H1. eauto. }
  assert (Hlazy : forall s0, Regex.star_lazy p (Regex.compile (label ++ r)) s0 st = Some x ->
                             exists s', Regex.compile r s' st = Some x).
  { intros s0 H. destruct (star_lazy_inv _ _ _ _ _ H) as (run & s1 & _ & H1).
    rewrite (push_idle run st Hst) in H1. eauto. }
  destruct q; cbn [Regex.compile]; fold p.
  - apply Hone. eauto.
  - destruct (Regex.one p _ s st) as [y|] eqn:H1; cbn [Regex.orelse].
    + intros [= <-]. revert H1. apply Hone. eauto.
    + eauto.
  - destruct (Regex.compile (label ++ r) s st) as [y|] eqn:H1; cbn [Regex.orelse].
    + intros [= <-]. eauto.
    + apply Hone. eauto.
  - apply Hstar.
  - apply Hlazy.
  - apply Hone. exact Hstar.
  - apply Hone. exact Hlazy.
Qed.

Lemma point_only (c : ascii) :
  Regex.in_class (Regex.CharNoCase ".") c = true -> c = "."%char.
Proof.
  destruct c as [[] [] [] [] [] [] [] []]; vm_compute; intros H;
    (reflexivity || discriminate H).
Qed.

(** The group captures a numeral. *)
Lemma number_group_captures (s : string) (st : Regex.mstate) (gs : list string) (rest : string) :
  Regex.cur st = None ->
  Regex.compile number_group s st = Some (gs, rest) ->
  exists g, gs = Regex.groups st ++ [g] /\ numeral g.
Proof.
  intros Hst. unfold number_group. cbn [Regex.compile].
  intros H. destruct (one_inv _ _ _ _ _ H) as (c & s1 & Hc & H1). clear H.
  destruct (star_inv _ _ _ _ _ H1) as (run1 & s2 & Hrun1 & H2). clear H1.
  change (PyStr.isdigit c = true) in Hc.
  change (every PyStr.isdigit run1 = true) in Hrun1.
  set (st2 := push run1 (Regex.consume c (Regex.open_group st))) in *.
  assert (Hcur2 : Regex.cur st2 = Some (PyStr.rev_onto run1 (String c EmptyString))
                  /\ Regex.groups st2 = Regex.groups st).
  { subst st2. destruct st as [cu gs0]. now cbn. }
  destruct Hcur2 as [Hcur2 Hgs2].
  assert (Hend : forall st3 acc,
             Regex.cur st3 = Some acc -> Regex.groups st3 = Regex.groups st ->
             forall s3,
               Regex.star (Regex.in_class Regex.Digit)
                 (fun s0 st0 => Some (Regex.groups (Regex.close_group st0), s0)) s3 st3
               = Some (gs, rest) ->
               exists run2, every PyStr.isdigit run2 = true
                            /\ gs = Regex.groups st ++ [PyStr.rev acc +:+ run2]).
  { intros st3 acc Hcur Hgs s3 H3.
    destruct (star_inv _ _ _ _ _ H3) as (run2 & s4 & Hrun2 & H4).
    exists run2. split; [exact Hrun2|].
    injection H4 as <- _. unfold push, Regex.close_group. rewrite Hcur.
    cbn [Regex.cur Regex.groups]. now rewrite Hgs, rev_rev_onto. }
  destruct (Regex.one (Regex.in_class (Regex.CharNoCase ".")) _ s2 st2) as [y|] eqn:Hdot;
    cbn [Regex.orelse] in H2.
  - injection H2 as ->.
    destruct (one_inv _ _ _ _ _ Hdot) as (c' & s3 & Hc' & H3).
    apply point_only in Hc'. subst c'.
    destruct (Hend (Regex.consume "." st2)
                (String "." (PyStr.rev_onto run1 (String c EmptyString)))
                ltac:(unfold Regex.consume; now rewrite Hcur2)
                ltac:(unfold Regex.consume; now rewrite Hcur2) s3 H3)
      as (run2 & Hrun2 & ->).
    exists ((String c run1 +:+ ".") +:+ run2). split.
    + do 3 f_equal. unfold PyStr.rev at 1. cbn [PyStr.rev_onto].
      rewrite rev_onto_app, rev_rev_onto. reflexivity.
    + exists (String c run1), run2. cbn [every]. rewrite Hc, Hrun1.
      split; [discriminate|]. split; [reflexivity|]. split; [exact Hrun2|].
      right. now rewrite append_assoc.
  - destruct (Hend st2 _ Hcur2 Hgs2 s2 H2) as (run2 & Hrun2 & ->).
    exists (String c run1 +:+ run2). split.
    + now rewrite rev_rev_onto.
    + exists (String c run1), run2. cbn [every]. rewrite Hc, Hrun1.
      split; [discriminate|]. split; [reflexivity|]. split; [exact Hrun2|].
      now left.
Qed.

Lemma patterns_shape (key regex : string) :
  In (key, regex) patterns ->
  Regex.parse true true regex = Some (label_part regex ++ number_group)
  /\ forallb is_atom (label_part regex) = true.
Proof.
  intros Hin. cbn in Hin.
  destruct Hin as [Heq|[Heq|[Heq|[Heq|[]]]]]; injection Heq as <- <-;
    split; vm_compute; reflexivity.
Qed.

Lemma search_inv (r : Regex.regex) (s : string) (gs : list string) :
  Regex.search r s = Some gs ->
  exists s0 rest, Regex.match_here r s0 = Some (gs, rest).
Proof.
  induction s as [|c s IH]; cbn [Regex.search].
  - destruct (Regex.match_here r EmptyString) as [[gs' rest]|] eqn:H; [|discriminate].
    intros [= <-]. eauto.
  - destruct (Regex.match_here r (String c s)) as [[gs' rest]|] eqn:H.
    + intros [= <-]. eauto.
    + exact IH.
Qed.

(** What the search for a labeled Score line captures is a numeral. *)
Lemma search_numeral (key regex : string) (s : string) (m : list string) :
  In (key, regex) patterns ->
  Regex.re_search true true regex s = Some m ->
  numeral (Regex.group1 m).
Proof.
  intros Hin. destruct (patterns_shape key regex Hin) as [Hparse Hlabel].
  unfold Regex.re_search. rewrite Hparse. intros Hs.
  destruct (search_inv _ _ _ Hs) as (s0 & rest & Hm).
  unfold Regex.match_here in Hm.
  set (st0 := {| Regex.cur := None; Regex.groups := [] |}) in Hm.
  assert (Hst0 : Regex.cur st0 = None) by reflexivity.
  destruct (compile_label _ _ Hlabel _ _ _ Hst0 Hm) as [s1 H1].
  destruct (number_group_captures _ _ _ _ Hst0 H1) as (g & -> & Hg).
  exact Hg.
Qed.

(** ** The interpreter *)

Section InterpreterProperties.

Variable json_loads : string -> option pyval.

Local Abbreviation score_text := (score_text json_loads).
Local Abbreviation score_found := (score_found json_loads).

Lemma resolve_eq (md : string) (js : option string)
    (st : gmap string string * list pyval) (kp : string * string) :
  resolve json_loads md js st kp =
  (match Regex.re_search true true kp.2 md,
         structured_score json_loads js kp.1 with
   | None, None => st.1
   | _, _ => <[kp.1 := score_text md js kp]> st.1
   end,
   st.2 ++ score_found md js kp).
Proof.
  destruct st as [scores found], kp as [key regex].
  unfold resolve, score_text, score_found. cbn [fst snd].
  destruct (Regex.re_search true true regex md); [reflexivity|].
  destruct (structured_score json_loads js key); [|now rewrite app_nil_r].
  destruct (String.eqb _ dash); [now rewrite app_nil_r | reflexivity].
Qed.

Lemma resolve_key (md : string) (js : option string)
    (st : gmap string string * list pyval) (kp : string * string) :
  st.1 !! kp.1 = Some dash ->
  (resolve json_loads md js st kp).1 !! kp.1 = Some (score_text md js kp).
Proof.
  intros Hst. rewrite resolve_eq. cbn [fst]. unfold score_text.
  destruct (Regex.re_search true true kp.2 md).
  - now rewrite lookup_insert_eq.
  - destruct (structured_score json_loads js kp.1).
    + now rewrite lookup_insert_eq.
    + exact Hst.
Qed.

Lemma resolve_other (md : string) (js : option string)
    (st : gmap string string * list pyval) (kp : string * string) (key : string) :
  key <> kp.1 ->
  (resolve json_loads md js st kp).1 !! key = st.1 !! key.
Proof.
  intros Hne. rewrite resolve_eq. cbn [fst].
  destruct (Regex.re_search true true kp.2 md);
    [now rewrite lookup_insert_ne by congruence|].
  destruct (structured_score json_loads js kp.1); [|reflexivity].
  now rewrite lookup_insert_ne by congruence.
Qed.

Lemma fold_resolve_found (md : string) (js : option string) (pats : list (string * string)) :
  forall st,
    (fold_left (resolve json_loads md js) pats st).2 = st.2 ++ flat_map (score_found md js) pats.
Proof.
  induction pats as [|kp pats IH]; intros st; cbn [fold_left flat_map].
  - now rewrite app_nil_r.
  - rewrite IH, resolve_eq. cbn [snd]. now rewrite app_assoc.
Qed.

Lemma fold_resolve_other (md : string) (js : option string) (pats : list (string * string))
    (key : string) :
  ~ In key (map fst pats) ->
  forall st, (fold_left (resolve json_loads md js) pats st).1 !! key = st.1 !! key.
Proof.
  induction pats as [|kp pats IH]; intros Hnot st; cbn [fold_left]; [reflexivity|].
  cbn [map] in Hnot. rewrite IH by (intros H; apply Hnot; now right).
  apply resolve_other. intros ->. apply Hnot. now left.
Qed.

Lemma fold_resolve_key (md : string) (js : option string) (pats : list (string * string))
    (kp : string * string) :
  List.NoDup (map fst pats) -> In kp pats ->
  forall st, st.1 !! kp.1 = Some dash ->
             (fold_left (resolve json_loads md js) pats st).1 !! kp.1 = Some (score_text md js kp).
Proof.
  induction pats as [|kp' pats IH]; intros Hnd Hin st Hst; [destruct Hin|].
  cbn [fold_left]. cbn [map] in Hnd. inversion Hnd as [|? ? Hnot Hnd']; subst.
  destruct Hin as [->|Hin].
  - rewrite fold_resolve_other by exact Hnot. now apply resolve_key.
  - apply IH; auto. rewrite resolve_other; [exact Hst|].
    intros Heq. apply Hnot. rewrite <- Heq. now apply in_map.
Qed.

Lemma patterns_nodup : List.NoDup (map fst patterns).
Proof.
  cbn. repeat constructor; cbn; intuition discriminate.
Qed.

Lemma patterns_not_overall : ~ In "overall" (map fst patterns).
Proof. cbn. intuition discriminate. Qed.

Lemma initial_dash (kp : string * string) :
  In kp patterns -> initial_scores !! kp.1 = Some dash.
Proof.
  cbn. intros H. repeat (destruct H as [<-|H]; [vm_compute; reflexivity|]).
  destruct H.
Qed.

Lemma parse_block_scores (text : string) (js : option string) md data :
  parse_block json_loads text js = Returns (md, data) ->
  originalScore data = initial_scores /\ md = (if truthy js
                                               then PyStr.strip (PyStr.split_head "```json" text)
                                               else text).
Proof.
  unfold parse_block, truthy. destruct js as [s|]; [|now intros [= <- <-]].
  destruct (PyStr.falsy s); cbn [negb]; [now intros [= <- <-]|].
  destruct (json_loads s) as [[| | | | | |kvs]|]; try discriminate;
    now intros [= <- <-].
Qed.

(** The shape of a result of [process_response]. *)
Lemma process_response_returns (text : string) md data :
  process_response json_loads text = Returns (md, data) ->
  let js := clean_json text in
  let found := flat_map (score_found md js) patterns in
  md = narrative text
  /\ (forall kp, In kp patterns ->
                 originalScore data !! kp.1 = Some (score_text md js kp))
  /\ originalScore data !! "overall" =
     Some (match found with [] => dash | _ => calculate_overall found end)
  /\ exists data0, parse_block json_loads text js = Returns (md, data0)
                   /\ errors data = errors data0
                   /\ annotatedEssay data = annotatedEssay data0
                   /\ revisedScore data = revisedScore data0.
Proof.
  unfold process_response.
  destruct (parse_block json_loads text (clean_json text)) as [[md0 data0]|e] eqn:Hpb;
    [|discriminate].
  destruct (parse_block_scores _ _ _ _ Hpb) as [Hs0 Hmd].
  destruct (fold_left _ patterns _) as [scores found] eqn:Hfold.
  intros [= <- <-]. cbv zeta. cbn [originalScore errors annotatedEssay revisedScore].
  pose proof (fold_resolve_found md0 (clean_json text) patterns
                (originalScore data0, [])) as Hfound.
  rewrite Hfold in Hfound. cbn [snd app] in Hfound. subst found.
  split; [exact Hmd|]. split; [|split].
  - intros kp Hin.
    pose proof (fold_resolve_key md0 (clean_json text) patterns kp patterns_nodup Hin
                  (originalScore data0, [])) as Hk.
    rewrite Hfold in Hk. cbn [fst] in Hk. rewrite Hs0 in Hk.
    specialize (Hk (initial_dash kp Hin)).
    destruct (flat_map _ patterns); [exact Hk|].
    rewrite lookup_insert_ne; [exact Hk|].
    intros Heq. apply patterns_not_overall. rewrite Heq. now apply in_map.
  - pose proof (fold_resolve_other md0 (clean_json text) patterns "overall"
                  patterns_not_overall (originalScore data0, [])) as Ho.
    rewrite Hfold in Ho. cbn [fst] in Ho. rewrite Hs0 in Ho.
    destruct (flat_map _ patterns); [rewrite Ho; vm_compute; reflexivity|].
    now rewrite lookup_insert_eq.
  - exists data0. auto.
Qed.

Lemma valid_scores_length (scores : list pyval) :
  (length (valid_scores scores) <= length scores)%nat.
Proof.
  unfold valid_scores. induction scores as [|v l IH]; cbn; [lia|].
  destruct (PyVal.to_float v); cbn; lia.
Qed.

Lemma few_found (found : list pyval) :
  (length found < 4)%nat ->
  match found with [] => dash | _ => calculate_overall found end = dash.
Proof.
  intros Hlen. destruct found as [|v l]; [reflexivity|].
  rewrite calculate_overall_eq. cbv zeta.
  pose proof (valid_scores_length (v :: l)) as Hv.
  assert (Hlt : (length (valid_scores (v :: l)) <? 4)%nat = true)
    by (apply Nat.ltb_lt; lia).
  now rewrite Hlt.
Qed.

Lemma score_found_length (md : string) (js : option string) (kp : string * string) :
  (length (score_found md js kp) <= 1)%nat
  /\ (Regex.re_search true true kp.2 md = None ->
      structured_score json_loads js kp.1 = None ->
      score_found md js kp = []).
Proof.
  unfold score_found.
  destruct (Regex.re_search true true kp.2 md); [split; [cbn; lia|discriminate]|].
  destruct (structured_score json_loads js kp.1); [|split; [cbn; lia|reflexivity]].
  split; [|discriminate]. destruct (String.eqb _ dash); cbn; lia.
Qed.

(** C5 (amended): on a text in which [clean_json] finds no fenced block,
    [process_response] returns, the narrative is the whole text, the error
    list is empty, the annotated text and the revised score are absent;
    each sub-score is the number of its labeled Score line in the text when
    there is one and the sentinel otherwise, and the overall is the sentinel
    as soon as one of the four lines is missing.  With no such line at all,
    and so on the empty text, every field has its default.  A text that
    does not contain the opening marker is such a text. *)
Theorem C5_no_block :
  (forall text,
      clean_json text = None ->
      exists data,
        process_response json_loads text = Returns (text, data)
        /\ errors data = VList []
        /\ annotatedEssay data = VNone
        /\ revisedScore data = VNone
        /\ (forall key regex,
               In (key, regex) patterns ->
               originalScore data !! key =
               Some (match Regex.re_search true true regex text with
                     | Some m => Regex.group1 m
                     | None => dash
                     end))
        /\ ((exists key regex,
                In (key, regex) patterns
                /\ Regex.re_search true true regex text = None) ->
            originalScore data !! "overall" = Some dash)
        /\ ((forall key regex,
                In (key, regex) patterns ->
                Regex.re_search true true regex text = None) ->
            data = initial_data))
  /\ (forall text, PyStr.contains "```json" text = false -> clean_json text = None)
  /\ process_response json_loads EmptyString = Returns (EmptyString, initial_data).
Proof.
  split; [|split; [exact no_opener_no_block | vm_compute; reflexivity]].
  intros text Hnone.
  assert (Hret : exists data, process_response json_loads text = Returns (text, data)).
  { unfold process_response. rewrite Hnone. cbn [parse_block].
    destruct (fold_left _ patterns _) as [scores found]. eexists. reflexivity. }
  destruct Hret as [data Hret]. exists data.
  destruct (process_response_returns text text data Hret)
    as (_ & Hkeys & Hoverall & data0 & Hpb & He & Ha & Hr).
  rewrite Hnone in Hpb, Hkeys, Hoverall. cbn [parse_block] in Hpb.
  injection Hpb as <-.
  split; [exact Hret|]. split; [exact He|]. split; [exact Ha|]. split; [exact Hr|].
  split; [|split].
  - intros key regex Hin. exact (Hkeys (key, regex) Hin).
  - intros (key & regex & Hin & Hmiss). rewrite Hoverall. f_equal.
    apply few_found.
    assert (Hzero : score_found text None (key, regex) = [])
      by (apply score_found_length; [exact Hmiss | reflexivity]).
    pose proof (fun kp => proj1 (score_found_length text None kp)) as Hone.
    cbn [patterns flat_map]. rewrite !length_app.
    pose proof (Hone ("task_achievement", "Task\s+Achievement\s*Score.*?(\d+\.?\d*)")).
    pose proof (Hone ("cohesion_coherence", "Coherence\s*&\s*Cohesion\s*Score.*?(\d+\.?\d*)")).
    pose proof (Hone ("lexical_resource", "Lexical\s+Resource\s*Score.*?(\d+\.?\d*)")).
    pose proof (Hone ("grammatical_range", "Grammatical\s+Range.*?Score.*?(\d+\.?\d*)")).
    cbn in Hin.
    destruct Hin as [Heq|[Heq|[Heq|[Heq|[]]]]]; rewrite <- Heq in Hzero;
      rewrite Hzero; cbn [length]; lia.
  - intros Hall.
    assert (H1 := Hall _ _ (or_introl eq_refl)).
    assert (H2 := Hall _ _ (or_intror (or_introl eq_refl))).
    assert (H3 := Hall _ _ (or_intror (or_intror (or_introl eq_refl)))).
    assert (H4 := Hall _ _ (or_intror (or_intror (or_intror (or_introl eq_refl))))).
    revert Hret. unfold process_response. rewrite Hnone.
    cbn [parse_block patterns fold_left].
    unfold resolve. rewrite H1, H2, H3, H4. cbn [structured_score initial_data originalScore errors annotatedEssay revisedScore].
    now intros [= <-].
Qed.

(** C6: in a result of [process_response], each of the four sub-scores is
    resolved by two layers in order.  First the search of the narrative for
    the labeled Score line of the criterion, which does not depend on the
    case of the letters: when it succeeds the sub-score is the text
    captured, a decimal number.  Second, only when the
    search fails: when the block is parsed into a record whose
    [original_score] is a record, the text of its field for the criterion
    (the sentinel when the field is missing); when there is no block, or
    an empty one, or one that does not parse, or [original_score] is not a
    record, the sentinel. *)
Theorem C6_two_layers (text md : string) (data : report) :
  process_response json_loads text = Returns (md, data) ->
  md = narrative text
  /\ forall key regex,
      In (key, regex) patterns ->
      (forall s, Regex.re_search true true regex (PyStr.lower s)
                 = map PyStr.lower <$> Regex.re_search true true regex s)
      /\ (forall m, Regex.re_search true true regex md = Some m ->
                    originalScore data !! key = Some (Regex.group1 m)
                    /\ numeral (Regex.group1 m))
      /\ (Regex.re_search true true regex md = None ->
          forall js kvs sc,
            clean_json text = Some js -> js <> EmptyString ->
            json_loads js = Some (VDict kvs) ->
            PyVal.dict_get kvs "original_score" (VDict []) = VDict sc ->
            originalScore data !! key
            = Some (PyVal.str (PyVal.dict_get sc key (VStr dash))))
      /\ (Regex.re_search true true regex md = None ->
          (clean_json text = None
           \/ clean_json text = Some EmptyString
           \/ (exists js, clean_json text = Some js /\ json_loads js = None)
           \/ (exists js kvs,
                  clean_json text = Some js /\ json_loads js = Some (VDict kvs)
                  /\ forall sc, PyVal.dict_get kvs "original_score" (VDict [])
                                <> VDict sc)) ->
          originalScore data !! key = Some dash).
Proof.
  intros Hret.
  destruct (process_response_returns text md data Hret) as (Hmd & Hkeys & _).
  split; [exact Hmd|]. intros key regex Hin.
  specialize (Hkeys (key, regex) Hin). unfold score_text in Hkeys.
  cbn [fst snd] in Hkeys.
  split; [intros s; now apply (search_ignores_case key)|]. split; [|split].
  - intros m Hm. split; [now rewrite Hm in Hkeys|].
    exact (search_numeral key regex md m Hin Hm).
  - intros Hmiss js kvs sc Hjs Hne Hload Hsc. rewrite Hmiss, Hjs in Hkeys.
    unfold structured_score in Hkeys.
    destruct js as [|c js]; [contradiction|]. cbn [PyStr.falsy] in Hkeys.
    now rewrite Hload, Hsc in Hkeys.
  - intros Hmiss Hblock. rewrite Hmiss in Hkeys. rewrite Hkeys. f_equal.
    unfold structured_score.
    destruct Hblock as [->|[->|[(js & -> & Hload)|(js & kvs & -> & Hload & Hsc)]]];
      try reflexivity.
    + destruct (PyStr.falsy js); [reflexivity|]. now rewrite Hload.
    + destruct (PyStr.falsy js); [reflexivity|]. rewrite Hload.
      destruct (PyVal.dict_get kvs "original_score" (VDict [])) as [| | | | | |sc];
        try reflexivity.
      now destruct (Hsc sc).
Qed.

Lemma dict_get_cons (k : string) (x : pyval) (kvs : list (string * pyval))
    (key : string) (d : pyval) :
  PyVal.dict_get ((k, x) :: kvs) key d
  = if String.eqb k key then x else PyVal.dict_get kvs key d.
Proof. reflexivity. Qed.

Lemma dict_set_cons (k' : string) (x : pyval) (sc : list (string * pyval))
    (k : string) (v : pyval) :
  Json.dict_set ((k', x) :: sc) k v
  = if String.eqb k' k then (k', v) :: sc else (k', x) :: Json.dict_set sc k v.
Proof. reflexivity. Qed.

Lemma dict_get_set_other (sc : list (string * pyval)) (k key : string) (v d : pyval) :
  key <> k ->
  PyVal.dict_get (Json.dict_set sc k v) key d = PyVal.dict_get sc key d.
Proof.
  intros Hne. induction sc as [|[k' x] sc IH].
  - change (Json.dict_set [] k v) with [(k, v)]. rewrite dict_get_cons.
    destruct (String.eqb_spec k key); [congruence|reflexivity].
  - rewrite dict_set_cons.
    destruct (String.eqb_spec k' k) as [->|Hk]; rewrite !dict_get_cons.
    + destruct (String.eqb_spec k key); [congruence|reflexivity].
    + now rewrite IH.
Qed.

(** The record [kvs] with the overall figure stated in it set to [v]. *)
Lemma stated_cons (v : pyval) (k : string) (x : pyval) (kvs : list (string * pyval)) :
  set_stated_overall v (VDict ((k, x) :: kvs))
  = match set_stated_overall v (VDict kvs) with
    | VDict kvs' =>
        VDict ((if String.eqb k "original_score"
                then (k, with_overall v x)
                else (k, x)) :: kvs')
    | other => other
    end.
Proof. unfold set_stated_overall. cbn [map fst snd]. reflexivity. Qed.

Lemma stated_is_dict (v : pyval) (kvs : list (string * pyval)) :
  exists kvs', set_stated_overall v (VDict kvs) = VDict kvs'.
Proof. eexists. reflexivity. Qed.

Lemma stated_overall_other (v : pyval) (kvs kvs' : list (string * pyval))
    (key : string) (d : pyval) :
  key <> "original_score" ->
  set_stated_overall v (VDict kvs) = VDict kvs' ->
  PyVal.dict_get kvs' key d = PyVal.dict_get kvs key d.
Proof.
  intros Hne. revert kvs'. induction kvs as [|[k x] kvs IH]; intros kvs'.
  - now intros [= <-].
  - rewrite stated_cons. destruct (stated_is_dict v kvs) as [kvs0 H0].
    rewrite H0. intros [= <-].
    destruct (String.eqb_spec k "original_score") as [->|Hk]; rewrite !dict_get_cons.
    + destruct (String.eqb_spec "original_score" key); [congruence|now apply IH].
    + destruct (String.eqb k key); [reflexivity|now apply IH].
Qed.

Lemma stated_overall_score (v : pyval) (kvs kvs' : list (string * pyval)) (key : string) :
  key <> "overall" ->
  set_stated_overall v (VDict kvs) = VDict kvs' ->
  match PyVal.dict_get kvs' "original_score" (VDict []) with
  | VDict sc => Some (PyVal.dict_get sc key (VStr dash))
  | _ => None
  end =
  match PyVal.dict_get kvs "original_score" (VDict []) with
  | VDict sc => Some (PyVal.dict_get sc key (VStr dash))
  | _ => None
  end.
Proof.
  intros Hne. revert kvs'. induction kvs as [|[k x] kvs IH]; intros kvs'.
  - now intros [= <-].
  - rewrite stated_cons. destruct (stated_is_dict v kvs) as [kvs0 H0].
    rewrite H0. intros [= <-].
    destruct (String.eqb_spec k "original_score") as [->|Hk]; rewrite !dict_get_cons.
    + rewrite String.eqb_refl. destruct x; try reflexivity.
      cbn [with_overall]. now rewrite dict_get_set_other.
    + destruct (String.eqb_spec k "original_score"); [contradiction|now apply IH].
Qed.

(** The loader that changes nothing but the overall figure stated by the
    model. *)
Lemma parse_block_stated (v : pyval) (text : string) (js : option string) :
  parse_block (fun s => set_stated_overall v <$> json_loads s) text js
  = parse_block json_loads text js.
Proof.
  unfold parse_block. destruct js as [s|]; [|reflexivity].
  destruct (PyStr.falsy s); [reflexivity|].
  destruct (json_loads s) as [p|]; [|reflexivity].
  cbn [fmap option_fmap option_map].
  destruct p as [| | | | | |kvs]; try reflexivity.
  destruct (stated_is_dict v kvs) as [kvs' Hk]. rewrite Hk.
  rewrite !(stated_overall_other v kvs kvs') by (exact Hk || discriminate).
  reflexivity.
Qed.

Lemma structured_score_stated (v : pyval) (js : option string) (key : string) :
  key <> "overall" ->
  structured_score (fun s => set_stated_overall v <$> json_loads s) js key
  = structured_score json_loads js key.
Proof.
  intros Hne. unfold structured_score. destruct js as [s|]; [|reflexivity].
  destruct (PyStr.falsy s); [reflexivity|].
  destruct (json_loads s) as [p|]; [|reflexivity].
  cbn [fmap option_fmap option_map].
  destruct p as [| | | | | |kvs]; try reflexivity.
  destruct (stated_is_dict v kvs) as [kvs' Hk]. rewrite Hk.
  exact (stated_overall_score v kvs kvs' key Hne Hk).
Qed.

Lemma fold_resolve_stated (v : pyval) (md : string) (js : option string)
    (pats : list (string * string)) :
  ~ In "overall" (map fst pats) ->
  forall st,
    fold_left (resolve (fun s => set_stated_overall v <$> json_loads s) md js)
      pats st
    = fold_left (resolve json_loads md js) pats st.
Proof.
  induction pats as [|[key regex] pats IH]; intros Hnot st; [reflexivity|].
  cbn [fold_left]. rewrite IH by (intros H; apply Hnot; now right). f_equal.
  destruct st as [scores found]. unfold resolve.
  rewrite structured_score_stated; [reflexivity|].
  intros ->. apply Hnot. now left.
Qed.

(** C7: the overall of a result is the sentinel when no sub-score was
    recovered and otherwise [calculate_overall] of the sub-scores the two
    layers recovered; the figure the model states as overall inside
    [original_score] has no part in it: whatever that figure is changed to,
    the result of [process_response] is the same. *)
Theorem C7_overall_derived (text md : string) (data : report) :
  process_response json_loads text = Returns (md, data) ->
  let found := flat_map (score_found md (clean_json text)) patterns in
  originalScore data !! "overall"
  = Some (match found with [] => dash | _ => calculate_overall found end)
  /\ forall v,
      process_response (fun s => set_stated_overall v <$> json_loads s) text
      = Returns (md, data).
Proof.
  intros Hret found.
  destruct (process_response_returns text md data Hret) as (_ & _ & Hoverall & _).
  split; [exact Hoverall|].
  intros v. rewrite <- Hret. unfold process_response.
  rewrite parse_block_stated.
  destruct (parse_block json_loads text (clean_json text)) as [[md0 data0]|e];
    [|reflexivity].
  now rewrite (fold_resolve_stated v md0 (clean_json text) patterns patterns_not_overall).
Qed.

(** C4 (amended): when the block of a text parses into a record whose
    [original_score] holds the four sub-scores, and the narrative carries no
    labeled Score line, [process_response] returns each sub-score as the
    text of the value in the record and the overall as [calculate_overall]
    of the four values; when the values are scores of the band scale the
    overall is the band rule on their exact average, by which the averages
    6.25 and 6.5 both give 6.5 and the average 6.75 gives 7.0. *)
Theorem C4_structured_scores (text js : string) (kvs sc : list (string * pyval))
    (v1 v2 v3 v4 : pyval) :
  clean_json text = Some js -> js <> EmptyString ->
  json_loads js = Some (VDict kvs) ->
  PyVal.dict_get kvs "original_score" (VDict []) = VDict sc ->
  (forall key regex, In (key, regex) patterns ->
                     Regex.re_search true true regex (narrative text) = None) ->
  PyVal.dict_get sc "task_achievement" (VStr dash) = v1 ->
  PyVal.dict_get sc "cohesion_coherence" (VStr dash) = v2 ->
  PyVal.dict_get sc "lexical_resource" (VStr dash) = v3 ->
  PyVal.dict_get sc "grammatical_range" (VStr dash) = v4 ->
  PyVal.str v1 <> dash -> PyVal.str v2 <> dash ->
  PyVal.str v3 <> dash -> PyVal.str v4 <> dash ->
  (exists data,
      process_response json_loads text = Returns (narrative text, data)
      /\ originalScore data !! "task_achievement" = Some (PyVal.str v1)
      /\ originalScore data !! "cohesion_coherence" = Some (PyVal.str v2)
      /\ originalScore data !! "lexical_resource" = Some (PyVal.str v3)
      /\ originalScore data !! "grammatical_range" = Some (PyVal.str v4)
      /\ originalScore data !! "overall" = Some (calculate_overall [v1; v2; v3; v4])
      /\ forall k1 k2 k3 k4,
          on_band_scale k1 -> on_band_scale k2 ->
          on_band_scale k3 -> on_band_scale k4 ->
          PyVal.to_float v1 = Some (band k1) -> PyVal.to_float v2 = Some (band k2) ->
          PyVal.to_float v3 = Some (band k3) -> PyVal.to_float v4 = Some (band k4) ->
          originalScore data !! "overall" = Some (band_rule (average4 k1 k2 k3 k4)))
  /\ band_rule (average4 12 12 12 14) = "6.5"
  /\ band_rule (average4 12 12 14 14) = "6.5"
  /\ band_rule (average4 12 14 14 14) = "7.0".
Proof.
  intros Hjs Hne Hload Hsc Hmiss H1 H2 H3 H4 Hd1 Hd2 Hd3 Hd4.
  split; [|repeat split; vm_compute; reflexivity].
  assert (Htruthy : PyStr.falsy js = false) by (destruct js; [contradiction|reflexivity]).
  assert (Hnarr : narrative text = PyStr.strip (PyStr.split_head "```json" text)).
  { unfold narrative. rewrite Hjs. cbn [truthy]. now rewrite Htruthy. }
  assert (Hret : exists data,
             process_response json_loads text = Returns (narrative text, data)).
  { unfold process_response. rewrite Hjs. cbn [parse_block].
    rewrite Htruthy, Hload, <- Hnarr.
    destruct (fold_left _ patterns _) as [scores found]. eexists. reflexivity. }
  destruct Hret as [data Hret]. exists data.
  destruct (process_response_returns text _ data Hret) as (_ & Hkeys & Hoverall & _).
  assert (Hst : forall key, structured_score json_loads (Some js) key
                            = Some (PyVal.dict_get sc key (VStr dash))).
  { intros key. unfold structured_score. now rewrite Htruthy, Hload, Hsc. }
  assert (Htext : forall key regex, In (key, regex) patterns ->
            score_text (narrative text) (Some js) (key, regex)
            = PyVal.str (PyVal.dict_get sc key (VStr dash))).
  { intros key regex Hin. unfold score_text. cbn [fst snd].
    now rewrite (Hmiss key regex Hin), Hst. }
  assert (Hfound : forall key regex v, In (key, regex) patterns ->
            PyVal.dict_get sc key (VStr dash) = v -> PyVal.str v <> dash ->
            score_found (narrative text) (Some js) (key, regex) = [v]).
  { intros key regex v Hin Hv Hd. unfold score_found. cbn [fst snd].
    rewrite (Hmiss key regex Hin), Hst, Hv.
    destruct (String.eqb_spec (PyVal.str v) dash); [contradiction|reflexivity]. }
  rewrite Hjs in Hkeys, Hoverall.
  assert (Hk : forall key regex, In (key, regex) patterns ->
            originalScore data !! key
            = Some (PyVal.str (PyVal.dict_get sc key (VStr dash)))).
  { intros key regex Hin. rewrite <- (Htext key regex Hin).
    exact (Hkeys (key, regex) Hin). }
  assert (Hov : originalScore data !! "overall"
                = Some (calculate_overall [v1; v2; v3; v4])).
  { rewrite Hoverall. cbn [patterns flat_map].
    rewrite (Hfound _ _ v1), (Hfound _ _ v2), (Hfound _ _ v3), (Hfound _ _ v4);
      cbn; auto 6. }
  split; [exact Hret|].
  split; [rewrite <- H1; exact (Hk _ _ (or_introl eq_refl))|].
  split; [rewrite <- H2; exact (Hk _ _ (or_intror (or_introl eq_refl)))|].
  split; [rewrite <- H3;
          exact (Hk _ _ (or_intror (or_intror (or_introl eq_refl))))|].
  split; [rewrite <- H4;
          exact (Hk _ _ (or_intror (or_intror (or_intror (or_introl eq_refl)))))|].
  split; [exact Hov|].
  intros k1 k2 k3 k4 Hs1 Hs2 Hs3 Hs4 Hf1 Hf2 Hf3 Hf4.
  rewrite Hov. f_equal. rewrite calculate_overall_eq.
  assert (Hvalid : valid_scores [v1; v2; v3; v4] = [band k1; band k2; band k3; band k4]).
  { unfold valid_scores. cbn [omap list_omap]. now rewrite Hf1, Hf2, Hf3, Hf4. }
  rewrite Hvalid. cbv zeta. cbn [length Nat.ltb Nat.leb].
  rewrite (sum_band k1 k2 k3 k4 Hs1 Hs2 Hs3 Hs4).
  apply round_band. unfold on_band_scale in *. lia.
Qed.

End InterpreterProperties.

(** ** The interpreter on the example responses *)

(** C4 as stated fails: sub-scores 6.0, 6.0, 6.0 and 7.0, of average 6.25,
    are recovered and their overall is 6.5, not 6.0; and when the narrative
    gives a sub-score itself, it is that number which is kept, not the one of
    the block. *)
Lemma C4_average_6_25_gives_6_5 :
  let r := process_response Json.loads (Sample.report "6.0" "6.0" "6.0" "7.0") in
  let r' := process_response Json.loads
              (Sample.report_with_line "6.0" "6.0" "6.0" "7.0") in
  score_of "task_achievement" r = Some "6.0"
  /\ score_of "cohesion_coherence" r = Some "6.0"
  /\ score_of "lexical_resource" r = Some "6.0"
  /\ score_of "grammatical_range" r = Some "7.0"
  /\ score_of "overall" r = Some "6.5"
  /\ score_of "overall" r <> Some "6.0"
  /\ score_of "task_achievement" r' = Some "5.5"
  /\ score_of "task_achievement" r' <> Some "6.0".
Proof.
  assert (H : score_of "overall"
                (process_response Json.loads (Sample.report "6.0" "6.0" "6.0" "7.0"))
              = Some "6.5") by (vm_compute; reflexivity).
  assert (H' : score_of "task_achievement"
                 (process_response Json.loads
                    (Sample.report_with_line "6.0" "6.0" "6.0" "7.0"))
               = Some "5.5") by (vm_compute; reflexivity).
  cbv zeta. rewrite H, H'.
  repeat split; try (vm_compute; reflexivity); discriminate.
Qed.

Lemma C4_structured_scores_witness :
  let text := Sample.report "6" "6.0" "7.0" "7" in
  let v1 := VInt 6 in
  let v2 := VFloat (band 12) in
  let v3 := VFloat (band 14) in
  let v4 := VInt 7 in
  (exists data,
      process_response Json.loads text = Returns (narrative text, data)
      /\ originalScore data !! "task_achievement" = Some (PyVal.str v1)
      /\ originalScore data !! "cohesion_coherence" = Some (PyVal.str v2)
      /\ originalScore data !! "lexical_resource" = Some (PyVal.str v3)
      /\ originalScore data !! "grammatical_range" = Some (PyVal.str v4)
      /\ originalScore data !! "overall" = Some (calculate_overall [v1; v2; v3; v4])
      /\ forall k1 k2 k3 k4,
          on_band_scale k1 -> on_band_scale k2 ->
          on_band_scale k3 -> on_band_scale k4 ->
          PyVal.to_float v1 = Some (band k1) -> PyVal.to_float v2 = Some (band k2) ->
          PyVal.to_float v3 = Some (band k3) -> PyVal.to_float v4 = Some (band k4) ->
          originalScore data !! "overall" = Some (band_rule (average4 k1 k2 k3 k4)))
  /\ band_rule (average4 12 12 12 14) = "6.5"
  /\ band_rule (average4 12 12 14 14) = "6.5"
  /\ band_rule (average4 12 14 14 14) = "7.0".
Proof.
  intros text v1 v2 v3 v4.
  pose (js := default EmptyString (clean_json text)).
  pose (kvs := match Json.loads js with Some (VDict kvs) => kvs | _ => [] end).
  pose (sc := match PyVal.dict_get kvs "original_score" (VDict []) with
              | VDict sc => sc
              | _ => []
              end).
  refine (C4_structured_scores Json.loads text js kvs sc v1 v2 v3 v4
            _ _ _ _ _ _ _ _ _ _ _ _ _).
  - vm_compute. reflexivity.
  - vm_compute. discriminate.
  - vm_compute. reflexivity.
  - vm_compute. reflexivity.
  - intros key regex Hin. cbn in Hin.
    destruct Hin as [Heq|[Heq|[Heq|[Heq|[]]]]]; injection Heq as <- <-;
      vm_compute; reflexivity.
  - vm_compute. reflexivity.
  - vm_compute. reflexivity.
  - vm_compute. reflexivity.
  - vm_compute. reflexivity.
  - vm_compute. discriminate.
  - vm_compute. discriminate.
  - vm_compute. discriminate.
  - vm_compute. discriminate.
Defined.

(** C5 as stated fails: a text without a fenced block whose one line
    gives the first sub-score has that sub-score recovered. *)
Lemma C5_labeled_line_is_read :
  ~ (forall text,
        clean_json text = None ->
        forall key, In key ["task_achievement"; "cohesion_coherence";
                            "lexical_resource"; "grammatical_range"; "overall"] ->
                    score_of key (process_response Json.loads text) = Some dash).
Proof.
  intros H.
  specialize (H Sample.labeled_line ltac:(vm_compute; reflexivity)
                "task_achievement" ltac:(cbn; auto)).
  vm_compute in H. discriminate H.
Qed.

Lemma C5_no_block_witness :
  (exists data,
      process_response Json.loads Sample.labeled_line
      = Returns (Sample.labeled_line, data)
      /\ errors data = VList []
      /\ annotatedEssay data = VNone
      /\ revisedScore data = VNone
      /\ (forall key regex,
             In (key, regex) patterns ->
             originalScore data !! key =
             Some (match Regex.re_search true true regex Sample.labeled_line with
                   | Some m => Regex.group1 m
                   | None => dash
                   end))
      /\ ((exists key regex,
              In (key, regex) patterns
              /\ Regex.re_search true true regex Sample.labeled_line = None) ->
          originalScore data !! "overall" = Some dash)
      /\ ((forall key regex,
              In (key, regex) patterns ->
              Regex.re_search true true regex Sample.labeled_line = None) ->
          data = initial_data))
  /\ (exists data,
         process_response Json.loads Sample.plain = Returns (Sample.plain, data)
         /\ data = initial_data).
Proof.
  split.
  - apply (proj1 (C5_no_block Json.loads) Sample.labeled_line).
    vm_compute. reflexivity.
  - destruct (proj1 (C5_no_block Json.loads) Sample.plain
                ltac:(vm_compute; reflexivity))
      as (data & Hret & _ & _ & _ & _ & _ & Hall).
    exists data. split; [exact Hret|]. apply Hall.
    intros key regex Hin. cbn in Hin.
    destruct Hin as [Heq|[Heq|[Heq|[Heq|[]]]]]; injection Heq as <- <-;
      vm_compute; reflexivity.
Defined.

Lemma mixed_returns :
  exists data,
    process_response Json.loads Sample.mixed
    = Returns ("### Task   achievement SCORE (strict): 6.5 out of 9", data)
    /\ originalScore data !! "task_achievement" = Some "6.5"
    /\ originalScore data !! "cohesion_coherence" = Some "7"
    /\ originalScore data !! "lexical_resource" = Some "n/a"
    /\ originalScore data !! "grammatical_range" = Some dash
    /\ originalScore data !! "overall" = Some dash.
Proof.
  destruct (process_response Json.loads Sample.mixed) as [[md data]|e] eqn:H;
    vm_compute in H; [|discriminate H].
  injection H as <- <-. eexists. split; [reflexivity|].
  repeat split; vm_compute; reflexivity.
Defined.

Lemma C6_two_layers_witness :
  exists md data,
    process_response Json.loads Sample.mixed = Returns (md, data)
    /\ md = narrative Sample.mixed
    /\ forall key regex,
        In (key, regex) patterns ->
        (forall s, Regex.re_search true true regex (PyStr.lower s)
                   = map PyStr.lower <$> Regex.re_search true true regex s)
        /\ (forall m, Regex.re_search true true regex md = Some m ->
                      originalScore data !! key = Some (Regex.group1 m)
                      /\ numeral (Regex.group1 m))
        /\ (Regex.re_search true true regex md = None ->
            forall js kvs sc,
              clean_json Sample.mixed = Some js -> js <> EmptyString ->
              Json.loads js = Some (VDict kvs) ->
              PyVal.dict_get kvs "original_score" (VDict []) = VDict sc ->
              originalScore data !! key
              = Some (PyVal.str (PyVal.dict_get sc key (VStr dash))))
        /\ (Regex.re_search true true regex md = None ->
            (clean_json Sample.mixed = None
             \/ clean_json Sample.mixed = Some EmptyString
             \/ (exists js, clean_json Sample.mixed = Some js /\ Json.loads js = None)
             \/ (exists js kvs,
                    clean_json Sample.mixed = Some js
                    /\ Json.loads js = Some (VDict kvs)
                    /\ forall sc, PyVal.dict_get kvs "original_score" (VDict [])
                                  <> VDict sc)) ->
            originalScore data !! key = Some dash).
Proof.
  destruct mixed_returns as (data & Hret & _).
  eexists. exists data. split; [exact Hret|].
  exact (C6_two_layers Json.loads Sample.mixed _ data Hret).
Defined.

Lemma C7_overall_derived_witness :
  exists md data,
    process_response Json.loads (Sample.report "6.0" "6.0" "6.0" "7.0")
    = Returns (md, data)
    /\ originalScore data !! "overall"
       = Some (match flat_map
                       (score_found Json.loads md
                          (clean_json (Sample.report "6.0" "6.0" "6.0" "7.0")))
                       patterns with
               | [] => dash
               | found => calculate_overall found
               end)
    /\ forall v,
        process_response (fun s => set_stated_overall v <$> Json.loads s)
          (Sample.report "6.0" "6.0" "6.0" "7.0")
        = Returns (md, data).
Proof.
  destruct (process_response Json.loads (Sample.report "6.0" "6.0" "6.0" "7.0"))
    as [[md data]|e] eqn:H; [|vm_compute in H; discriminate H].
  exists md, data. split; [reflexivity|].
  pose proof (C7_overall_derived Json.loads
                (Sample.report "6.0" "6.0" "6.0" "7.0") md data H) as [Ho Hv].
  split; [|exact Hv].
  rewrite Ho. destruct (flat_map _ patterns); reflexivity.
Defined.

(** * Further properties *)

(** ** The dispatcher: what a run shows and asks *)

Lemma substring_all (s : string) : String.substring 0 (String.length s) s = s.
Proof. induction s as [|c s IH]; [reflexivity|]. cbn. now rewrite IH. Qed.




Lemma no_thinking_model (available_models : list string) :
  PyStr.contains "thinking" (PyStr.lower (select_model available_models)) = false.
Proof.
  pose proof (select_model_in available_models) as Hin.
  revert Hin. generalize (select_model available_models). intros m.
  unfold model_priority. simpl.
  intros H. repeat (destruct H as [<-|H]; [vm_compute; reflexivity|]). destruct H.
Qed.

Section DispatcherFurther.

Context {Response Image : Type}.
Variable list_models : nat -> string -> string + list model_info.
Variable generate_content :
  nat -> string -> string -> string -> option Image -> bool -> string + Response.
Variable prompt : string.
Variable image : option Image.

Local Abbreviation attempt := (attempt list_models generate_content prompt image).
Local Abbreviation failover_loop :=
  (failover_loop list_models generate_content prompt image).
Local Abbreviation run :=
  (generate_content_with_failover list_models generate_content prompt image).

(** A run, whatever the store holds at [ALL_KEYS]. *)
Lemma run_trace (w : world) :
  exists evs r,
    failover_loop 0 (traversal w) EmptyString = (evs, r)
    /\ events_since w (run w).2 =
       evs ++ match r with
              | inr _ => []
              | inl last_error => [ErrorBox (length (traversal w)) last_error]
              end.
Proof.
  unfold generate_content_with_failover, list_copy, random_shuffle, traversal.
  cbn [heap tape ALL_KEYS trace]. rewrite lookup_insert_eq. cbn [default from_option id].
  destruct (shuffle (tape w) (default [] (heap w !! ALL_KEYS w))) as [l tape'] eqn:Hs.
  cbn [heap tape ALL_KEYS trace fst snd]. rewrite lookup_insert_eq.
  cbn [default from_option id].
  destruct (failover_loop 0 l EmptyString) as [evs [e|[response m]]] eqn:Hl;
    eexists _, _; (split; [reflexivity|]); cbn [snd];
    rewrite ?app_nil_r; now apply events_since_emit.
Qed.

(** The events of one attempt. *)
Lemma attempt_events (index : nat) (key : string) :
  forall ev, In ev (attempt index key).1 ->
    thinking_on ev = false
    /\ match ev with
       | DebugInfo sel_model masked_key key_number _ =>
           masked_key = "****" +:+ PyStr.last_chars 4 key
           /\ key_number = S index
       | GenerateContent m _ _ => In m model_priority
       | Configure k => k = key
       | ErrorBox _ _ => False
       | _ => True
       end.
Proof.
  intros ev. unfold attempt.
  destruct (list_models index key) as [e|models]; cbn [fst].
  - intros [<-|[<-|[]]]; now split.
  - assert (Hall : In ev
               ([Configure key; ListModels]
                ++ [Toast (select_model (generation_models models));
                    DebugInfo (select_model (generation_models models))
                      ("****" +:+ PyStr.last_chars 4 key) (index + 1)
                      (PyStr.contains "thinking"
                         (PyStr.lower (select_model (generation_models models))));
                    GenerateContent (select_model (generation_models models))
                      match image with Some _ => 2%nat | None => 1%nat end
                      (PyStr.contains "thinking"
                         (PyStr.lower (select_model (generation_models models))))]) ->
             thinking_on ev = false
             /\ match ev with
                | DebugInfo sel_model masked_key key_number _ =>
                    masked_key = "****" +:+ PyStr.last_chars 4 key
                    /\ key_number = S index
                | GenerateContent m _ _ => In m model_priority
                | Configure k => k = key
                | ErrorBox _ _ => False
                | _ => True
                end).
    { cbn [app]. intros [<-|[<-|[<-|[<-|[<-|[]]]]]]; cbn [thinking_on];
        rewrite ?no_thinking_model; (split; [reflexivity|]); auto.
      - split; [reflexivity|lia].
      - apply select_model_in. }
    destruct (generate_content _ _ _ _ _ _); exact Hall.
Qed.

(** The events of the loop: each belongs to the attempt at some position
    of the list. *)
Lemma loop_events (keys : list string) :
  forall (index : nat) (last_error : string) evs r,
    failover_loop index keys last_error = (evs, r) ->
    forall ev, In ev evs ->
      exists i key, keys !! i = Some key /\ In ev (attempt (index + i) key).1.
Proof.
  induction keys as [|k keys IH]; intros index last_error evs r.
  - intros [= <- <-] ev [].
  - rewrite loop_cons.
    destruct (attempt index k) as [evs0 [e|ok]] eqn:Hat.
    + destruct (retryable e).
      * destruct (failover_loop (S index) keys e) as [evs' r'] eqn:Hl.
        intros [= <- <-] ev Hin. apply in_app_or in Hin. destruct Hin as [Hin|Hin].
        -- exists O, k. rewrite Nat.add_0_r, Hat. now split.
        -- destruct (IH _ _ _ _ Hl ev Hin) as (i & key & Hi & Hev).
           exists (S i), key. rewrite Nat.add_succ_r. now split.
      * intros [= <- <-] ev Hin. exists O, k. rewrite Nat.add_0_r, Hat. now split.
    + intros [= <- <-] ev Hin. exists O, k. rewrite Nat.add_0_r, Hat. now split.
Qed.

Lemma generations_app (tr1 tr2 : list event) :
  generations (tr1 ++ tr2) = generations tr1 ++ generations tr2.
Proof. apply omap_app. Qed.

Lemma attempt_generations (index : nat) (key : string) :
  (length (generations (attempt index key).1) <= 1)%nat.
Proof.
  unfold attempt. destruct (list_models index key); [cbn; lia|].
  destruct (generate_content _ _ _ _ _ _); cbn; lia.
Qed.

Lemma loop_generations (keys : list string) :
  forall (index : nat) (last_error : string) evs r,
    failover_loop index keys last_error = (evs, r) ->
    (length (generations evs) <= length (attempted evs))%nat.
Proof.
  induction keys as [|k keys IH]; intros index last_error evs r.
  - intros [= <- <-]. cbn. lia.
  - rewrite loop_cons.
    pose proof (attempt_attempted list_models generate_content prompt image index k) as Hk.
    pose proof (attempt_generations index k) as Hg.
    destruct (attempt index k) as [evs0 [e|ok]] eqn:Hat; cbn [fst] in Hk, Hg.
    + destruct (retryable e).
      * destruct (failover_loop (S index) keys e) as [evs' r'] eqn:Hl.
        intros [= <- <-]. specialize (IH _ _ _ _ Hl).
        rewrite generations_app, attempted_app, !length_app, Hk. cbn. lia.
      * intros [= <- <-]. rewrite Hk. cbn. lia.
    + intros [= <- <-]. rewrite Hk. cbn. lia.
Qed.

(** X1: a run never switches the thinking mode on: no debug panel reports
    it and no generation request carries the thinking configuration,
    because every model a request names is an entry of the priority list
    and none of these has "thinking" in its name. *)
Theorem thinking_mode_never_on (w : world) :
  let tr := events_since w (run w).2 in
  Forall (fun ev => thinking_on ev = false) tr
  /\ Forall (fun m => In m model_priority
                      /\ PyStr.contains "thinking" (PyStr.lower m) = false)
            (generations tr).
Proof.
  cbv zeta. destruct (run_trace w) as (evs & r & Hl & ->).
  assert (Hev : forall ev, In ev evs ->
                  thinking_on ev = false
                  /\ match ev with
                     | GenerateContent m _ _ => In m model_priority
                     | _ => True
                     end).
  { intros ev Hin. destruct (loop_events _ _ _ _ _ Hl ev Hin) as (i & key & _ & Hat).
    destruct (attempt_events _ _ ev Hat) as [Ht Hm]. split; [exact Ht|].
    now destruct ev. }
  split.
  - apply Forall_app. split.
    + apply List.Forall_forall. intros ev Hin. now apply Hev.
    + destruct r; repeat constructor.
  - rewrite generations_app.
    replace (generations match r with
                         | inl last_error => [ErrorBox (length (traversal w)) last_error]
                         | inr _ => []
                         end) with (@nil string) by now destruct r.
    rewrite app_nil_r. apply List.Forall_forall. intros m Hin.
    unfold generations in Hin. apply list_elem_of_In, list_elem_of_omap in Hin.
    destruct Hin as (ev & Hin & Hm). apply list_elem_of_In in Hin.
    destruct ev; try discriminate. injection Hm as ->.
    destruct (Hev _ Hin) as [_ Hp]. split; [exact Hp|].
    revert Hp. unfold model_priority. simpl.
    intros H. repeat (destruct H as [<-|H]; [vm_compute; reflexivity|]). destruct H.
Qed.


(** X3: a run uses only configured keys, each for at most one attempt and
    each attempt for at most one generation request: the keys tried are
    among the configured ones and no more numerous, none is tried twice
    when the configured keys are distinct, and with no key configured the
    run makes no attempt and reports a failure that cites zero keys and an
    empty error text. *)
Theorem keys_tried_once (w : world) (keys : list string) :
  heap w !! ALL_KEYS w = Some keys ->
  let tr := events_since w (run w).2 in
  (length (generations tr) <= length (attempted tr) <= length keys)%nat
  /\ (forall key, In key (attempted tr) -> In key keys)
  /\ (List.NoDup keys -> List.NoDup (attempted tr))
  /\ (keys = [] -> (run w).1 = (None, None) /\ tr = [ErrorBox 0 EmptyString]).
Proof.
  intros Hk tr.
  assert (Hperm : traversal w ≡ₚ keys).
  { unfold traversal. rewrite Hk. apply shuffle_perm. }
  destruct (failover_loop 0 (traversal w) EmptyString) as [evs r] eqn:Hl.
  destruct (run_events list_models generate_content prompt image w keys Hk _ _ Hl)
    as [Hret Hev].
  destruct (loop_result _ _ _ _ _ _ _ _ _ Hl) as (_ & [n Hn] & _).
  pose proof (loop_generations _ _ _ _ _ Hl) as Hg.
  assert (Ha : attempted tr = take n (traversal w)
               /\ generations tr = generations evs).
  { subst tr. rewrite Hev. destruct r as [e|ok]; [|now split].
    rewrite attempted_app, generations_app. cbn. now rewrite !app_nil_r. }
  destruct Ha as [Ha Hgen]. rewrite Ha, Hgen.
  split; [|split; [|split]].
  - rewrite <- Hn. split; [exact Hg|]. rewrite Hn, length_take.
    apply Permutation_length in Hperm. lia.
  - intros key Hin. apply list_elem_of_In. rewrite <- Hperm.
    apply list_elem_of_In, elem_of_take in Hin. destruct Hin as (i & Hi & _).
    now apply list_elem_of_lookup_2 in Hi.
  - intros Hnd. apply NoDup_ListNoDup. apply NoDup_ListNoDup in Hnd.
    rewrite <- Hperm, <- (take_drop n (traversal w)) in Hnd.
    now apply NoDup_app in Hnd as [Hnd _].
  - intros ->. apply Permutation_nil_r in Hperm. rewrite Hperm in Hl.
    cbn in Hl. injection Hl as <- <-. subst tr. rewrite Hret, Hev. now split.
Qed.

End DispatcherFurther.

Lemma keys_tried_once_witness :
  let run := generate_content_with_failover Demo.models Demo.second_answers
               "prompt" None in
  let tr := events_since Demo.w (run Demo.w).2 in
  (length (generations tr) <= length (attempted tr) <= length Demo.keys)%nat
  /\ (forall key, In key (attempted tr) -> In key Demo.keys)
  /\ (List.NoDup Demo.keys -> List.NoDup (attempted tr))
  /\ (Demo.keys = [] -> (run Demo.w).1 = (None, None)
                        /\ tr = [ErrorBox 0 EmptyString]).
Proof.
  exact (keys_tried_once Demo.models Demo.second_answers "prompt" None
           Demo.w Demo.keys example_bound).
Defined.

(** ** The fenced block *)

(** A match, with the part of the subject each item consumes. *)
Lemma star_split (p : ascii -> bool) (k : Regex.matcher) (s : string) :
  forall st x,
    Regex.star p k s st = Some x ->
    exists run s', s = run +:+ s' /\ every p run = true
                   /\ k s' (push run st) = Some x.
Proof.
  induction s as [|c s IH]; intros st x; cbn [Regex.star].
  - intros H. exists EmptyString, EmptyString. now rewrite push_empty.
  - destruct (p c) eqn:Hc.
    + destruct (Regex.star p k s (Regex.consume c st)) as [y|] eqn:Hs; cbn [Regex.orelse].
      * intros [= <-]. destruct (IH _ _ Hs) as (run & s' & -> & Hrun & Hk).
        exists (String c run), s'. cbn [every]. now rewrite Hc, Hrun, push_cons.
      * intros H. exists EmptyString, (String c s). now rewrite push_empty.
    + intros H. exists EmptyString, (String c s). now rewrite push_empty.
Qed.

Lemma star_lazy_split (p : ascii -> bool) (k : Regex.matcher) (s : string) :
  forall st x,
    Regex.star_lazy p k s st = Some x ->
    exists run s', s = run +:+ s' /\ every p run = true
                   /\ k s' (push run st) = Some x.
Proof.
  induction s as [|c s IH]; intros st x; cbn [Regex.star_lazy].
  - destruct (k EmptyString st) as [y|] eqn:Hk; cbn [Regex.orelse]; [|discriminate].
    intros [= <-]. exists EmptyString, EmptyString. now rewrite push_empty.
  - destruct (k (String c s) st) as [y|] eqn:Hk; cbn [Regex.orelse].
    + intros [= <-]. exists EmptyString, (String c s). now rewrite push_empty.
    + destruct (p c) eqn:Hc; [|discriminate].
      intros Hs. destruct (IH _ _ Hs) as (run & s' & -> & Hrun & Hk').
      exists (String c run), s'. cbn [every]. now rewrite Hc, Hrun, push_cons.
Qed.

Lemma literal_split (lits : string) (r : Regex.regex) :
  forall s st x,
    Regex.compile (literal_items lits ++ r) s st = Some x ->
    exists s', s = lits +:+ s' /\ Regex.compile r s' (push lits st) = Some x.
Proof.
  induction lits as [|c lits IH]; intros s st x.
  - cbn. intros H. exists s. now rewrite push_empty.
  - cbn [literal_items list_ascii_of_string map app Regex.compile Regex.in_class].
    unfold Regex.one. destruct s as [|a s]; [discriminate|].
    destruct (Ascii.eqb_spec c a) as [->|Hne]; [|discriminate].
    intros H. destruct (IH _ _ _ H) as (s' & -> & H').
    exists s'. now rewrite push_cons.
Qed.

(** A pattern made of literal characters matches where the subject begins
    with them. *)
Lemma literal_match (lits : string) (r : Regex.regex) (s : string) (st : Regex.mstate) :
  Regex.compile (literal_items lits ++ r) (lits +:+ s) st
  = Regex.compile r s (push lits st).
Proof.
  revert st. induction lits as [|c lits IH]; intros st.
  - now rewrite push_empty.
  - cbn [literal_items list_ascii_of_string map app Regex.compile Regex.in_class].
    rewrite app_cons. unfold Regex.one. rewrite Ascii.eqb_refl, push_cons. apply IH.
Qed.

Lemma search_split (r : Regex.regex) (s : string) (gs : list string) :
  Regex.search r s = Some gs ->
  exists pre s0 rest, s = pre +:+ s0 /\ Regex.match_here r s0 = Some (gs, rest).
Proof.
  induction s as [|c s IH]; cbn [Regex.search].
  - destruct (Regex.match_here r EmptyString) as [[gs' rest]|] eqn:H; [|discriminate].
    intros [= <-]. exists EmptyString, EmptyString, rest. now split.
  - destruct (Regex.match_here r (String c s)) as [[gs' rest]|] eqn:H.
    + intros [= <-]. exists EmptyString, (String c s), rest. now split.
    + intros Hs. destruct (IH Hs) as (pre & s0 & rest & -> & Hm).
      exists (String c pre), s0, rest. now split.
Qed.

(** The search finds a match as soon as some position has one. *)
Lemma search_complete (r : Regex.regex) (pre s : string) (x : list string * string) :
  Regex.match_here r s = Some x ->
  exists gs, Regex.search r (pre +:+ s) = Some gs.
Proof.
  intros Hm. induction pre as [|c pre IH].
  - rewrite app_empty_l. destruct x as [gs rest].
    exists gs. destruct s; cbn [Regex.search]; now rewrite Hm.
  - rewrite app_cons. cbn [Regex.search].
    destruct (Regex.match_here r (String c (pre +:+ s))) as [[gs rest]|]; [now exists gs|].
    exact IH.
Qed.

Lemma any_char (c : ascii) :
  Regex.in_class (Regex.Union Regex.Space (Regex.Union (Regex.Not Regex.Space) Regex.Nothing)) c
  = true.
Proof. cbn [Regex.in_class]. now destruct (PyStr.isspace c). Qed.

Lemma fence_tail_eq :
  fence_tail =
  [ Regex.Atom Regex.Space Regex.Star; Regex.GroupOpen;
    Regex.Atom (Regex.Union Regex.Space (Regex.Union (Regex.Not Regex.Space) Regex.Nothing))
      Regex.StarLazy;
    Regex.GroupClose; Regex.Atom Regex.Space Regex.Star ] ++ literal_items "```".
Proof. vm_compute. reflexivity. Qed.

(** A greedy run of blanks in front of a continuation that succeeds on
    every text holding the closing marker. *)
Lemma star_blank_closes (k : Regex.matcher) :
  (forall a b st, is_Some (k (a +:+ "```" +:+ b) st)) ->
  forall a b st,
    is_Some (Regex.star (Regex.in_class Regex.Space) k (a +:+ "```" +:+ b) st).
Proof.
  intros Hk a. induction a as [|c a IH]; intros b st.
  - rewrite app_empty_l. cbn. apply (Hk EmptyString).
  - rewrite app_cons. cbn [Regex.star].
    destruct (Regex.in_class Regex.Space c).
    + destruct (IH b (Regex.consume c st)) as [y ->]. cbn. eauto.
    + apply (Hk (String c a)).
Qed.

Lemma star_lazy_closes (k : Regex.matcher) :
  (forall b st, is_Some (k ("```" +:+ b) st)) ->
  forall a b st,
    is_Some (Regex.star_lazy
               (Regex.in_class (Regex.Union Regex.Space
                                  (Regex.Union (Regex.Not Regex.Space) Regex.Nothing)))
               k (a +:+ "```" +:+ b) st).
Proof.
  intros Hk a. induction a as [|c a IH]; intros b st.
  - rewrite app_empty_l. destruct (Hk b st) as [y Hy].
    change ("```" +:+ b) with (String "`" (String "`" (String "`" b))) in *.
    cbn [Regex.star_lazy]. rewrite Hy. cbn. eauto.
  - rewrite app_cons. cbn [Regex.star_lazy]. rewrite any_char.
    destruct (k _ st) as [y|]; cbn [Regex.orelse]; [eauto|]. apply IH.
Qed.

(** The pattern of the block matches at an opening marker that a closing
    one follows. *)
Lemma fence_matches (mid post : string) :
  is_Some (Regex.match_here (literal_items "```json" ++ fence_tail)
             ("```json" +:+ mid +:+ "```" +:+ post)).
Proof.
  unfold Regex.match_here. rewrite literal_match, fence_tail_eq.
  cbn [app Regex.compile].
  apply (star_blank_closes
           (fun s st => Regex.star_lazy _ _ s (Regex.open_group st))).
  intros a b st. apply star_lazy_closes.
  intros b' st'. cbn [Regex.compile].
  change ("```" +:+ b') with (String "`" (String "`" (String "`" b'))).
  cbn [Regex.star]. change (Regex.in_class Regex.Space "`") with false. cbv iota.
  change (String "`" (String "`" (String "`" b'))) with ("```" +:+ b').
  rewrite <- (app_nil_r (literal_items "```")), literal_match. cbn. eauto.
Qed.

(** X4: [clean_json] finds a block exactly in the texts that hold the
    opening marker and, somewhere after it, three backquotes; it returns
    [None] on all the others. *)
Theorem clean_json_finds_fence (text : string) :
  (exists js, clean_json text = Some js) <-> fenced text.
Proof.
  unfold clean_json, Regex.re_search.
  change "```json\s*([\s\S]*?)\s*```" with fence_pattern.
  rewrite fence_parsed. split.
  - intros [js Hjs].
    destruct (Regex.search _ text) as [gs|] eqn:Hs; [|discriminate]. clear Hjs.
    destruct (search_split _ _ _ Hs) as (pre & s0 & rest & -> & Hm).
    unfold Regex.match_here in Hm.
    destruct (literal_split _ _ _ _ _ Hm) as (s1 & -> & H1).
    rewrite fence_tail_eq in H1. cbn [app Regex.compile] in H1.
    destruct (star_split _ _ _ _ _ H1) as (ws & s2 & -> & _ & H2).
    destruct (star_lazy_split _ _ _ _ _ H2) as (run & s3 & -> & _ & H3).
    destruct (star_split _ _ _ _ _ H3) as (ws' & s4 & -> & _ & H4).
    rewrite <- (app_nil_r (literal_items "```")) in H4.
    destruct (literal_split _ _ _ _ _ H4) as (post & -> & _).
    exists pre, (ws +:+ run +:+ ws'), post. now rewrite !append_assoc.
  - intros (pre & mid & post & ->).
    destruct (fence_matches mid post) as [x Hx].
    destruct (search_complete _ pre _ x Hx) as [gs ->]. eauto.
Qed.

(** ** What [clean_json] returns *)

Lemma every_app (p : ascii -> bool) (a b : string) :
  every p (a +:+ b) = every p a && every p b.
Proof.
  induction a as [|c a IH]; [reflexivity|].
  rewrite app_cons. cbn [every]. now rewrite IH, andb_assoc.
Qed.

Lemma every_rev (p : ascii -> bool) (s : string) :
  every p (PyStr.rev s) = every p s.
Proof.
  induction s as [|c s IH]; [reflexivity|].
  change (String c s) with (String c EmptyString +:+ s) at 1.
  rewrite rev_app, every_app, IH. cbn. now rewrite andb_true_r, andb_comm.
Qed.

(** What [lstrip] removes is a run of blanks at the start. *)
Lemma lstrip_split (s : string) :
  exists ws, s = ws +:+ PyStr.lstrip s /\ every PyStr.isspace ws = true.
Proof.
  induction s as [|c s IH]; [now exists EmptyString|].
  cbn [PyStr.lstrip]. destruct (PyStr.isspace c) eqn:Hc.
  - destruct IH as (ws & Heq & Hws). exists (String c ws).
    rewrite app_cons, <- Heq. cbn [every]. now rewrite Hc, Hws.
  - now exists EmptyString.
Qed.

(** A text that does not begin with a blank. *)
Definition begins_tight (s : string) : Prop :=
  match s with
  | String c _ => PyStr.isspace c = false
  | EmptyString => True
  end.

Lemma lstrip_tight (s : string) : begins_tight (PyStr.lstrip s).
Proof.
  induction s as [|c s IH]; [exact I|].
  cbn [PyStr.lstrip]. destruct (PyStr.isspace c) eqn:Hc; [exact IH | exact Hc].
Qed.

Lemma lstrip_id (s : string) : begins_tight s -> PyStr.lstrip s = s.
Proof. destruct s as [|c s]; [reflexivity|]. cbn. now intros ->. Qed.

(** [strip] takes blanks off both ends, and what it returns has none at
    either end. *)
Lemma strip_split (s : string) :
  exists a b, s = a +:+ PyStr.strip s +:+ b
              /\ every PyStr.isspace a = true /\ every PyStr.isspace b = true.
Proof.
  unfold PyStr.strip.
  destruct (lstrip_split s) as (a & Ha & Hwa).
  destruct (lstrip_split (PyStr.rev (PyStr.lstrip s))) as (b & Hb & Hwb).
  exists a, (PyStr.rev b). rewrite every_rev. split; [|now split].
  rewrite <- rev_app, <- Hb, rev_rev. exact Ha.
Qed.

Lemma strip_tight (s : string) :
  begins_tight (PyStr.strip s) /\ begins_tight (PyStr.rev (PyStr.strip s)).
Proof.
  unfold PyStr.strip. rewrite rev_rev. split; [|apply lstrip_tight].
  pose proof (lstrip_tight s) as Ht.
  destruct (lstrip_split (PyStr.rev (PyStr.lstrip s))) as (b & Hb & _).
  apply (f_equal PyStr.rev) in Hb. rewrite rev_rev, rev_app in Hb.
  destruct (PyStr.rev (PyStr.lstrip (PyStr.rev (PyStr.lstrip s)))) as [|c r];
    [exact I|].
  rewrite Hb in Ht. exact Ht.
Qed.

Lemma strip_id (s : string) :
  begins_tight s -> begins_tight (PyStr.rev s) -> PyStr.strip s = s.
Proof.
  intros H1 H2. unfold PyStr.strip. now rewrite (lstrip_id s H1), (lstrip_id _ H2), rev_rev.
Qed.

Lemma strip_idempotent (s : string) : PyStr.strip (PyStr.strip s) = PyStr.strip s.
Proof. destruct (strip_tight s). now apply strip_id. Qed.

Lemma every_strip (p : ascii -> bool) (s : string) :
  every p s = true -> every p (PyStr.strip s) = true.
Proof.
  destruct (strip_split s) as (a & b & Heq & _). intros H.
  rewrite Heq, !every_app, !andb_true_iff in H. tauto.
Qed.

(** Deleting the matches of a one-character class leaves no character of
    the class. *)
Lemma sub_delete_class (k : Regex.cls) (fuel : nat) :
  forall s, (String.length s < fuel)%nat ->
    every (fun c => negb (Regex.in_class k c))
          (Regex.sub_delete fuel [Regex.Atom k Regex.One] s) = true.
Proof.
  induction fuel as [|fuel IH]; intros s Hlen; [lia|].
  destruct s as [|c s]; [reflexivity|]. cbn [String.length] in Hlen.
  cbn [Regex.sub_delete]. unfold Regex.match_here. cbn [Regex.compile Regex.one].
  destruct (Regex.in_class k c) eqn:Hc.
  - cbn [String.length].
    assert (Hlt : (String.length s <? S (String.length s))%nat = true)
      by (apply Nat.ltb_lt; lia).
    rewrite Hlt. apply IH. lia.
  - cbn [every]. rewrite Hc. cbn. apply IH. lia.
Qed.

Lemma control_class (c : ascii) :
  Regex.in_class
    (Regex.Union (Regex.Range "000" "031")
       (Regex.Union (Regex.Range "127" "159") Regex.Nothing)) c
  = control c.
Proof. cbn [Regex.in_class]. unfold control. now rewrite orb_false_r. Qed.

Lemma every_ext (p q : ascii -> bool) (s : string) :
  (forall c, p c = q c) -> every p s = every q s.
Proof. intros H. induction s as [|c s IH]; [reflexivity|]. cbn. now rewrite H, IH. Qed.

(** X5: the block [clean_json] returns holds none of the control
    characters of the two ranges 0 to 31 and 127 to 159, so no line break
    and no tab, and neither begins nor ends with a blank: stripping it
    again changes nothing. *)
Theorem clean_json_is_clean (text js : string) :
  clean_json text = Some js ->
  every (fun c => negb (control c)) js = true
  /\ PyStr.strip js = js
  /\ every (fun c => negb (Ascii.eqb c "010") && negb (Ascii.eqb c "009")) js = true.
Proof.
  unfold clean_json.
  destruct (Regex.re_search false false _ text) as [m|]; [|discriminate].
  intros [= <-].
  assert (Hc : every (fun c => negb (control c))
                 (PyStr.strip
                    (Regex.re_sub_delete "[\x00-\x1F\x7F-\x9F]" (Regex.group1 m))) = true).
  { apply every_strip. unfold Regex.re_sub_delete.
    change (Regex.parse false false "[\x00-\x1F\x7F-\x9F]")
      with (Some [Regex.Atom
                    (Regex.Union (Regex.Range "000" "031")
                       (Regex.Union (Regex.Range "127" "159") Regex.Nothing))
                    Regex.One]).
    rewrite (every_ext _ (fun c => negb (Regex.in_class
                                           (Regex.Union (Regex.Range "000" "031")
                                              (Regex.Union (Regex.Range "127" "159")
                                                 Regex.Nothing)) c)))
      by (intros c; now rewrite control_class).
    apply sub_delete_class. lia. }
  split; [exact Hc|]. split; [apply strip_idempotent|].
  revert Hc. generalize (PyStr.strip
                           (Regex.re_sub_delete "[\x00-\x1F\x7F-\x9F]" (Regex.group1 m))).
  intros s. induction s as [|c s IH]; [reflexivity|]. cbn [every].
  rewrite !andb_true_iff. intros [Hc Hs]. split; [|now apply IH].
  destruct (Ascii.eqb_spec c "010") as [->|_]; [discriminate Hc|].
  destruct (Ascii.eqb_spec c "009") as [->|_]; [discriminate Hc|]. now split.
Qed.

Lemma clean_json_is_clean_witness :
  let text := "Scores follow. ```json" +:+ Sample.nl +:+
              Json.quoted "  {'errors': [],  'revised_score': null}  " +:+ Sample.nl
              +:+ "```" in
  let js := Json.quoted "{'errors': [],  'revised_score': null}" in
  every (fun c => negb (control c)) js = true
  /\ PyStr.strip js = js
  /\ every (fun c => negb (Ascii.eqb c "010") && negb (Ascii.eqb c "009")) js = true.
Proof.
  intros text js.
  exact (clean_json_is_clean text js ltac:(vm_compute; reflexivity)).
Defined.

(** ** The interpreter: exceptions, keys and narrative *)

Lemma split_head_prefix (sep s : string) :
  exists tail, s = PyStr.split_head sep s +:+ tail
               /\ (PyStr.contains sep s = true -> PyStr.startswith sep tail = true).
Proof.
  induction s as [|c s IH]; cbn [PyStr.split_head PyStr.contains].
  - destruct (PyStr.startswith sep EmptyString) eqn:Hs;
      exists EmptyString; (split; [reflexivity|]); [auto | discriminate].
  - destruct (PyStr.startswith sep (String c s)) eqn:Hs.
    + exists (String c s). now split.
    + destruct IH as (tail & Heq & Ht). exists tail.
      rewrite app_cons, <- Heq. now split.
Qed.

(** What precedes the first occurrence of a separator does not hold it. *)
Lemma split_head_clear (sep s : string) :
  sep <> EmptyString -> PyStr.contains sep (PyStr.split_head sep s) = false.
Proof.
  intros Hne.
  assert (He : PyStr.startswith sep EmptyString = false)
    by (destruct sep; [contradiction | reflexivity]).
  induction s as [|c s IH]; cbn [PyStr.split_head].
  - rewrite He. cbn. now rewrite He.
  - destruct (PyStr.startswith sep (String c s)) eqn:Hs; [cbn; now rewrite He|].
    cbn [PyStr.contains]. rewrite IH, orb_false_r.
    destruct (PyStr.startswith sep (String c (PyStr.split_head sep s))) eqn:Hh;
      [|reflexivity].
    apply startswith_spec in Hh. destruct Hh as [post Hh].
    destruct (split_head_prefix sep s) as (tail & Heq & _).
    assert (Hs' : PyStr.startswith sep (String c s) = true).
    { apply startswith_spec. exists (post +:+ tail).
      rewrite <- append_assoc, <- Hh, app_cons. now rewrite <- Heq. }
    congruence.
Qed.

Lemma strip_clear (sep s : string) :
  PyStr.contains sep s = false -> PyStr.contains sep (PyStr.strip s) = false.
Proof.
  intros Hs. destruct (PyStr.contains sep (PyStr.strip s)) eqn:Hc; [|reflexivity].
  apply contains_spec in Hc. destruct Hc as (pre & post & Hc).
  destruct (strip_split s) as (a & b & Heq & _).
  assert (Hin : PyStr.contains sep s = true).
  { apply contains_spec. exists (a +:+ pre), (post +:+ b).
    rewrite Heq, Hc. now rewrite !append_assoc. }
  congruence.
Qed.

Lemma initial_dom : dom initial_scores = score_keys.
Proof.
  unfold initial_scores, score_keys. rewrite !dom_insert_L, dom_empty_L. set_solver.
Qed.

Lemma numeral_not_dash (g : string) : numeral g -> g <> dash.
Proof.
  intros (d1 & d2 & Hne & Hd1 & _ & Hg) Hd. rewrite Hd in Hg.
  destruct d1 as [|c d1]; [contradiction|]. cbn [every] in Hd1.
  apply andb_true_iff in Hd1. destruct Hd1 as [Hc _].
  destruct Hg as [Hg|Hg]; rewrite app_cons in Hg; unfold dash in Hg;
    injection Hg as Hg _; rewrite <- Hg in Hc; discriminate Hc.
Qed.

Section InterpreterFurther.

Variable json_loads : string -> option pyval.

Lemma resolve_dom (md : string) (js : option string)
    (st : gmap string string * list pyval) (kp : string * string) :
  kp.1 ∈ dom st.1 -> dom (resolve json_loads md js st kp).1 = dom st.1.
Proof.
  intros Hin. rewrite resolve_eq. cbn [fst].
  assert (Hd : forall v : string, dom (<[kp.1 := v]> st.1) = dom st.1).
  { intros v. rewrite dom_insert_L. apply subseteq_union_1_L.
    now apply singleton_subseteq_l. }
  destruct (Regex.re_search true true kp.2 md); [apply Hd|].
  destruct (structured_score json_loads js kp.1); [apply Hd|reflexivity].
Qed.

Lemma fold_resolve_dom (md : string) (js : option string) (pats : list (string * string)) :
  forall st, (forall kp, In kp pats -> kp.1 ∈ dom st.1) ->
             dom (fold_left (resolve json_loads md js) pats st).1 = dom st.1.
Proof.
  induction pats as [|kp pats IH]; intros st Hin; cbn [fold_left]; [reflexivity|].
  assert (Hd : dom (resolve json_loads md js st kp).1 = dom st.1)
    by (apply resolve_dom, Hin; now left).
  rewrite IH; [exact Hd|]. intros kp' Hin'. rewrite Hd. apply Hin. now right.
Qed.


(** X7: the score record of a result always has the same five keys, the
    four criteria and the overall: [process_response] neither adds a key
    nor drops one, whatever the block holds. *)
Theorem score_record_keeps_its_keys (text md : string) (data : report) :
  process_response json_loads text = Returns (md, data) ->
  dom (originalScore data) = score_keys.
Proof.
  unfold process_response.
  destruct (parse_block json_loads text (clean_json text)) as [[md0 data0]|e] eqn:Hpb;
    [|discriminate].
  destruct (parse_block_scores _ _ _ _ _ Hpb) as [Hs0 _].
  pose proof (fold_resolve_dom md0 (clean_json text) patterns
                (originalScore data0, [])) as Hd.
  destruct (fold_left _ patterns _) as [scores found].
  intros [= _ <-]. cbn [originalScore fst] in *.
  rewrite Hs0, initial_dom in Hd.
  assert (Hs : dom scores = score_keys).
  { apply Hd. intros kp Hin. cbn in Hin.
    repeat (destruct Hin as [<-|Hin]; [unfold score_keys; set_solver|]).
    destruct Hin. }
  destruct found; [exact Hs|]. rewrite dom_insert_L, Hs. unfold score_keys. set_solver.
Qed.

(** X8: an overall figure is given only when all four sub-scores are: in
    a result whose overall is not the sentinel, none of the four sub-scores
    is the sentinel. *)
Theorem overall_needs_four (text md : string) (data : report) :
  process_response json_loads text = Returns (md, data) ->
  originalScore data !! "overall" <> Some dash ->
  forall key regex,
    In (key, regex) patterns ->
    exists score, originalScore data !! key = Some score /\ score <> dash.
Proof.
  intros Hret Hov.
  destruct (process_response_returns json_loads text md data Hret)
    as (_ & Hkeys & Hoverall & _).
  set (js := clean_json text) in *.
  set (found := flat_map (score_found json_loads md js) patterns) in *.
  assert (Hlen : (4 <= length found)%nat).
  { destruct (Nat.lt_ge_cases (length found) 4) as [Hlt|Hge]; [|exact Hge].
    exfalso. apply Hov. rewrite Hoverall. f_equal. now apply few_found. }
  assert (Hone : forall kp, (length (score_found json_loads md js kp) <= 1)%nat)
    by (intros kp; apply score_found_length).
  assert (Hsome : forall kp, In kp patterns -> score_found json_loads md js kp <> []).
  { intros kp Hin Hnil. subst found. cbn [patterns flat_map] in Hlen.
    rewrite !length_app in Hlen.
    pose proof (Hone ("task_achievement", "Task\s+Achievement\s*Score.*?(\d+\.?\d*)")).
    pose proof (Hone ("cohesion_coherence", "Coherence\s*&\s*Cohesion\s*Score.*?(\d+\.?\d*)")).
    pose proof (Hone ("lexical_resource", "Lexical\s+Resource\s*Score.*?(\d+\.?\d*)")).
    pose proof (Hone ("grammatical_range", "Grammatical\s+Range.*?Score.*?(\d+\.?\d*)")).
    cbn in Hin.
    destruct Hin as [Heq|[Heq|[Heq|[Heq|[]]]]]; rewrite <- Heq in Hnil;
      rewrite Hnil in Hlen; cbn [length] in Hlen; lia. }
  intros key regex Hin. exists (score_text json_loads md js (key, regex)).
  split; [exact (Hkeys (key, regex) Hin)|].
  specialize (Hsome _ Hin). unfold score_found, score_text in *. cbn [fst snd] in *.
  destruct (Regex.re_search true true regex md) as [m|] eqn:Hm.
  - apply numeral_not_dash. exact (search_numeral key regex md m Hin Hm).
  - destruct (structured_score json_loads js key) as [val|]; [|contradiction].
    destruct (String.eqb_spec (PyVal.str val) dash) as [Heq|Hne]; [contradiction|].
    exact Hne.
Qed.

(** X9: the narrative a result carries is the text before the first
    opening marker, stripped, whenever the text has a block that is not
    empty: it does not hold the marker, so no search of the narrative
    reads inside the block, and it has no blank at either end.  With no
    block, or an empty one, the narrative is the whole text unchanged. *)
Theorem narrative_excludes_block (text md : string) (data : report) :
  process_response json_loads text = Returns (md, data) ->
  (forall js, clean_json text = Some js -> js <> EmptyString ->
              (exists head tail,
                  text = head +:+ "```json" +:+ tail
                  /\ PyStr.contains "```json" head = false
                  /\ md = PyStr.strip head)
              /\ PyStr.contains "```json" md = false
              /\ PyStr.strip md = md)
  /\ (clean_json text = None \/ clean_json text = Some EmptyString -> md = text).
Proof.
  intros Hret.
  destruct (process_response_returns json_loads text md data Hret) as (Hmd & _).
  unfold narrative in Hmd. split.
  - intros js Hjs Hne. rewrite Hjs in Hmd. cbn [truthy] in Hmd.
    destruct js as [|c js]; [contradiction|]. cbn in Hmd.
    assert (Hclear : PyStr.contains "```json" (PyStr.split_head "```json" text) = false)
      by (apply split_head_clear; discriminate).
    split; [|split].
    + destruct (split_head_prefix "```json" text) as (tail & Heq & Ht).
      assert (Hopen : PyStr.contains "```json" text = true).
      { destruct (PyStr.contains "```json" text) eqn:Hc; [reflexivity|].
        rewrite (no_opener_no_block text Hc) in Hjs. discriminate. }
      apply Ht, startswith_spec in Hopen. destruct Hopen as [tail' ->].
      exists (PyStr.split_head "```json" text), tail'. now split.
    + rewrite Hmd. now apply strip_clear.
    + rewrite Hmd. apply strip_idempotent.
  - intros [Hn|Hn]; now rewrite Hn in Hmd.
Qed.

End InterpreterFurther.

Lemma score_record_keeps_its_keys_witness :
  exists md data,
    process_response Json.loads Sample.mixed = Returns (md, data)
    /\ dom (originalScore data) = score_keys.
Proof.
  destruct mixed_returns as (data & Hret & _).
  eexists. exists data. split; [exact Hret|].
  exact (score_record_keeps_its_keys Json.loads Sample.mixed _ data Hret).
Defined.

Lemma full_report_returns :
  exists md data,
    process_response Json.loads (Sample.report "6.0" "6.0" "6.0" "7.0")
    = Returns (md, data)
    /\ originalScore data !! "overall" = Some "6.5".
Proof.
  destruct (process_response Json.loads (Sample.report "6.0" "6.0" "6.0" "7.0"))
    as [[md data]|e] eqn:H; vm_compute in H; [|discriminate H].
  injection H as <- <-. eexists _, _. split; [reflexivity|].
  vm_compute. reflexivity.
Defined.

Lemma overall_needs_four_witness :
  exists md data,
    process_response Json.loads (Sample.report "6.0" "6.0" "6.0" "7.0")
    = Returns (md, data)
    /\ originalScore data !! "overall" <> Some dash
    /\ forall key regex,
        In (key, regex) patterns ->
        exists score, originalScore data !! key = Some score /\ score <> dash.
Proof.
  destruct full_report_returns as (md & data & Hret & Hov).
  assert (Hne : originalScore data !! "overall" <> Some dash)
    by (rewrite Hov; discriminate).
  exists md, data. split; [exact Hret|]. split; [exact Hne|].
  exact (overall_needs_four Json.loads _ md data Hret Hne).
Defined.

Lemma narrative_excludes_block_witness :
  exists md data,
    process_response Json.loads Sample.mixed = Returns (md, data)
    /\ (forall js, clean_json Sample.mixed = Some js -> js <> EmptyString ->
                   (exists head tail,
                       Sample.mixed = head +:+ "```json" +:+ tail
                       /\ PyStr.contains "```json" head = false
                       /\ md = PyStr.strip head)
                   /\ PyStr.contains "```json" md = false
                   /\ PyStr.strip md = md)
    /\ (clean_json Sample.mixed = None \/ clean_json Sample.mixed = Some EmptyString ->
        md = Sample.mixed).
Proof.
  destruct mixed_returns as (data & Hret & _).
  eexists. exists data. split; [exact Hret|].
  exact (narrative_excludes_block Json.loads Sample.mixed _ data Hret).
Defined.

(** ** [str.replace] and [html.escape] *)

Lemma expand_app (f : ascii -> string) (a b : string) :
  expand f (a +:+ b) = expand f a +:+ expand f b.
Proof.
  induction a as [|c a IH]; [reflexivity|].
  rewrite app_cons. cbn [expand]. now rewrite IH, append_assoc.
Qed.

Lemma expand_expand (f g : ascii -> string) (s : string) :
  expand f (expand g s) = expand (fun c => expand f (g c)) s.
Proof.
  induction s as [|c s IH]; [reflexivity|].
  cbn [expand]. now rewrite expand_app, IH.
Qed.

Lemma expand_ext (f g : ascii -> string) (s : string) :
  (forall c, f c = g c) -> expand f s = expand g s.
Proof. intros H. induction s as [|c s IH]; [reflexivity|]. cbn. now rewrite H, IH. Qed.

(** Replacing a single character is done character by character. *)
Lemma replace_char (a : ascii) (new s : string) :
  Py.replace (String a EmptyString) new s
  = expand (fun c => if Ascii.eqb a c then new else String c EmptyString) s.
Proof.
  unfold Py.replace. cbn [PyStr.falsy].
  induction s as [|c s IH]; [reflexivity|].
  cbn [Py.replace_from PyStr.startswith expand String.length Nat.sub].
  destruct (Ascii.eqb a c); now rewrite IH.
Qed.

(** [html.escape] writes each character as its entity: the five
    replacements, done one after the other, do not touch the entities
    already written. *)
Lemma html_escape_entities (s : string) : Py.html_escape s = expand entity s.
Proof.
  unfold Py.html_escape, Py.dq. cbv zeta.
  rewrite !replace_char, !expand_expand. apply expand_ext.
  intros c. destruct c as [[] [] [] [] [] [] [] []]; vm_compute; reflexivity.
Qed.

Lemma every_expand (p : ascii -> bool) (f : ascii -> string) (s : string) :
  (forall c, every p (f c) = true) -> every p (expand f s) = true.
Proof.
  intros H. induction s as [|c s IH]; [reflexivity|].
  cbn [expand]. now rewrite every_app, H, IH.
Qed.

Lemma html_escape_no_lt (s : string) : every not_lt (Py.html_escape s) = true.
Proof.
  rewrite html_escape_entities. apply every_expand.
  intros c. destruct c as [[] [] [] [] [] [] [] []]; vm_compute; reflexivity.
Qed.

(** ** Texts with the tags of the export only *)

Lemma markup_app (a b : string) : markup a -> markup b -> markup (a +:+ b).
Proof.
  intros Ha Hb. induction Ha as [|c s Hc _ IH|t s Ht _ IH].
  - exact Hb.
  - rewrite app_cons. now constructor.
  - rewrite append_assoc. now constructor.
Qed.

Lemma markup_plain (s : string) : every not_lt s = true -> markup s.
Proof.
  induction s as [|c s IH]; [constructor|]. cbn [every]. rewrite andb_true_iff.
  intros [Hc Hs]. constructor; [|now apply IH].
  intros ->. discriminate Hc.
Qed.

Lemma substring_drop (a b : string) :
  String.substring (String.length a) (String.length (a +:+ b) - String.length a) (a +:+ b)
  = b.
Proof.
  induction a as [|c a IH].
  - rewrite app_empty_l. cbn [String.length]. rewrite Nat.sub_0_r.
    apply substring_all.
  - rewrite app_cons. cbn [String.length String.substring Nat.sub]. exact IH.
Qed.

Lemma markup_b_sound (fuel : nat) : forall s, markup_b fuel s = true -> markup s.
Proof.
  induction fuel as [|fuel IH]; intros s; [discriminate|].
  destruct s as [|c s]; [constructor|]. cbn [markup_b].
  destruct (not_lt c) eqn:Hc.
  - intros H. constructor; [|now apply IH]. intros ->. discriminate Hc.
  - rewrite existsb_exists. intros (t & Hin & Ht).
    apply andb_true_iff in Ht. destruct Ht as [Hpre Hrest].
    apply startswith_spec in Hpre. destruct Hpre as [post Hpre].
    rewrite Hpre in Hrest |- *. rewrite substring_drop in Hrest.
    constructor; [exact Hin | now apply IH].
Qed.

Lemma pdf_text_markup (s : string) : markup (pdf_text s).
Proof.
  unfold pdf_text, Py.nl. rewrite replace_char.
  pose proof (html_escape_no_lt s) as H. revert H.
  generalize (Py.html_escape s). intros t.
  induction t as [|c t IH]; [constructor|]. cbn [every expand].
  rewrite andb_true_iff. intros [Hc Ht].
  apply markup_app; [|now apply IH].
  destruct (Ascii.eqb "010" c).
  - apply (markup_b_sound 10). vm_compute. reflexivity.
  - apply markup_plain. cbn. now rewrite Hc.
Qed.

Lemma length_append (a b : string) :
  String.length (a +:+ b) = (String.length a + String.length b)%nat.
Proof. induction a as [|c a IH]; [reflexivity|]. rewrite app_cons. cbn. now rewrite IH. Qed.

Lemma replace_from_skip (old new a b : string) :
  Py.replace_from (String.length a) old new (a +:+ b) = Py.replace_from 0 old new b.
Proof.
  induction a as [|c a IH]; [reflexivity|].
  rewrite app_cons. cbn [String.length Py.replace_from]. exact IH.
Qed.

(** At an occurrence the scan writes [new] and goes on after it. *)
Lemma replace_from_match (a : ascii) (old' new rest : string) :
  Py.replace_from 0 (String a old') new (String a old' +:+ rest)
  = new +:+ Py.replace_from 0 (String a old') new rest.
Proof.
  rewrite app_cons.
  assert (Hs : PyStr.startswith (String a old') (String a (old' +:+ rest)) = true).
  { apply startswith_spec. exists rest. now rewrite app_cons. }
  cbn [Py.replace_from]. rewrite Hs. cbn [String.length Nat.sub].
  rewrite Nat.sub_0_r. now rewrite replace_from_skip.
Qed.

(** Where the first character of [old] does not occur, nothing is
    replaced. *)
Lemma replace_from_apart (a : ascii) (old' new t s : string) :
  every (fun c => negb (Ascii.eqb a c)) t = true ->
  Py.replace_from 0 (String a old') new (t +:+ s)
  = t +:+ Py.replace_from 0 (String a old') new s.
Proof.
  induction t as [|c t IH]; [reflexivity|]. cbn [every]. rewrite andb_true_iff.
  intros [Hc Ht]. rewrite !app_cons. cbn [Py.replace_from PyStr.startswith].
  destruct (Ascii.eqb a c); [discriminate Hc|]. now rewrite IH.
Qed.

Lemma tag_begins (t s : string) (c : ascii) (x : string) :
  In t pdf_tags -> t +:+ s = String c x -> c = "<"%char.
Proof.
  unfold pdf_tags. cbn [In].
  intros H. repeat (destruct H as [<-|H]; [rewrite app_cons; now intros [= <- _]|]).
  destruct H.
Qed.

Lemma tag_not_empty (t : string) : In t pdf_tags -> (0 < String.length t)%nat.
Proof.
  unfold pdf_tags. cbn [In].
  intros H. repeat (destruct H as [<-|H]; [cbn; lia|]). destruct H.
Qed.

(** What follows plain characters in a text of the kind is of the kind. *)
Lemma markup_after_plain (p rest : string) :
  every not_lt p = true -> markup (p +:+ rest) -> markup rest.
Proof.
  induction p as [|c p IH]; [now intros _|]. cbn [every]. rewrite andb_true_iff.
  intros [Hc Hp] Hm. rewrite app_cons in Hm.
  inversion Hm as [|c' s' Hne Hs' Heq|t s' Ht Hs' Heq].
  - now apply IH.
  - apply (tag_begins t s' c _ Ht) in Heq. subst c. discriminate Hc.
Qed.

(** Deleting the occurrences of a text that has no angle bracket and
    whose first character is in no tag keeps a text of the kind. *)
Lemma markup_delete (a : ascii) (old' : string) :
  every not_lt (String a old') = true ->
  (forall t, In t pdf_tags -> every (fun c => negb (Ascii.eqb a c)) t = true) ->
  forall s, markup s -> markup (Py.replace (String a old') EmptyString s).
Proof.
  intros Hold Htags s. unfold Py.replace. cbn [PyStr.falsy].
  remember (S (String.length s)) as n eqn:Hn.
  assert (Hlen : (String.length s < n)%nat) by lia. clear Hn.
  revert s Hlen. induction n as [|n IH]; intros s Hlen Hm; [lia|].
  inversion Hm as [|c s' Hne Hs' Heq|t s' Ht Hs' Heq]; subst s.
  - constructor.
  - destruct (PyStr.startswith (String a old') (String c s')) eqn:Hst.
    + apply startswith_spec in Hst. destruct Hst as [rest Hrest].
      rewrite Hrest, replace_from_match, app_empty_l. apply IH.
      * rewrite Hrest, length_append in Hlen. cbn [String.length] in *. lia.
      * apply (markup_after_plain (String a old')); [exact Hold|].
        now rewrite <- Hrest.
    + cbn [Py.replace_from]. rewrite Hst. constructor; [exact Hne|].
      apply IH; [cbn [String.length] in Hlen; lia | exact Hs'].
  - rewrite replace_from_apart by now apply Htags.
    constructor; [exact Ht|]. apply IH; [|exact Hs'].
    rewrite length_append in Hlen. pose proof (tag_not_empty t Ht). lia.
Qed.

Ltac markup_const := apply (markup_b_sound 100); vm_compute; reflexivity.

Ltac each_element :=
  repeat match goal with
         | |- Forall _ (_ :: _) => apply Forall_cons_2
         | |- Forall _ [] => apply Forall_nil_2
         end.

Lemma markup_escaped (s : string) : markup (Py.html_escape s).
Proof. apply markup_plain, html_escape_no_lt. Qed.

Lemma analysis_markup (s : string) :
  markup (Py.replace "###" EmptyString (Py.replace "**" EmptyString (pdf_text s))).
Proof.
  apply markup_delete; [reflexivity| |apply markup_delete; [reflexivity| |]].
  - unfold pdf_tags. cbn [In]. intros t H.
    repeat (destruct H as [<-|H]; [reflexivity|]). destruct H.
  - unfold pdf_tags. cbn [In]. intros t H.
    repeat (destruct H as [<-|H]; [reflexivity|]). destruct H.
  - apply pdf_text_markup.
Qed.

Lemma paragraphs_app (a b : list flowable) :
  paragraphs (a ++ b) = paragraphs a ++ paragraphs b.
Proof. apply omap_app. Qed.

Lemma pdf_error_markup (style : para_style) (err : pyval) (l : list flowable) :
  pdf_error style err = Done l -> Forall markup (paragraphs l).
Proof.
  unfold pdf_error.
  destruct (Py.get err "category" _) as [category|]; [|discriminate].
  destruct (Py.get err "type" _) as [type|]; [|discriminate].
  destruct (Py.get err "original" _) as [original|]; [|discriminate].
  destruct (Py.get err "correction" _) as [correction|]; [|discriminate].
  cbn [bind]. intros [= <-]. cbn [paragraphs omap]. constructor; [|constructor].
  repeat (apply markup_app; [first [apply markup_escaped | markup_const]|]).
  markup_const.
Qed.


(** ** The font set-up *)

Section FontProperties.

Variable requests_get : nat -> string -> string + Z * string.
Variable ttfont : string -> option string.

Local Abbreviation downloaded := (downloaded requests_get).

(** One turn of the loop over [urls]: a file that is there and is not
    small is left alone; a file that is missing or small is fetched, and
    is afterwards the body of the answer when the status is 200, missing
    otherwise. *)
Lemma fetch_font_spec (filename url : string) (m : machine) :
  exists e m',
    fetch_font requests_get (filename, url) m = (e, m')
    /\ fonts m' = fonts m /\ mappings m' = mappings m
    /\ (forall f, f <> filename -> files m' !! f = files m !! f)
    /\ ((e = None /\ files m' = files m /\ fetched m' = fetched m
         /\ printed m' = printed m
         /\ exists c, files m !! filename = Some c
                      /\ (1000 <= String.length c)%nat)
        \/ (fetched m' = fetched m ++ [url]
            /\ (files m !! filename = None
                \/ exists c, files m !! filename = Some c
                             /\ (String.length c < 1000)%nat)
            /\ files m' !! filename = downloaded (length (fetched m)) url
            /\ match requests_get (length (fetched m)) url with
               | inl err => e = Some err /\ printed m' = printed m
               | inr (status_code, content) =>
                   e = None
                   /\ printed m' =
                      printed m ++ (if status_code =? 200 then []
                                    else [DownloadFailed filename status_code])
               end)).
Proof.
  unfold fetch_font, exists_, getsize, downloaded.
  destruct (files m !! filename) as [c|] eqn:Hc.
  - destruct (Z.of_nat (String.length c) <? 1000) eqn:Hs; cbn [andb negb].
    + apply Z.ltb_lt in Hs. cbn [remove files]. rewrite lookup_delete_eq. cbn [negb].
      cbn [note_fetch fetched remove].
      destruct (requests_get (length (fetched m)) url) as [err|[status_code content]].
      * eexists _, _. split; [reflexivity|]. cbn [note_fetch remove write_file print fonts mappings files fetched printed].
        split; [reflexivity|]. split; [reflexivity|].
        split; [intros f Hf; now rewrite lookup_delete_ne by congruence|].
        right. split; [reflexivity|]. split; [right; exists c; split; [reflexivity|lia]|].
        split; [apply lookup_delete_eq|]. now split.
      * destruct (status_code =? 200) eqn:Hst.
        -- eexists _, _. split; [reflexivity|].
           cbn [note_fetch remove write_file print fonts mappings files fetched printed].
           split; [reflexivity|]. split; [reflexivity|].
           split; [intros f Hf; now rewrite lookup_insert_ne, lookup_delete_ne by congruence|].
           right. split; [reflexivity|].
           split; [right; exists c; split; [reflexivity|lia]|].
           split; [apply lookup_insert_eq|]. split; [reflexivity|].
           now rewrite app_nil_r.
        -- eexists _, _. split; [reflexivity|].
           cbn [note_fetch remove write_file print fonts mappings files fetched printed].
           split; [reflexivity|]. split; [reflexivity|].
           split; [intros f Hf; now rewrite lookup_delete_ne by congruence|].
           right. split; [reflexivity|].
           split; [right; exists c; split; [reflexivity|lia]|].
           split; [apply lookup_delete_eq|]. now split.
    + apply Z.ltb_ge in Hs. rewrite Hc. cbn [negb].
      eexists _, _. split; [reflexivity|]. repeat (split; [reflexivity|]).
      left. repeat (split; [reflexivity|]).
      exists c. split; [reflexivity|lia].
  - cbn [andb negb]. rewrite Hc. cbn [negb note_fetch fetched].
    destruct (requests_get (length (fetched m)) url) as [err|[status_code content]].
    + eexists _, _. split; [reflexivity|]. cbn [note_fetch remove write_file print fonts mappings files fetched printed].
      split; [reflexivity|]. split; [reflexivity|]. split; [reflexivity|].
      right. split; [reflexivity|]. split; [now left|]. split; [exact Hc|]. now split.
    + destruct (status_code =? 200) eqn:Hst.
      * eexists _, _. split; [reflexivity|].
        cbn [note_fetch remove write_file print fonts mappings files fetched printed].
        split; [reflexivity|]. split; [reflexivity|].
        split; [intros f Hf; now rewrite lookup_insert_ne by congruence|].
        right. split; [reflexivity|]. split; [now left|].
        split; [apply lookup_insert_eq|]. split; [reflexivity|].
        now rewrite app_nil_r.
      * eexists _, _. split; [reflexivity|].
        cbn [note_fetch remove write_file print fonts mappings files fetched printed].
        split; [reflexivity|]. split; [reflexivity|]. split; [reflexivity|].
        right. split; [reflexivity|]. split; [now left|]. split; [exact Hc|]. now split.
Qed.

Lemma font_names_differ : font_reg <> font_bold.
Proof. discriminate. Qed.

(** The two turns of the loop. *)
Lemma fetch_fonts_spec (m : machine) :
  exists e m2,
    fetch_fonts requests_get urls m = (e, m2)
    /\ fonts m2 = fonts m /\ mappings m2 = mappings m
    /\ (forall f, f <> font_reg -> f <> font_bold -> files m2 !! f = files m !! f)
    /\ (exists new, fetched m2 = fetched m ++ new
                    /\ (new = [] \/ new = [url_reg] \/ new = [url_bold]
                        \/ new = [url_reg; url_bold]))
    /\ files m2 !! font_reg =
       match files m !! font_reg with
       | Some c => if (String.length c <? 1000)%nat
                   then downloaded (length (fetched m)) url_reg
                   else Some c
       | None => downloaded (length (fetched m)) url_reg
       end
    /\ (forall c1 c2,
           files m !! font_reg = Some c1 -> (1000 <= String.length c1)%nat ->
           files m !! font_bold = Some c2 -> (1000 <= String.length c2)%nat ->
           e = None /\ files m2 = files m /\ fetched m2 = fetched m
           /\ printed m2 = printed m)
    /\ (e = None -> exists_ m2 font_reg = true -> exists_ m2 font_bold = true ->
        printed m2 = printed m).
Proof.
  unfold urls. cbn [fetch_fonts].
  destruct (fetch_font_spec font_reg url_reg m)
    as (e1 & m1 & H1 & Hf1 & Hm1 & Hframe1 & Hcase1).
  change "https://github.com/googlefonts/roboto/raw/main/src/hinted/Roboto-Regular.ttf"
    with url_reg.
  change "https://github.com/googlefonts/roboto/raw/main/src/hinted/Roboto-Bold.ttf"
    with url_bold.
  rewrite H1.
  assert (Hreg : files m1 !! font_reg =
                 match files m !! font_reg with
                 | Some c => if (String.length c <? 1000)%nat
                             then downloaded (length (fetched m)) url_reg
                             else Some c
                 | None => downloaded (length (fetched m)) url_reg
                 end).
  { destruct Hcase1 as [(_ & Hfiles & _ & _ & c & Hc & Hlen)
                       |(_ & [Hnone|(c & Hc & Hlen)] & Hd & _)].
    - rewrite Hfiles, Hc.
      now replace (String.length c <? 1000)%nat with false
        by (symmetry; apply Nat.ltb_ge; lia).
    - now rewrite Hnone.
    - rewrite Hc.
      now replace (String.length c <? 1000)%nat with true
        by (symmetry; apply Nat.ltb_lt; lia). }
  destruct e1 as [err|].
  - exists (Some err), m1. split; [reflexivity|]. split; [exact Hf1|]. split; [exact Hm1|].
    split; [intros f Hr _; now apply Hframe1|]. split; [|split; [exact Hreg|split]].
    + destruct Hcase1 as [(He & _)|(Hfe & _)]; [discriminate He|].
      exists [url_reg]. tauto.
    + intros c1 c2 Hc1 Hl1 _ _.
      destruct Hcase1 as [(He & _)|(_ & [Hn|(c & Hc & Hlen)] & _)];
        [discriminate He | congruence|].
      rewrite Hc1 in Hc. injection Hc as <-. lia.
    + discriminate.
  - destruct (fetch_font_spec font_bold url_bold m1)
      as (e2 & m2 & H2 & Hf2 & Hm2 & Hframe2 & Hcase2).
    rewrite H2.
    assert (Hout : fetch_fonts requests_get [] m2 = (None, m2)) by reflexivity.
    exists e2, m2. split; [now destruct e2|].
    split; [congruence|]. split; [congruence|].
    split; [intros f Hr Hb; now rewrite Hframe2, Hframe1|].
    split; [|split; [|split]].
    + destruct Hcase1 as [(_ & _ & Hfe1 & _)|(Hfe1 & _)];
        destruct Hcase2 as [(_ & _ & Hfe2 & _)|(Hfe2 & _)]; rewrite Hfe2, Hfe1.
      * exists []. rewrite app_nil_r. tauto.
      * exists [url_bold]. tauto.
      * exists [url_reg]. tauto.
      * exists [url_reg; url_bold]. rewrite <- app_assoc. tauto.
    + rewrite Hframe2 by exact font_names_differ. exact Hreg.
    + intros c1 c2 Hc1 Hl1 Hc2 Hl2.
      destruct Hcase1 as [(_ & Hfiles1 & Hfe1 & Hp1 & _)|(_ & [Hn|(c & Hc & Hlen)] & _)];
        [|congruence|rewrite Hc1 in Hc; injection Hc as <-; lia].
      rewrite <- Hfiles1 in Hc2.
      destruct Hcase2 as [(He2 & Hfiles2 & Hfe2 & Hp2 & _)|(_ & [Hn|(c & Hc & Hlen)] & _)];
        [|congruence|rewrite Hc2 in Hc; injection Hc as <-; lia].
      repeat split; congruence.
    + intros -> Hx1 Hx2. unfold exists_ in Hx1, Hx2.
      assert (Hp1 : printed m1 = printed m).
      { destruct Hcase1 as [(_ & _ & _ & Hp1 & _)|(_ & _ & Hd & Hreq)]; [exact Hp1|].
        rewrite Hframe2, Hd in Hx1 by exact font_names_differ. unfold downloaded in Hx1.
        destruct (requests_get (length (fetched m)) url_reg) as [err|[st body]];
          [discriminate Hx1|].
        destruct Hreq as [_ Hp]. rewrite Hp.
        destruct (st =? 200); [apply app_nil_r | discriminate Hx1]. }
      rewrite <- Hp1.
      destruct Hcase2 as [(_ & _ & _ & Hp2 & _)|(_ & _ & Hd & Hreq)]; [exact Hp2|].
      rewrite Hd in Hx2. unfold downloaded in Hx2.
      destruct (requests_get (length (fetched m1)) url_bold) as [err|[st body]];
        [discriminate Hx2|].
      destruct Hreq as [_ Hp]. rewrite Hp.
      destruct (st =? 200); [apply app_nil_r | discriminate Hx2].
Qed.

Local Abbreviation register_fonts := (register_fonts requests_get ttfont).

(** The registration that follows the loop touches neither the files nor
    the list of the requests. *)
Lemma register_fonts_spec (m : machine) :
  exists e m2,
    fetch_fonts requests_get urls m = (e, m2)
    /\ files (register_fonts m).2 = files m2
    /\ fetched (register_fonts m).2 = fetched m2
    /\ (exists added, fonts (register_fonts m).2 = fonts m ++ added)
    /\ ((register_fonts m).1 = true <->
        e = None /\ fonts_readable ttfont m2 = true)
    /\ ((register_fonts m).1 = true ->
        fonts (register_fonts m).2
        = fonts m ++ [("Roboto", font_reg); ("Roboto-Bold", font_bold)]
        /\ mappings (register_fonts m).2
           = mappings m ++ [("Roboto", 0, 0, "Roboto"); ("Roboto", 1, 0, "Roboto-Bold")]
        /\ printed (register_fonts m).2 = printed m2).
Proof.
  destruct (fetch_fonts_spec m) as (e & m2 & Hf & Hfonts & Hmap & _).
  exists e, m2. split; [exact Hf|].
  unfold register_fonts, fonts_readable, registerFont. rewrite Hf.
  destruct e as [err|].
  - cbn [fst snd print files fetched fonts].
    split; [reflexivity|]. split; [reflexivity|].
    split; [exists []; now rewrite app_nil_r|].
    split; [split; [discriminate | intros [He _]; discriminate He]|discriminate].
  - unfold exists_.
    destruct (files m2 !! font_reg) as [c1|] eqn:Hc1; cbn [andb default from_option id];
      [|cbn [fst snd]; split; [reflexivity|]; split; [reflexivity|];
        split; [exists []; now rewrite app_nil_r|];
        split; [split; [discriminate | intros [_ He]; discriminate He]|discriminate]].
    destruct (files m2 !! font_bold) as [c2|] eqn:Hc2; cbn [andb default from_option id];
      [|cbn [fst snd]; split; [reflexivity|]; split; [reflexivity|];
        split; [exists []; now rewrite app_nil_r|];
        split; [split; [discriminate | intros [_ He]; discriminate He]|discriminate]].
    destruct (ttfont c1) as [err|].
    + cbn [fst snd print files fetched fonts].
      split; [reflexivity|]. split; [reflexivity|].
      split; [exists []; now rewrite app_nil_r|].
      split; [split; [discriminate | intros [_ He]; discriminate He]|discriminate].
    + cbn [add_font files]. rewrite ?Hc2. cbn [default from_option id].
      destruct (ttfont c2) as [err|].
      * cbn [fst snd print add_font files fetched fonts].
        split; [reflexivity|]. split; [reflexivity|].
        split; [rewrite Hfonts; now eexists|].
        split; [split; [discriminate | intros [_ He]; discriminate He]|discriminate].
      * cbn [fst snd addMapping add_font files fetched fonts mappings printed].
        split; [reflexivity|]. split; [reflexivity|].
        split; [rewrite Hfonts, <- app_assoc; now eexists|].
        split; [now split|]. intros _.
        rewrite Hfonts, Hmap, <- !app_assoc. now split.
Qed.

(** X10: when [register_fonts] returns [True] the two font files are in
    the working directory, [TTFont] has read both, the fonts "Roboto" and
    "Roboto-Bold" are registered from them, in this order, with the two
    mappings of the family, and nothing has been printed. *)
Theorem registered_fonts_are_read (m : machine) :
  (register_fonts m).1 = true ->
  let m' := (register_fonts m).2 in
  (exists c1 c2,
      files m' !! font_reg = Some c1 /\ files m' !! font_bold = Some c2
      /\ ttfont c1 = None /\ ttfont c2 = None)
  /\ fonts m' = fonts m ++ [("Roboto", font_reg); ("Roboto-Bold", font_bold)]
  /\ mappings m'
     = mappings m ++ [("Roboto", 0, 0, "Roboto"); ("Roboto", 1, 0, "Roboto-Bold")]
  /\ printed m' = printed m.
Proof.
  intros Htrue m'. subst m'.
  destruct (register_fonts_spec m) as (e & m2 & Hf & Hfiles & _ & _ & Hiff & Hreg).
  destruct (proj1 Hiff Htrue) as [-> Hread].
  destruct (Hreg Htrue) as (Hfonts & Hmap & Hprint).
  destruct (fetch_fonts_spec m) as (e' & m2' & Hf' & _ & _ & _ & _ & _ & _ & Hquiet).
  rewrite Hf in Hf'. injection Hf' as <- <-.
  unfold fonts_readable in Hread. rewrite Hfiles.
  destruct (files m2 !! font_reg) as [c1|] eqn:Hc1; [|discriminate].
  destruct (files m2 !! font_bold) as [c2|] eqn:Hc2; [|discriminate].
  split; [|split; [exact Hfonts|split; [exact Hmap|]]].
  - exists c1, c2. destruct (ttfont c1); [discriminate|].
    destruct (ttfont c2); [discriminate|]. auto.
  - rewrite Hprint. apply Hquiet; [reflexivity| |]; unfold exists_.
    + now rewrite Hc1.
    + now rewrite Hc2.
Qed.

(** X11: a font file of 1000 bytes or more is never fetched again and
    never replaced: with both files of that size in place, the call sends
    no request and leaves every file as it was, and it returns [True]
    exactly when [TTFont] reads both; so a file of that size that is not a
    font makes every call return [False]. *)
Theorem font_files_are_cached (m : machine) (c1 c2 : string) :
  files m !! font_reg = Some c1 -> (1000 <= String.length c1)%nat ->
  files m !! font_bold = Some c2 -> (1000 <= String.length c2)%nat ->
  let m' := (register_fonts m).2 in
  files m' = files m
  /\ fetched m' = fetched m
  /\ ((register_fonts m).1 = true <-> ttfont c1 = None /\ ttfont c2 = None).
Proof.
  intros Hc1 Hl1 Hc2 Hl2 m'. subst m'.
  destruct (register_fonts_spec m) as (e & m2 & Hf & Hfiles & Hfetched & _ & Hiff & _).
  destruct (fetch_fonts_spec m) as (e' & m2' & Hf' & _ & _ & _ & _ & _ & Hkept & _).
  rewrite Hf in Hf'. injection Hf' as <- <-.
  destruct (Hkept c1 c2 Hc1 Hl1 Hc2 Hl2) as (-> & Hsame & Hnone & _).
  split; [congruence|]. split; [congruence|].
  rewrite Hiff. unfold fonts_readable. rewrite Hsame, Hc1, Hc2.
  destruct (ttfont c1), (ttfont c2); split; intros [H1 H2]; try discriminate; auto.
Qed.

(** X12: a call fetches at most the two font files, each at most once
    and from its own address, and writes no other file; the regular font
    file, when it was missing or shorter than 1000 bytes, is afterwards the
    body of the answer to its request if the status was 200, and is
    missing otherwise: a short file does not survive a call. *)
Theorem register_fonts_touches_two_files (m : machine) :
  let m' := (register_fonts m).2 in
  (forall f, f <> font_reg -> f <> font_bold -> files m' !! f = files m !! f)
  /\ (exists new, fetched m' = fetched m ++ new
                  /\ (new = [] \/ new = [url_reg] \/ new = [url_bold]
                      \/ new = [url_reg; url_bold]))
  /\ files m' !! font_reg =
     match files m !! font_reg with
     | Some c => if (String.length c <? 1000)%nat
                 then downloaded (length (fetched m)) url_reg
                 else Some c
     | None => downloaded (length (fetched m)) url_reg
     end
  /\ exists added, fonts m' = fonts m ++ added.
Proof.
  cbv zeta.
  destruct (register_fonts_spec m) as (e & m2 & Hf & Hfiles & Hfetched & Hadded & _).
  destruct (fetch_fonts_spec m) as (e' & m2' & Hf' & _ & _ & Hframe & Hnew & Hreg & _).
  rewrite Hf in Hf'. injection Hf' as <- <-.
  rewrite Hfiles, Hfetched. auto.
Qed.

End FontProperties.

Lemma registered_fonts_are_read_witness :
  let m' := (register_fonts FontDemo.server FontDemo.reads FontDemo.fresh).2 in
  (exists c1 c2,
      files m' !! font_reg = Some c1 /\ files m' !! font_bold = Some c2
      /\ FontDemo.reads c1 = None /\ FontDemo.reads c2 = None)
  /\ fonts m' = fonts FontDemo.fresh
                ++ [("Roboto", font_reg); ("Roboto-Bold", font_bold)]
  /\ mappings m'
     = mappings FontDemo.fresh
       ++ [("Roboto", 0, 0, "Roboto"); ("Roboto", 1, 0, "Roboto-Bold")]
  /\ printed m' = printed FontDemo.fresh.
Proof.
  exact (registered_fonts_are_read FontDemo.server FontDemo.reads FontDemo.fresh
           ltac:(vm_compute; reflexivity)).
Defined.

Lemma font_files_are_cached_witness :
  let m' := (register_fonts FontDemo.server FontDemo.reads FontDemo.cached).2 in
  files m' = files FontDemo.cached
  /\ fetched m' = fetched FontDemo.cached
  /\ ((register_fonts FontDemo.server FontDemo.reads FontDemo.cached).1 = true
      <-> FontDemo.reads FontDemo.body = None /\ FontDemo.reads FontDemo.body = None).
Proof.
  refine (font_files_are_cached FontDemo.server FontDemo.reads FontDemo.cached
            FontDemo.body FontDemo.body _ _ _ _).
  - vm_compute. reflexivity.
  - apply Nat.leb_le. vm_compute. reflexivity.
  - vm_compute. reflexivity.
  - apply Nat.leb_le. vm_compute. reflexivity.
Defined.

(** ** The PDF export *)

Lemma for_each_Forall {A B : Type} (Q : B -> Prop) (f : A -> result (list B)) :
  (forall x l, f x = Done l -> Forall Q l) ->
  forall xs l, for_each f xs = Done l -> Forall Q l.
Proof.
  intros Hf xs. induction xs as [|x xs IH]; intros l; cbn [for_each].
  - intros [= <-]. constructor.
  - destruct (f x) as [ys|] eqn:Hx; [|discriminate]. cbn [bind].
    destruct (for_each f xs) as [rest|]; [|discriminate]. cbn [bind].
    intros [= <-]. apply Forall_app. split; [now apply (Hf x) | now apply IH].
Qed.

Lemma safe_paragraphs (l : list flowable) :
  Forall safe_flowable l -> Forall markup (paragraphs l).
Proof.
  induction 1 as [|fl l Hfl _ IH]; [constructor|].
  destruct fl; cbn [paragraphs omap] in *; try exact IH. now constructor.
Qed.

Section PdfProperties.

Variable requests_get : nat -> string -> string + Z * string.
Variable ttfont : string -> option string.

Local Abbreviation register_fonts := (register_fonts requests_get ttfont).
Local Abbreviation create_pdf := (create_pdf requests_get ttfont).

(** The story of a document [create_pdf] returns, by its parts. *)
Lemma create_pdf_story (data : report) (topic essay analysis : string)
    (m : machine) (doc : pdf) :
  (create_pdf data topic essay analysis m).1 = Done doc ->
  let has_font := (register_fonts m).1 in
  let font_name := if has_font then "Roboto" else "Helvetica" in
  let font_bold := if has_font then "Roboto-Bold" else "Helvetica-Bold" in
  (create_pdf data topic essay analysis m).2 = (register_fonts m).2
  /\ exists error_log clean_annotated projected,
      pdf_error_log font_name (errors data) = Done error_log
      /\ Py.strip_tags (Py.or_empty (annotatedEssay data)) = Done clean_annotated
      /\ pdf_projected font_name (revisedScore data) = Done projected
      /\ story doc =
         pdf_front font_name font_bold (originalScore data) analysis
         ++ error_log
         ++ pdf_appendix font_name font_bold topic essay clean_annotated
         ++ projected.
Proof.
  unfold create_pdf, pdf_error_log, pdf_projected.
  destruct (register_fonts m) as [has_font m1]. cbn [fst snd].
  intros H. split; [reflexivity|]. revert H.
  destruct (if Py.truth (errors data) then _ else _) as [error_log|]; [|discriminate].
  cbn [bind].
  destruct (Py.strip_tags _) as [clean|]; [|discriminate]. cbn [bind].
  destruct (if Py.truth (revisedScore data) then _ else _) as [projected|];
    [|discriminate].
  cbn [bind]. intros [= <-]. exists error_log, clean, projected.
  repeat (split; [reflexivity|]). cbn [story]. unfold pdf_front, pdf_appendix.
  now rewrite <- !app_assoc.
Qed.

Lemma pdf_projected_safe (font_name : string) (rev : pyval) (l : list flowable) :
  pdf_projected font_name rev = Done l -> Forall safe_flowable l.
Proof.
  unfold pdf_projected. destruct (Py.truth rev); [|intros [= <-]; constructor].
  destruct (revised_row rev) as [row|]; [|discriminate]. cbn [bind].
  destruct (Py.get rev "logic_re_evaluation" VNone) as [note|]; [|discriminate].
  cbn [bind]. destruct (Py.truth note); [|intros [= <-]; each_element; exact I].
  destruct (Py.getitem rev "logic_re_evaluation") as [note'|]; [|discriminate].
  cbn [bind]. destruct note'; try discriminate. cbn [Py.escape bind].
  intros [= <-]. each_element; try exact I. cbn [safe_flowable].
  apply markup_app; [markup_const|]. apply markup_app; [apply markup_escaped|].
  markup_const.
Qed.

Lemma pdf_error_log_safe (font_name : string) (errs : pyval) (l : list flowable) :
  pdf_error_log font_name errs = Done l -> Forall safe_flowable l.
Proof.
  unfold pdf_error_log. destruct (Py.truth errs); [|intros [= <-]; constructor].
  destruct (Py.iter errs) as [xs|]; [|discriminate]. cbn [bind].
  apply for_each_Forall. intros x l' Hx.
  pose proof (pdf_error_markup _ _ _ Hx) as Hm. revert Hx. unfold pdf_error.
  destruct (Py.get x "category" _); [|discriminate].
  destruct (Py.get x "type" _); [|discriminate].
  destruct (Py.get x "original" _); [|discriminate].
  destruct (Py.get x "correction" _); [|discriminate].
  cbn [bind]. intros [= <-]. cbn [paragraphs omap] in Hm.
  inversion Hm; subst. each_element; [assumption | exact I].
Qed.

(** X13: in the story [create_pdf] builds, no text that comes from the
    user or from the model can open a tag: in every paragraph each opening
    angle bracket begins one of the tags the function writes itself (the
    line break, bold, strike and italic tags).  The topic, the essay, the
    analysis, the fields of the errors and the examiner's note are all
    escaped before they are put between the tags, and deleting the bold
    and heading markers of the analysis afterwards does not undo it. *)
Theorem pdf_paragraphs_keep_markup (data : report) (topic essay analysis : string)
    (m : machine) (doc : pdf) :
  (create_pdf data topic essay analysis m).1 = Done doc ->
  Forall markup (paragraphs (story doc)).
Proof.
  intros Hdoc.
  destruct (create_pdf_story data topic essay analysis m doc Hdoc)
    as (_ & error_log & clean & projected & Hlog & _ & Hproj & ->).
  apply safe_paragraphs. rewrite !Forall_app.
  split; [|split; [exact (pdf_error_log_safe _ _ _ Hlog)|split;
                   [|exact (pdf_projected_safe _ _ _ Hproj)]]].
  - unfold pdf_front. each_element; cbn [safe_flowable]; try exact I;
      try markup_const.
    + destruct (has_scores _); cbn [safe_flowable pdf_table]; [exact I | markup_const].
    + destruct (PyStr.falsy analysis); cbn [safe_flowable];
        [markup_const | apply analysis_markup].
  - unfold pdf_appendix. each_element; cbn [safe_flowable];
      first [exact I | apply pdf_text_markup | markup_const].
Qed.

Lemma pdf_projected_fonts (font_name font_bold : string) (rev : pyval)
    (l : list flowable) :
  pdf_projected font_name rev = Done l ->
  Forall (fun font => font = font_name \/ font = font_bold) (fonts_named l).
Proof.
  unfold pdf_projected. destruct (Py.truth rev); [|intros [= <-]; constructor].
  destruct (revised_row rev) as [row|]; [|discriminate]. cbn [bind].
  destruct (Py.get rev "logic_re_evaluation" VNone) as [note|]; [|discriminate].
  cbn [bind]. destruct (Py.truth note); [|intros [= <-]; cbn; each_element; now left].
  destruct (Py.getitem rev "logic_re_evaluation") as [note'|]; [|discriminate].
  cbn [bind]. destruct (Py.escape note'); [|discriminate]. cbn [bind].
  intros [= <-]. cbn. each_element; now left.
Qed.

Lemma fonts_named_app (a b : list flowable) :
  fonts_named (a ++ b) = fonts_named a ++ fonts_named b.
Proof. apply flat_map_app. Qed.

Lemma pdf_error_log_fonts (font_name font_bold : string) (errs : pyval)
    (l : list flowable) :
  pdf_error_log font_name errs = Done l ->
  Forall (fun font => font = font_name \/ font = font_bold) (fonts_named l).
Proof.
  unfold pdf_error_log. destruct (Py.truth errs); [|intros [= <-]; constructor].
  destruct (Py.iter errs) as [xs|]; [|discriminate]. cbn [bind].
  intros H.
  assert (Hall : Forall (uses_fonts font_name font_bold) l).
  { revert H. apply for_each_Forall. intros x l'. unfold pdf_error.
    destruct (Py.get x "category" _); [|discriminate].
    destruct (Py.get x "type" _); [|discriminate].
    destruct (Py.get x "original" _); [|discriminate].
    destruct (Py.get x "correction" _); [|discriminate].
    cbn [bind]. intros [= <-]. each_element; unfold uses_fonts; cbn;
      each_element; now left. }
  clear H. induction Hall as [|fl l Hfl _ IH]; [constructor|].
  change (fl :: l) with ([fl] ++ l). rewrite fonts_named_app.
  apply Forall_app. now split.
Qed.

(** X14: the fonts a story names are fonts the PDF library has: either
    the two standard ones, "Helvetica" and "Helvetica-Bold", or "Roboto"
    and "Roboto-Bold", and these only after [register_fonts] has
    registered both from files that are in the working directory and that
    [TTFont] reads. *)
Theorem pdf_fonts_are_available (data : report) (topic essay analysis : string)
    (m : machine) (doc : pdf) :
  (create_pdf data topic essay analysis m).1 = Done doc ->
  let m' := (create_pdf data topic essay analysis m).2 in
  Forall (fun font =>
            In font ["Helvetica"; "Helvetica-Bold"]
            \/ exists file content,
                In (font, file) (fonts m')
                /\ files m' !! file = Some content
                /\ ttfont content = None)
         (fonts_named (story doc)).
Proof.
  intros Hdoc m'. subst m'.
  destruct (create_pdf_story data topic essay analysis m doc Hdoc)
    as (-> & error_log & clean & projected & Hlog & _ & Hproj & ->).
  set (has_font := (register_fonts m).1) in *.
  set (font_name := if has_font then "Roboto" else "Helvetica") in *.
  set (font_bold := if has_font then "Roboto-Bold" else "Helvetica-Bold") in *.
  assert (Hnames : Forall (fun font => font = font_name \/ font = font_bold)
                     (fonts_named
                        (pdf_front font_name font_bold (originalScore data) analysis
                         ++ error_log
                         ++ pdf_appendix font_name font_bold topic essay clean
                         ++ projected))).
  { rewrite !fonts_named_app, !Forall_app.
    split; [|split; [exact (pdf_error_log_fonts _ _ _ _ Hlog)|split;
                     [|exact (pdf_projected_fonts _ _ _ _ Hproj)]]].
    - unfold pdf_front. destruct (has_scores _), (PyStr.falsy analysis);
        cbn; each_element; ((now left) || (now right)).
    - unfold pdf_appendix. cbn. each_element; ((now left) || (now right)). }
  apply (Forall_impl _ _ _ Hnames). intros font Hfont.
  destruct has_font eqn:Hhas; subst font_name font_bold.
  - right.
    destruct (register_fonts_spec requests_get ttfont m)
      as (e & m2 & _ & Hfiles & _ & _ & Hiff & Hreg).
    destruct (proj1 Hiff Hhas) as [_ Hread].
    destruct (Hreg Hhas) as (Hfonts & _).
    unfold fonts_readable in Hread. rewrite Hfiles, Hfonts.
    destruct (files m2 !! font_reg) as [c1|] eqn:Hc1; [|discriminate].
    destruct (files m2 !! font_bold) as [c2|] eqn:Hc2; [|discriminate].
    destruct (ttfont c1) eqn:Ht1; [discriminate|].
    destruct (ttfont c2) eqn:Ht2; [discriminate|].
    destruct Hfont as [->| ->].
    + exists font_reg, c1. split; [|now split].
      apply in_or_app. right. now left.
    + exists font_bold, c2. split; [|now split].
      apply in_or_app. right. right. now left.
  - left. destruct Hfont as [->| ->]; cbn; auto.
Qed.

End PdfProperties.

Lemma pdf_paragraphs_keep_markup_witness :
  exists doc,
    (create_pdf FontDemo.server FontDemo.reads ExportDemo.data ExportDemo.topic
       ExportDemo.essay ExportDemo.analysis FontDemo.fresh).1 = Done doc
    /\ Forall markup (paragraphs (story doc)).
Proof.
  destruct (create_pdf FontDemo.server FontDemo.reads ExportDemo.data ExportDemo.topic
              ExportDemo.essay ExportDemo.analysis FontDemo.fresh).1
    as [doc|e] eqn:H; [|vm_compute in H; discriminate H].
  exists doc. split; [reflexivity|].
  exact (pdf_paragraphs_keep_markup FontDemo.server FontDemo.reads ExportDemo.data
           ExportDemo.topic ExportDemo.essay ExportDemo.analysis FontDemo.fresh doc H).
Defined.

Lemma pdf_fonts_are_available_witness :
  exists doc,
    (create_pdf FontDemo.server FontDemo.reads ExportDemo.data ExportDemo.topic
       ExportDemo.essay ExportDemo.analysis FontDemo.fresh).1 = Done doc
    /\ let m' := (create_pdf FontDemo.server FontDemo.reads ExportDemo.data
                    ExportDemo.topic ExportDemo.essay ExportDemo.analysis
                    FontDemo.fresh).2 in
       Forall (fun font =>
                 In font ["Helvetica"; "Helvetica-Bold"]
                 \/ exists file content,
                     In (font, file) (fonts m')
                     /\ files m' !! file = Some content
                     /\ FontDemo.reads content = None)
              (fonts_named (story doc)).
Proof.
  destruct (create_pdf FontDemo.server FontDemo.reads ExportDemo.data ExportDemo.topic
              ExportDemo.essay ExportDemo.analysis FontDemo.fresh).1
    as [doc|e] eqn:H; [|vm_compute in H; discriminate H].
  exists doc. split; [reflexivity|].
  exact (pdf_fonts_are_available FontDemo.server FontDemo.reads ExportDemo.data
           ExportDemo.topic ExportDemo.essay ExportDemo.analysis FontDemo.fresh doc H).
Defined.

(** ** The Word export and the error list *)










Section ExportProperties.

Variable requests_get : nat -> string -> string + Z * string.
Variable ttfont : string -> option string.

Local Abbreviation create_pdf := (create_pdf requests_get ttfont).



End ExportProperties.


(** ** The band-score table of the exports *)

(** The document [create_docx] returns, by its parts. *)
Lemma create_docx_eq (today : string) (data : report) (topic essay analysis : string) :
  create_docx today data topic essay analysis =
  let* error_log := docx_error_log (errors data) in
  let* clean_annotated := Py.strip_tags (Py.or_empty (annotatedEssay data)) in
  let* projected := docx_projected (revisedScore data) in
  Done (docx_front today (originalScore data) analysis
        ++ error_log
        ++ docx_appendix topic essay
        ++ [ Heading "C. Annotated Version:" 2 false;
             TextParagraph clean_annotated;
             Heading "D. PROJECTED BAND SCORE (AFTER REVISION)" 2 false ]
        ++ projected).
Proof.
  unfold create_docx, docx_error_log, docx_projected.
  destruct (if Py.truth (errors data) then _ else _) as [error_log|]; [|reflexivity].
  cbn [bind].
  destruct (Py.strip_tags _) as [clean|]; [|reflexivity]. cbn [bind].
  destruct (if Py.truth (revisedScore data) then _ else _) as [projected|];
    [|reflexivity].
  cbn [bind]. unfold docx_front, docx_appendix. f_equal.
  repeat rewrite <- app_assoc. reflexivity.
Qed.

Section ScoreTable.

Variable json_loads : string -> option pyval.
Variable requests_get : nat -> string -> string + Z * string.
Variable ttfont : string -> option string.

(** X16: both exports show the band-score table exactly when the
    interpreter has computed an overall figure.  For a record made by
    [process_response], the fourth item of each document is the table with
    the four sub-scores and the overall as the record gives them when the
    overall is not the sentinel, and the notice that no score could be
    read when it is, whatever sub-scores were found. *)
Theorem exports_show_scores_with_overall (text md : string) (data : report) :
  process_response json_loads text = Returns (md, data) ->
  exists ta cc lr gra overall,
    originalScore data !! "task_achievement" = Some ta
    /\ originalScore data !! "cohesion_coherence" = Some cc
    /\ originalScore data !! "lexical_resource" = Some lr
    /\ originalScore data !! "grammatical_range" = Some gra
    /\ originalScore data !! "overall" = Some overall
    /\ (forall today topic essay analysis doc,
           create_docx today data topic essay analysis = Done doc ->
           doc !! 3%nat =
           Some (if String.eqb overall dash
                 then TextParagraph "Score details could not be extracted automatically."
                 else docx_table None [ta; cc; lr; gra; overall]))
    /\ (forall topic essay analysis m doc,
           (create_pdf requests_get ttfont data topic essay analysis m).1 = Done doc ->
           exists font_name,
             story doc !! 3%nat =
             Some (if String.eqb overall dash
                   then Paragraph "Original score data not found."
                          {| style_name := "Normal"; fontName := font_name;
                             fontSize := Some 13 |}
                   else pdf_table [ta; cc; lr; gra; overall] "darkred" font_name)).
Proof.
  intros Hret.
  destruct (process_response_returns json_loads text md data Hret)
    as (_ & Hkeys & Hoverall & _).
  pose proof (Hkeys _ (or_introl eq_refl)) as H1.
  pose proof (Hkeys _ (or_intror (or_introl eq_refl))) as H2.
  pose proof (Hkeys _ (or_intror (or_intror (or_introl eq_refl)))) as H3.
  pose proof (Hkeys _ (or_intror (or_intror (or_intror (or_introl eq_refl))))) as H4.
  cbn [fst] in H1, H2, H3, H4.
  set (scores := originalScore data) in *.
  destruct (scores !! "task_achievement") as [ta|] eqn:Eta; [clear H1|discriminate H1].
  destruct (scores !! "cohesion_coherence") as [cc|] eqn:Ecc; [clear H2|discriminate H2].
  destruct (scores !! "lexical_resource") as [lr|] eqn:Elr; [clear H3|discriminate H3].
  destruct (scores !! "grammatical_range") as [gra|] eqn:Egra; [clear H4|discriminate H4].
  destruct (scores !! "overall") as [overall|] eqn:Eov; [clear Hoverall|discriminate Hoverall].
  exists ta, cc, lr, gra, overall. repeat (split; [reflexivity|]).
  assert (Hrow : score_row scores = [ta; cc; lr; gra; overall]).
  { unfold score_row, score_cell. now rewrite Eta, Ecc, Elr, Egra, Eov. }
  assert (Hhas : has_scores scores = negb (String.eqb overall dash)).
  { unfold has_scores, score_cell. rewrite Eov. cbn [default from_option id].
    rewrite bool_decide_eq_false_2; [reflexivity|].
    intros Hempty. rewrite Hempty, lookup_empty in Eov. discriminate. }
  split.
  - intros today topic essay analysis doc. rewrite create_docx_eq.
    destruct (docx_error_log _) as [error_log|]; [|discriminate]. cbn [bind].
    destruct (Py.strip_tags _) as [clean|]; [|discriminate]. cbn [bind].
    destruct (docx_projected _) as [projected|]; [|discriminate]. cbn [bind].
    intros [= <-]. unfold docx_front. cbn [app lookup list_lookup].
    fold scores. rewrite Hhas, Hrow. now destruct (String.eqb _ dash).
  - intros topic essay analysis m doc Hdoc.
    destruct (create_pdf_story requests_get ttfont data topic essay analysis m doc Hdoc)
      as (_ & error_log & clean & projected & _ & _ & _ & ->).
    eexists. unfold pdf_front. cbn [app lookup list_lookup].
    fold scores. rewrite Hhas, Hrow. now destruct (String.eqb _ dash).
Qed.

End ScoreTable.

Lemma exports_show_scores_with_overall_witness :
  exists md data,
    process_response Json.loads (Sample.report "6.0" "6.0" "6.0" "7.0")
    = Returns (md, data)
    /\ exists ta cc lr gra overall,
        originalScore data !! "task_achievement" = Some ta
        /\ originalScore data !! "cohesion_coherence" = Some cc
        /\ originalScore data !! "lexical_resource" = Some lr
        /\ originalScore data !! "grammatical_range" = Some gra
        /\ originalScore data !! "overall" = Some overall
        /\ (forall today topic essay analysis doc,
               create_docx today data topic essay analysis = Done doc ->
               doc !! 3%nat =
               Some (if String.eqb overall dash
                     then TextParagraph
                            "Score details could not be extracted automatically."
                     else docx_table None [ta; cc; lr; gra; overall]))
        /\ (forall topic essay analysis m doc,
               (create_pdf FontDemo.server FontDemo.reads data topic essay analysis m).1
               = Done doc ->
               exists font_name,
                 story doc !! 3%nat =
                 Some (if String.eqb overall dash
                       then Paragraph "Original score data not found."
                              {| style_name := "Normal"; fontName := font_name;
                                 fontSize := Some 13 |}
                       else pdf_table [ta; cc; lr; gra; overall] "darkred" font_name)).
Proof.
  destruct full_report_returns as (md & data & Hret & _).
  exists md, data. split; [exact Hret|].
  exact (exports_show_scores_with_overall Json.loads FontDemo.server FontDemo.reads
           _ md data Hret).
Defined.

(** ** The tags of the annotated text *)

Lemma tag_parsed :
  Regex.parse false false tag_pattern =
  Some tag_items.
Proof. vm_compute. reflexivity. Qed.

Lemma not_gt_class (c : ascii) :
  Regex.in_class (Regex.Not (Regex.Union (Regex.Char ">") Regex.Nothing)) c
  = negb (Ascii.eqb c ">").
Proof. cbn [Regex.in_class]. now rewrite orb_false_r, Ascii.eqb_sym. Qed.

(** The run of characters other than the closing bracket, then that
    bracket. *)
Lemma star_to_gt (s : string) (st : Regex.mstate) :
  Regex.cur st = None ->
  Regex.star (Regex.in_class (Regex.Not (Regex.Union (Regex.Char ">") Regex.Nothing)))
    (Regex.one (Regex.in_class (Regex.Char ">")) (Regex.compile [])) s st
  = (fun rest => (Regex.groups st, rest)) <$> after_gt s.
Proof.
  intros Hst. induction s as [|c s IH]; [reflexivity|].
  cbn [Regex.star after_gt]. rewrite not_gt_class, (consume_idle c st Hst), IH.
  cbn [Regex.one Regex.in_class Regex.compile].
  rewrite ?(consume_idle c st Hst), (Ascii.eqb_sym ">" c).
  destruct (Ascii.eqb c ">"); cbn [negb]; [reflexivity|].
  now destruct (after_gt s).
Qed.

Lemma tag_match_here (s : string) :
  Regex.match_here tag_items s = (fun rest => ([], rest)) <$> after_tag s.
Proof.
  unfold Regex.match_here, tag_items. cbn [Regex.compile].
  destruct s as [|c [|c' s]]; cbn [Regex.one after_tag].
  - reflexivity.
  - change (Regex.in_class (Regex.Char "<") c) with (Ascii.eqb "<" c).
    now destruct (Ascii.eqb "<" c).
  - change (Regex.in_class (Regex.Char "<") c) with (Ascii.eqb "<" c).
    rewrite (Ascii.eqb_sym "<" c). destruct (Ascii.eqb c "<"); cbn [andb]; [|reflexivity].
    change (Regex.consume c {| Regex.cur := None; Regex.groups := [] |})
      with {| Regex.cur := None; Regex.groups := [] |}.
    rewrite not_gt_class. destruct (Ascii.eqb c' ">"); cbn [negb]; [reflexivity|].
    change (Regex.consume c' {| Regex.cur := None; Regex.groups := [] |})
      with {| Regex.cur := None; Regex.groups := [] |}.
    now rewrite star_to_gt.
Qed.

Lemma after_gt_shorter (s rest : string) :
  after_gt s = Some rest -> (String.length rest < String.length s)%nat.
Proof.
  revert rest. induction s as [|c s IH]; intros rest; [discriminate|].
  cbn [after_gt String.length]. destruct (Ascii.eqb c ">").
  - intros [= <-]. lia.
  - intros H. specialize (IH _ H). lia.
Qed.

Lemma after_tag_shorter (s rest : string) :
  after_tag s = Some rest -> (String.length rest < String.length s)%nat.
Proof.
  destruct s as [|c [|c' s]]; try discriminate. cbn [after_tag String.length].
  destruct (_ && _); [|discriminate]. intros H. apply after_gt_shorter in H. lia.
Qed.

(** The deletion of the tags, step by step. *)
Lemma sub_delete_tag (fuel : nat) (c : ascii) (s : string) :
  Regex.sub_delete (S fuel) tag_items (String c s)
  = match after_tag (String c s) with
    | Some rest => Regex.sub_delete fuel tag_items rest
    | None => String c (Regex.sub_delete fuel tag_items s)
    end.
Proof.
  cbn [Regex.sub_delete]. rewrite tag_match_here.
  destruct (after_tag (String c s)) as [rest|] eqn:Ht; cbn [fmap option_fmap option_map];
    [|reflexivity].
  apply after_tag_shorter in Ht.
  now replace (String.length rest <? String.length (String c s))%nat with true
    by (symmetry; apply Nat.ltb_lt; exact Ht).
Qed.

Lemma after_gt_none (s : string) : after_gt s = None <-> every not_gt s = true.
Proof.
  induction s as [|c s IH]; [now split|]. cbn [after_gt every]. unfold not_gt at 1.
  destruct (Ascii.eqb c ">"); cbn [negb andb]; [split; discriminate | exact IH].
Qed.

Lemma after_gt_suffix (p : ascii -> bool) (s rest : string) :
  after_gt s = Some rest -> every p s = true -> every p rest = true.
Proof.
  revert rest. induction s as [|c s IH]; intros rest; [discriminate|].
  cbn [after_gt every]. rewrite andb_true_iff.
  destruct (Ascii.eqb c ">"); [now intros [= <-] [_ H] | intros H [_ Hs]; eauto].
Qed.

Lemma after_tag_suffix (p : ascii -> bool) (s rest : string) :
  after_tag s = Some rest -> every p s = true -> every p rest = true.
Proof.
  destruct s as [|c [|c' s]]; try discriminate. cbn [after_tag every].
  destruct (_ && _); [|discriminate]. rewrite !andb_true_iff.
  intros H (_ & _ & Hs). exact (after_gt_suffix p s rest H Hs).
Qed.

(** What the deletion keeps are characters of the text. *)
Lemma sub_delete_every (p : ascii -> bool) (fuel : nat) :
  forall s, every p s = true -> every p (Regex.sub_delete fuel tag_items s) = true.
Proof.
  induction fuel as [|fuel IH]; intros s Hs; [exact Hs|].
  destruct s as [|c s]; [reflexivity|]. rewrite sub_delete_tag.
  destruct (after_tag (String c s)) as [rest|] eqn:Ht.
  - apply IH. exact (after_tag_suffix p _ _ Ht Hs).
  - cbn [every] in *. apply andb_true_iff in Hs. destruct Hs as [Hc Hs].
    now rewrite Hc, IH.
Qed.

(** A text without an opening bracket is left as it is. *)
Lemma sub_delete_plain (fuel : nat) :
  forall s, every not_lt s = true -> Regex.sub_delete fuel tag_items s = s.
Proof.
  induction fuel as [|fuel IH]; intros s Hs; [reflexivity|].
  destruct s as [|c s]; [reflexivity|]. rewrite sub_delete_tag.
  cbn [every] in Hs. apply andb_true_iff in Hs. destruct Hs as [Hc Hs].
  assert (Ht : after_tag (String c s) = None).
  { destruct s as [|c' s]; [reflexivity|]. cbn [after_tag]. unfold not_lt in Hc.
    now destruct (Ascii.eqb c "<"). }
  now rewrite Ht, IH.
Qed.

(** After the deletion no tag is left. *)
Lemma sub_delete_no_tag (fuel : nat) :
  forall s, (String.length s < fuel)%nat ->
            no_tag (Regex.sub_delete fuel tag_items s) = true.
Proof.
  induction fuel as [|fuel IH]; intros s Hlen; [lia|].
  destruct s as [|c s]; [reflexivity|]. rewrite sub_delete_tag.
  destruct (after_tag (String c s)) as [rest|] eqn:Ht.
  - apply IH. apply after_tag_shorter in Ht. lia.
  - cbn [String.length] in Hlen.
    assert (Hrec : no_tag (Regex.sub_delete fuel tag_items s) = true) by (apply IH; lia).
    assert (Hhead : after_tag (String c (Regex.sub_delete fuel tag_items s)) = None).
    { destruct s as [|c' s]; [now destruct fuel|].
      destruct fuel as [|fuel']; [cbn [String.length] in Hlen; lia|].
      cbn [after_tag] in Ht.
      destruct (Ascii.eqb c "<") eqn:Hc; cbn [andb] in Ht;
        [|rewrite sub_delete_tag;
          destruct (after_tag (String c' s));
          [destruct (Regex.sub_delete fuel' tag_items _) as [|d r]|];
          cbn [after_tag]; now rewrite ?Hc].
      destruct (Ascii.eqb c' ">") eqn:Hc'; cbn [negb] in Ht.
      - rewrite sub_delete_tag.
        assert (Hgt : after_tag (String c' s) = None).
        { destruct s as [|c'' s]; [reflexivity|]. cbn [after_tag].
          apply Ascii.eqb_eq in Hc'. subst c'. reflexivity. }
        rewrite Hgt. cbn [after_tag]. now rewrite Hc, Hc'.
      - apply after_gt_none in Ht.
        assert (Hrun : every not_gt (String c' s) = true).
        { cbn [every]. unfold not_gt at 1. now rewrite Hc', Ht. }
        pose proof (sub_delete_every not_gt (S fuel') _ Hrun) as Hkept.
        destruct (Regex.sub_delete (S fuel') tag_items (String c' s)) as [|d r];
          [reflexivity|].
        cbn [after_tag]. cbn [every] in Hkept. apply andb_true_iff in Hkept.
        destruct Hkept as [Hd Hr]. rewrite Hc. unfold not_gt in Hd. rewrite Hd.
        cbn [andb]. now apply after_gt_none. }
    cbn [no_tag]. fold no_tag. now rewrite Hhead.
Qed.

Lemma no_tag_search (s : string) :
  no_tag s = true -> Regex.search tag_items s = None.
Proof.
  induction s as [|c s IH]; cbn [no_tag Regex.search]; rewrite tag_match_here.
  - reflexivity.
  - destruct (after_tag (String c s)); [discriminate|]. exact IH.
Qed.

(** What [strip_tags] returns: a text in which the pattern of a tag has no
    match; the text itself when it has no opening bracket; the empty text
    for a value that is not true. *)
Lemma strip_tags_spec (v : pyval) (clean : string) :
  Py.strip_tags (Py.or_empty v) = Done clean ->
  Regex.re_search false false tag_pattern clean = None
  /\ (forall s, v = VStr s -> every not_lt s = true -> clean = s)
  /\ (Py.truth v = false -> clean = EmptyString).
Proof.
  unfold Py.strip_tags, Py.or_empty, Regex.re_sub_delete, Regex.re_search.
  change "<[^>]+>" with tag_pattern. rewrite tag_parsed.
  destruct (Py.truth v) eqn:Hv.
  - destruct v as [| | | |s| |]; try discriminate. intros [= <-].
    split; [|split; [|discriminate]].
    + apply no_tag_search.
      exact (sub_delete_no_tag (S (String.length s)) s (Nat.lt_succ_diag_r _)).
    + intros s' [= <-] Hs. exact (sub_delete_plain (S (String.length s)) s Hs).
  - intros [= <-]. split; [reflexivity|]. split; [|reflexivity].
    intros s -> _. now destruct s.
Qed.

Section AnnotatedVersion.

Variable requests_get : nat -> string -> string + Z * string.
Variable ttfont : string -> option string.

(** X17: the annotated version both exports print is free of tags: the
    text put under the heading "C. Annotated Version" is the annotated
    text of the record with every match of the pattern of a tag deleted, a
    text in which the pattern matches nowhere; it is the annotated text
    itself when that has no opening angle bracket, and the empty text when
    the record has none. *)
Theorem annotated_version_has_no_tag (data : report) :
  (forall today topic essay analysis doc,
      create_docx today data topic essay analysis = Done doc ->
      exists clean before after,
        doc = before
              ++ [Heading "C. Annotated Version:" 2 false; TextParagraph clean]
              ++ after
        /\ Regex.re_search false false tag_pattern clean = None
        /\ (forall s, annotatedEssay data = VStr s -> every not_lt s = true ->
                      clean = s)
        /\ (Py.truth (annotatedEssay data) = false -> clean = EmptyString))
  /\ (forall topic essay analysis m doc,
         (create_pdf requests_get ttfont data topic essay analysis m).1 = Done doc ->
         exists clean before after h2_style normal_style,
           story doc = before
                       ++ [Paragraph "<b>C. Annotated Version:</b>" h2_style;
                           Paragraph (pdf_text clean) normal_style]
                       ++ after
           /\ Regex.re_search false false tag_pattern clean = None
           /\ (forall s, annotatedEssay data = VStr s -> every not_lt s = true ->
                         clean = s)
           /\ (Py.truth (annotatedEssay data) = false -> clean = EmptyString)).
Proof.
  split.
  - intros today topic essay analysis doc. rewrite create_docx_eq.
    destruct (docx_error_log _) as [error_log|]; [|discriminate]. cbn [bind].
    destruct (Py.strip_tags _) as [clean|] eqn:Hclean; [|discriminate]. cbn [bind].
    destruct (docx_projected _) as [projected|]; [|discriminate]. cbn [bind].
    intros [= <-].
    exists clean,
      (docx_front today (originalScore data) analysis ++ error_log
       ++ docx_appendix topic essay),
      (Heading "D. PROJECTED BAND SCORE (AFTER REVISION)" 2 false :: projected).
    split; [|exact (strip_tags_spec _ _ Hclean)].
    unfold docx_front, docx_appendix. rewrite <- !app_assoc. reflexivity.
  - intros topic essay analysis m doc Hdoc.
    destruct (create_pdf_story requests_get ttfont data topic essay analysis m doc Hdoc)
      as (_ & error_log & clean & projected & _ & Hclean & _ & ->).
    set (font_name := if (register_fonts requests_get ttfont m).1
                      then "Roboto" else "Helvetica").
    set (font_bold := if (register_fonts requests_get ttfont m).1
                      then "Roboto-Bold" else "Helvetica-Bold").
    exists clean,
      (pdf_front font_name font_bold (originalScore data) analysis ++ error_log
       ++ take 8 (pdf_appendix font_name font_bold topic essay clean)),
      (drop 10 (pdf_appendix font_name font_bold topic essay clean) ++ projected),
      {| style_name := "Heading2"; fontName := font_bold; fontSize := None |},
      {| style_name := "Normal"; fontName := font_name; fontSize := Some 13 |}.
    split; [|exact (strip_tags_spec _ _ Hclean)].
    unfold pdf_front, pdf_appendix. cbn [take drop]. rewrite <- !app_assoc. reflexivity.
Qed.

End AnnotatedVersion.
